(** * JSpeak speech service: a shallow embedding of the streaming engine

    The definitions below follow [Python/jsp_speech_service.py].  Python
    strings are sequences of Unicode code points and are modelled as lists
    of code points ([N]); Python integers are unbounded and are modelled by
    [Z] (configuration values, counters) or [nat] (lengths and indices of
    sequences). *)

From Stdlib Require Import ZArith NArith Lia Bool.
From Stdlib Require Import Strings.String Strings.Ascii Strings.Byte.
From Stdlib Require Import DecimalString.
From Stdlib Require Import Floats.SpecFloat.
From stdpp Require Import base list option gmap.

Local Open Scope Z_scope.

(* ===================================================================== *)
(** ** Python strings *)
(* ===================================================================== *)

Module PyStr.

(** One Unicode code point. *)
Abbreviation char := N (only parsing).
(** A Python [str]. *)
Abbreviation str := (list N) (only parsing).

(** Literals are written as in the source file; [u] decodes the UTF-8 bytes
    of a literal into its code points. *)
Fixpoint utf8_go (bs : list N) (acc : N) (k : nat) : str :=
  match bs with
  | [] => []
  | b :: rest =>
      match k with
      | O =>
          if (b <? 128)%N then b :: utf8_go rest 0%N O
          else if (b <? 224)%N then utf8_go rest (b - 192)%N 1%nat
          else if (b <? 240)%N then utf8_go rest (b - 224)%N 2%nat
          else utf8_go rest (b - 240)%N 3%nat
      | S O => (acc * 64 + (b - 128))%N :: utf8_go rest 0%N O
      | S k' => utf8_go rest (acc * 64 + (b - 128))%N k'
      end
  end.

Definition u (s : string) : str :=
  utf8_go (map Byte.to_N (list_byte_of_string s)) 0%N O.

(** Control characters, which have no escape in a literal here. *)
Definition TAB : char := 9%N.
Definition LF : char := 10%N.
Definition CR : char := 13%N.
Definition SPACE : char := 32%N.

(** [ch in chars] for a string used as a set of characters. *)
Definition mem (c : char) (chars : str) : bool :=
  existsb (N.eqb c) chars.

(** [str.isspace] on one character ([Py_UNICODE_ISSPACE]); it is also what
    [str.strip()] removes and what [\s] matches in a [str] pattern. *)
Definition is_space (c : char) : bool :=
  ((9 <=? c) && (c <=? 13) || (28 <=? c) && (c <=? 32)
   || (c =? 133) || (c =? 160) || (c =? 5760)
   || (8192 <=? c) && (c <=? 8202)
   || (c =? 8232) || (c =? 8233) || (c =? 8239) || (c =? 8287)
   || (c =? 12288))%N.

(** [s.lstrip(chars)] / [s.rstrip(chars)] / [s.strip(chars)], the set of
    characters to remove given as a predicate. *)
Fixpoint lstrip_by (p : char -> bool) (s : str) : str :=
  match s with
  | c :: rest => if p c then lstrip_by p rest else s
  | [] => []
  end.

Definition rstrip_by (p : char -> bool) (s : str) : str :=
  rev (lstrip_by p (rev s)).

Definition strip_by (p : char -> bool) (s : str) : str :=
  rstrip_by p (lstrip_by p s).

(** [s.strip()] *)
Definition strip (s : str) : str := strip_by is_space s.

(** [s.startswith(p)] *)
Fixpoint startswith (s p : str) {struct p} : bool :=
  match p, s with
  | [], _ => true
  | _ :: _, [] => false
  | a :: p', b :: s' => (a =? b)%N && startswith s' p'
  end.

(** [s.endswith(p)] *)
Definition endswith (s p : str) : bool := startswith (rev s) (rev p).

(** [a == b] on strings. *)
Definition str_eqb (a b : str) : bool := bool_decide (a = b).

(** [s in (t1, t2, ...)] *)
Definition str_in (s : str) (l : list str) : bool := existsb (str_eqb s) l.

(** Truthiness of a string: [if s:]. *)
Definition nonempty (s : str) : bool :=
  match s with [] => false | _ => true end.

End PyStr.
Import PyStr.

(* ===================================================================== *)
(** ** Diff engine: [_common_prefix_len] and the delta of [Service.handle] *)
(* ===================================================================== *)

(** The loop [while i < n and a[i] == b[i]: i += 1].  [fuel] bounds the
    number of iterations; the loop is entered with [fuel = n]. *)
Fixpoint cpl_loop (a b : str) (n i fuel : nat) : nat :=
  match fuel with
  | O => i
  | S fuel' =>
      if (i <? n)%nat && bool_decide (a !! i = b !! i)
      then cpl_loop a b n (S i) fuel'
      else i
  end.

Definition _common_prefix_len (a b : str) : nat :=
  let n := min (length a) (length b) in
  cpl_loop a b n 0 n.

(** The delta fields of a response.  The service sends the two numbers as
    decimal strings ([str(cpl)], [str(len(prev) - cpl)]). *)
Record Delta := mkDelta {
  delta_from : Z;
  delta_delete : Z;
  delta_insert : str
}.

(** Lines 690-694 (and 719-723) of [Service.handle]. *)
Definition diff (prev next : str) : Delta :=
  let cpl := _common_prefix_len prev next in
  {| delta_from := Z.of_nat cpl;
     delta_delete := Z.of_nat (length prev) - Z.of_nat cpl;
     delta_insert := drop cpl next |}.


(* ===================================================================== *)
(** ** Text normalizer *)
(* ===================================================================== *)

(** The character class [[一-鿿]]. *)
Definition is_cjk (c : char) : bool := ((0x4e00 <=? c) && (c <=? 0x9fff))%N.

(** The character class [[A-Za-z0-9]]. *)
Definition is_ascii_alnum (c : char) : bool :=
  ((65 <=? c) && (c <=? 90) || (97 <=? c) && (c <=? 122)
   || (48 <=? c) && (c <=? 57))%N.

(** [re.sub] of a pattern [([P])([Q])] by [\1 \2]: the scan goes left to
    right and resumes after the two characters of a match. *)
Fixpoint sub_pair (p q : char -> bool) (s : str) : str :=
  match s with
  | [] => []
  | a :: tl =>
      match tl with
      | [] => [a]
      | b :: rest =>
          if p a && q b then a :: SPACE :: b :: sub_pair p q rest
          else a :: sub_pair p q tl
      end
  end.

Definition _normalize_mixed_spacing (text : str) : str :=
  let text := sub_pair is_cjk is_ascii_alnum text in
  let text := sub_pair is_ascii_alnum is_cjk text in
  text.

(** The character class of [_RE_END_PUNCT] and [_RE_TRAILING_PUNCT]:
    [[\.!\?。！？…]]. *)
Definition is_end_punct (c : char) : bool :=
  mem c [46; 33; 63; 0x3002; 0xff01; 0xff1f; 0x2026]%N.

(** [_RE_TRAILING_PUNCT.sub("", s)], pattern [[...]+$].  Without
    [re.MULTILINE], [$] matches at the end of the string and also just
    before a newline that is the last character. *)
Definition re_trailing_punct_sub (s : str) : str :=
  match rev s with
  | [] => []
  | c :: r =>
      if (c =? LF)%N then rev (lstrip_by is_end_punct r) ++ [LF]
      else rstrip_by is_end_punct s
  end.

(** [bool(_RE_END_PUNCT.search(s))], same pattern. *)
Definition re_end_punct_search (s : str) : bool :=
  match rev s with
  | [] => false
  | c :: r =>
      is_end_punct c
      || ((c =? LF)%N && match r with d :: _ => is_end_punct d | [] => false end)
  end.

(** [bool(re.search(r"[一-鿿]", s))] *)
Definition has_cjk (s : str) : bool := existsb is_cjk s.

(** [bool(re.search(P, s))] for a pattern [P] that is an alternation of
    literal strings. *)
Fixpoint contains_any (alts : list str) (s : str) : bool :=
  existsb (startswith s) alts
  || match s with [] => false | _ :: s' => contains_any alts s' end.

(** [re.search(P, s).start()] for such a pattern: the leftmost position at
    which one of the alternatives matches. *)
Fixpoint search_any (alts : list str) (s : str) : option nat :=
  if existsb (startswith s) alts then Some O
  else match s with
       | [] => None
       | _ :: s' => S <$> search_any alts s'
       end.

(** [str.lower()].  ASCII capitals are lowered; the two non-ASCII characters
    whose lower case contains an ASCII letter (U+0130 and the Kelvin sign
    U+212A) are mapped as Python maps them.  Every other character is kept:
    Python lowers other cased non-ASCII letters to non-ASCII letters, which
    occur in none of the patterns and tables below. *)
Definition lower_char (c : char) : str :=
  if ((65 <=? c) && (c <=? 90))%N then [(c + 32)%N]
  else if (c =? 0x130)%N then [105; 0x307]%N
  else if (c =? 0x212a)%N then [107]%N
  else [c].

Definition lower (s : str) : str := concat (map lower_char s).

(** [\w] in a [str] pattern on the characters the service meets: ASCII
    letters, digits and the underscore, and the CJK ideographs of
    [[一-鿿]] (alphanumeric for Python).  Other non-ASCII
    alphanumerics are not listed. *)
Definition is_word (c : char) : bool :=
  is_ascii_alnum c || (c =? 95)%N || is_cjk c.

(** [^(k1|k2|...)\b] matched at the start of [s]: some keyword is a prefix
    and a word boundary follows it (every keyword ends in a letter). *)
Definition match_keyword_b (alts : list str) (s : str) : bool :=
  existsb
    (fun k =>
       startswith s k
       && match drop (length k) s with
          | [] => true
          | c :: _ => negb (is_word c)
          end)
    alts.

Definition cn_question_infixes : list str :=
  [u "是不是"; u "是否"; u "能不能"; u "可不可以"; u "可以吗"; u "要不要";
   u "需不需要"; u "有没有"].

(** The alternatives of [^(怎么|...|哪(里|儿|个|些|种|位)?|...)]; the optional
    group after [哪] does not change whether the pattern matches. *)
Definition cn_question_starts : list str :=
  [u "怎么"; u "为什么"; u "为啥"; u "多少"; u "几"; u "哪"; u "谁"; u "啥";
   u "什么"; u "何时"; u "什么时候"].

Definition en_question_starts : list str :=
  [u "can"; u "could"; u "would"; u "should"; u "do"; u "does"; u "did";
   u "is"; u "are"; u "am"; u "was"; u "were"; u "what"; u "why"; u "how";
   u "when"; u "where"; u "which"; u "who"].

Definition _looks_like_question (text : str) : bool :=
  let t := strip text in
  if negb (nonempty t) then false
  else
    let t := strip (re_trailing_punct_sub t) in
    if negb (nonempty t) then false
    else
      let lower := lower t in
      (* (吗|么)\s*$ *)
      if match lstrip_by is_space (rev t) with
         | c :: _ => mem c (u "吗么")
         | [] => false
         end
      then true
      else if contains_any cn_question_infixes t then true
      else if existsb (startswith t) cn_question_starts then true
      else if match_keyword_b en_question_starts lower then true
      else false.

(** [_RE_CN_COMMA]: [[，,]] *)
Definition is_comma (c : char) : bool := mem c [0xff0c; 44]%N.

Definition cn_connectors : list str :=
  [u "但是"; u "不过"; u "然后"; u "所以"; u "因此"; u "而且"; u "并且";
   u "同时"; u "另外"; u "因为"; u "如果"; u "虽然"; u "接着"; u "随后"].

Definition _maybe_insert_cn_comma (text : str) : str :=
  if negb (nonempty text) then text
  else if negb (has_cjk text) then text
  else if existsb is_comma text then text
  else if (length text <? 14)%nat then text
  else
    match search_any cn_connectors text with
    | None => text
    | Some idx =>
        if (idx <=? 1)%nat then text
        else take idx text ++ u "，" ++ drop idx text
    end.

Definition _apply_tone_punctuation (text : str) : str :=
  let t := strip text in
  if negb (nonempty t) then t
  else
    let has_cjk := has_cjk t in
    let base := strip (re_trailing_punct_sub t) in
    if negb (nonempty base) then t
    else
      let base := _maybe_insert_cn_comma base in
      if _looks_like_question base then
        base ++ (if has_cjk then u "？" else u "?")
      else if re_end_punct_search t then
        if has_cjk && endswith t (u ".") then base ++ u "。"
        else t
      else base ++ (if has_cjk then u "。" else u ".").

(** The normalizer of finalized text: spacing, then tone and punctuation
    (lines 707 and 713, 777 and 780 of [Service.handle]). *)
Definition normalize_final (text : str) : str :=
  _apply_tone_punctuation (_normalize_mixed_spacing text).

(* ===================================================================== *)
(** ** Command interpreter *)
(* ===================================================================== *)

(** The action dictionaries [{"type": ..., ...}]. *)
Inductive Action :=
| insert (text : str)
| delete_backward (count : Z)
| delete_backward_word (count : Z)
| delete_backward_sentence (count : Z)
| system_undo
| system_redo
| clear
| set_composition (text : str).

(** The argument of the second [strip] of [_clean_command_text]. *)
Definition command_strip_chars : str :=
  [CR; LF; TAB; SPACE] ++ u ",.!?;:，。！？；：".

Definition _clean_command_text (text : str) : str :=
  strip_by (fun c => mem c command_strip_chars) (strip text).

(** The class [[\s,\.\!\?;:，。！？；：]]. *)
Definition is_key_noise (c : char) : bool :=
  is_space c
  || mem c [44; 46; 33; 63; 59; 58; 0xff0c; 0x3002; 0xff01; 0xff1f; 0xff1b;
            0xff1a]%N.

Definition _command_key (text : str) : str :=
  let t := lower (_clean_command_text text) in
  let t := filter (fun c => negb (is_key_noise c)) t in
  t.

Definition _SUPPRESSED_KEYS : list str :=
  [_command_key (u "请优先使用简体中文标点与表达，保留英文单词");
   _command_key (u "请使用简体中文标点与表达，保留英文单词");
   _command_key (u "请优先使用简体中文标点与表达，保留英文单词/缩写原样")].

Definition _is_suppressed_phrase (text : str) : bool :=
  str_in (_command_key text) _SUPPRESSED_KEYS.

(** [punct_map]: an association list in the order of the dictionary. *)
Definition punct_map : list (str * str) :=
  [(u "逗号", u "，"); (u "句号", u "。"); (u "问号", u "？");
   (u "感叹号", u "！"); (u "冒号", u "："); (u "分号", u "；");
   (u "comma", u ","); (u "period", u "."); (u "question mark", u "?");
   (u "exclamation mark", u "!"); (u "colon", u ":"); (u "semicolon", u ";")].

Fixpoint dict_get (d : list (str * str)) (k : str) : option str :=
  match d with
  | [] => None
  | (k', v) :: d' => if str_eqb k k' then Some v else dict_get d' k
  end.

(** [None] is "not a command"; [Some []] is a recognized phrase that
    produces nothing. *)
Definition _command_actions (text : str) : option (list Action) :=
  let t := lower (_clean_command_text text) in
  if negb (nonempty t) then None
  else if _is_suppressed_phrase t then Some []
  else if str_in t [u "换行"; u "回车"; u "下一行"; u "new line"; u "newline";
                    u "enter"]
  then Some [insert [LF]]
  else if str_in t [u "空格"; u "space"] then Some [insert [SPACE]]
  else if str_in t [u "删除"; u "退格"; u "backspace"; u "delete"]
  then Some [delete_backward 1]
  else if str_in t [u "删除一个词"; u "删除上一个词"; u "delete word";
                    u "delete last word"]
  then Some [delete_backward_word 1]
  else if str_in t [u "删除一句"; u "删除上一句"; u "delete sentence";
                    u "delete last sentence"]
  then Some [delete_backward_sentence 1]
  else if str_in t [u "撤销"; u "undo"] then Some [system_undo]
  else if str_in t [u "重做"; u "redo"] then Some [system_redo]
  else if str_in t [u "清空"; u "清除"; u "clear"] then Some [clear]
  else
    match dict_get punct_map t with
    | Some p => Some [insert p]
    | None => None
    end.

Definition _compose_actions (partial : bool) (text : str)
    (actions : list Action) : list Action :=
  if partial then [set_composition text] else actions.

(* ===================================================================== *)
(** ** Exceptions and floating-point conversions *)
(* ===================================================================== *)

(** The result of code that may raise: [Raised msg] carries [str(e)]. *)
Inductive outcome (A : Type) :=
| Returned (a : A)
| Raised (msg : str).
Arguments Returned {A} a.
Arguments Raised {A} msg.

Definition bind {A B : Type} (x : outcome A) (f : A -> outcome B) : outcome B :=
  match x with
  | Returned a => f a
  | Raised msg => Raised msg
  end.

(** Python floats are IEEE binary64 numbers. *)
Definition prec : Z := 53.
Definition emax : Z := 1024.

(** [float(z)] for an integer: correctly rounded, [OverflowError] when the
    integer is too large. *)
Definition float_of_int (z : Z) : outcome spec_float :=
  match binary_normalize prec emax z 0 false with
  | S754_infinity _ => Raised (u "int too large to convert to float")
  | f => Returned f
  end.

(** [int(f)] for a float: truncation toward zero. *)
Definition int_of_float (f : spec_float) : outcome Z :=
  match f with
  | S754_zero _ => Returned 0
  | S754_finite s m e =>
      let a := if 0 <=? e then Z.shiftl (Zpos m) e else Z.shiftr (Zpos m) (- e) in
      Returned (if s then - a else a)
  | S754_infinity _ => Raised (u "cannot convert float infinity to integer")
  | S754_nan => Raised (u "cannot convert float NaN to integer")
  end.

(** [int(rate * (ms / 1000.0))]: the expression of [frame_len] in
    [push_audio] and of [interval_samples] in [Service.handle]. *)
Definition ms_to_samples (rate ms : Z) : outcome Z :=
  bind (float_of_int ms) (fun fms =>
  bind (float_of_int 1000) (fun f1000 =>
  let q := SFdiv prec emax fms f1000 in
  bind (float_of_int rate) (fun frate =>
  int_of_float (SFmul prec emax frate q)))).

(** [_boundary_prefix]: the loop [while i >= 0] with [k = i + 1]. *)
Definition boundary_chars : str :=
  [SPACE; TAB; LF; CR] ++ u ",.!?;:，。！？；：".

Fixpoint boundary_scan (text : str) (k : nat) : str :=
  match k with
  | O => []
  | S i =>
      match text !! i with
      | Some ch =>
          if mem ch boundary_chars then take (i + 1) text
          else boundary_scan text i
      | None => boundary_scan text i
      end
  end.

Definition _boundary_prefix (text : str) : str :=
  if negb (nonempty text) then []
  else boundary_scan text (length text).

(* ===================================================================== *)
(** ** Sessions, the endpoint detector and the request handler *)
(* ===================================================================== *)

Inductive Kind := kind_none | kind_partial | kind_final.

Section Service.

(** An audio sample (a [float32] of the buffer). *)
Context {sample : Type}.

(** [EnergyVAD.is_speech] on one frame: a floating-point RMS computed by
    numpy and compared with the threshold; taken as given. *)
Variable is_speech : list sample -> bool.

(** [WhisperEngine.transcribe(audio, sample_rate_hz, language, prompt)]: the
    external recognizer, which returns the stripped text or raises. *)
Variable transcribe :
  list sample -> Z -> option str -> option str -> outcome str.

(** The dataclass [StreamSession].  [created_at] (a clock reading) is left
    out; [vad] is [is_speech], built with the session's [frame_ms]. *)
Record StreamSession := mkStreamSession {
  sample_rate_hz : Z;
  language : option str;
  prompt : option str;
  buffer_f32 : list sample;
  speech_frames : Z;
  silence_frames : Z;
  last_emitted_text : str;
  segments_text : str;
  partial_interval_ms : Z;
  max_partial_context_s : Z;
  min_partial_speech_ms : Z;
  last_partial_samples : Z;
  committed_prefix : str;
  last_prefix_candidate : str;
  prefix_streak : Z;
  frame_ms : Z;
  end_silence_ms : Z
}.

(** Assignments [self.field = v], one setter per field that is assigned
    after construction. *)
Definition set_buffer_f32 (v : list sample) (s : StreamSession) : StreamSession :=
  {| sample_rate_hz := sample_rate_hz s;
     language := language s;
     prompt := prompt s;
     buffer_f32 := v;
     speech_frames := speech_frames s;
     silence_frames := silence_frames s;
     last_emitted_text := last_emitted_text s;
     segments_text := segments_text s;
     partial_interval_ms := partial_interval_ms s;
     max_partial_context_s := max_partial_context_s s;
     min_partial_speech_ms := min_partial_speech_ms s;
     last_partial_samples := last_partial_samples s;
     committed_prefix := committed_prefix s;
     last_prefix_candidate := last_prefix_candidate s;
     prefix_streak := prefix_streak s;
     frame_ms := frame_ms s;
     end_silence_ms := end_silence_ms s |}.

Definition set_speech_frames (v : Z) (s : StreamSession) : StreamSession :=
  {| sample_rate_hz := sample_rate_hz s;
     language := language s;
     prompt := prompt s;
     buffer_f32 := buffer_f32 s;
     speech_frames := v;
     silence_frames := silence_frames s;
     last_emitted_text := last_emitted_text s;
     segments_text := segments_text s;
     partial_interval_ms := partial_interval_ms s;
     max_partial_context_s := max_partial_context_s s;
     min_partial_speech_ms := min_partial_speech_ms s;
     last_partial_samples := last_partial_samples s;
     committed_prefix := committed_prefix s;
     last_prefix_candidate := last_prefix_candidate s;
     prefix_streak := prefix_streak s;
     frame_ms := frame_ms s;
     end_silence_ms := end_silence_ms s |}.

Definition set_silence_frames (v : Z) (s : StreamSession) : StreamSession :=
  {| sample_rate_hz := sample_rate_hz s;
     language := language s;
     prompt := prompt s;
     buffer_f32 := buffer_f32 s;
     speech_frames := speech_frames s;
     silence_frames := v;
     last_emitted_text := last_emitted_text s;
     segments_text := segments_text s;
     partial_interval_ms := partial_interval_ms s;
     max_partial_context_s := max_partial_context_s s;
     min_partial_speech_ms := min_partial_speech_ms s;
     last_partial_samples := last_partial_samples s;
     committed_prefix := committed_prefix s;
     last_prefix_candidate := last_prefix_candidate s;
     prefix_streak := prefix_streak s;
     frame_ms := frame_ms s;
     end_silence_ms := end_silence_ms s |}.

Definition set_last_emitted_text (v : str) (s : StreamSession) : StreamSession :=
  {| sample_rate_hz := sample_rate_hz s;
     language := language s;
     prompt := prompt s;
     buffer_f32 := buffer_f32 s;
     speech_frames := speech_frames s;
     silence_frames := silence_frames s;
     last_emitted_text := v;
     segments_text := segments_text s;
     partial_interval_ms := partial_interval_ms s;
     max_partial_context_s := max_partial_context_s s;
     min_partial_speech_ms := min_partial_speech_ms s;
     last_partial_samples := last_partial_samples s;
     committed_prefix := committed_prefix s;
     last_prefix_candidate := last_prefix_candidate s;
     prefix_streak := prefix_streak s;
     frame_ms := frame_ms s;
     end_silence_ms := end_silence_ms s |}.

Definition set_segments_text (v : str) (s : StreamSession) : StreamSession :=
  {| sample_rate_hz := sample_rate_hz s;
     language := language s;
     prompt := prompt s;
     buffer_f32 := buffer_f32 s;
     speech_frames := speech_frames s;
     silence_frames := silence_frames s;
     last_emitted_text := last_emitted_text s;
     segments_text := v;
     partial_interval_ms := partial_interval_ms s;
     max_partial_context_s := max_partial_context_s s;
     min_partial_speech_ms := min_partial_speech_ms s;
     last_partial_samples := last_partial_samples s;
     committed_prefix := committed_prefix s;
     last_prefix_candidate := last_prefix_candidate s;
     prefix_streak := prefix_streak s;
     frame_ms := frame_ms s;
     end_silence_ms := end_silence_ms s |}.

Definition set_last_partial_samples (v : Z) (s : StreamSession) : StreamSession :=
  {| sample_rate_hz := sample_rate_hz s;
     language := language s;
     prompt := prompt s;
     buffer_f32 := buffer_f32 s;
     speech_frames := speech_frames s;
     silence_frames := silence_frames s;
     last_emitted_text := last_emitted_text s;
     segments_text := segments_text s;
     partial_interval_ms := partial_interval_ms s;
     max_partial_context_s := max_partial_context_s s;
     min_partial_speech_ms := min_partial_speech_ms s;
     last_partial_samples := v;
     committed_prefix := committed_prefix s;
     last_prefix_candidate := last_prefix_candidate s;
     prefix_streak := prefix_streak s;
     frame_ms := frame_ms s;
     end_silence_ms := end_silence_ms s |}.

Definition set_committed_prefix (v : str) (s : StreamSession) : StreamSession :=
  {| sample_rate_hz := sample_rate_hz s;
     language := language s;
     prompt := prompt s;
     buffer_f32 := buffer_f32 s;
     speech_frames := speech_frames s;
     silence_frames := silence_frames s;
     last_emitted_text := last_emitted_text s;
     segments_text := segments_text s;
     partial_interval_ms := partial_interval_ms s;
     max_partial_context_s := max_partial_context_s s;
     min_partial_speech_ms := min_partial_speech_ms s;
     last_partial_samples := last_partial_samples s;
     committed_prefix := v;
     last_prefix_candidate := last_prefix_candidate s;
     prefix_streak := prefix_streak s;
     frame_ms := frame_ms s;
     end_silence_ms := end_silence_ms s |}.

Definition set_last_prefix_candidate (v : str) (s : StreamSession) : StreamSession :=
  {| sample_rate_hz := sample_rate_hz s;
     language := language s;
     prompt := prompt s;
     buffer_f32 := buffer_f32 s;
     speech_frames := speech_frames s;
     silence_frames := silence_frames s;
     last_emitted_text := last_emitted_text s;
     segments_text := segments_text s;
     partial_interval_ms := partial_interval_ms s;
     max_partial_context_s := max_partial_context_s s;
     min_partial_speech_ms := min_partial_speech_ms s;
     last_partial_samples := last_partial_samples s;
     committed_prefix := committed_prefix s;
     last_prefix_candidate := v;
     prefix_streak := prefix_streak s;
     frame_ms := frame_ms s;
     end_silence_ms := end_silence_ms s |}.

Definition set_prefix_streak (v : Z) (s : StreamSession) : StreamSession :=
  {| sample_rate_hz := sample_rate_hz s;
     language := language s;
     prompt := prompt s;
     buffer_f32 := buffer_f32 s;
     speech_frames := speech_frames s;
     silence_frames := silence_frames s;
     last_emitted_text := last_emitted_text s;
     segments_text := segments_text s;
     partial_interval_ms := partial_interval_ms s;
     max_partial_context_s := max_partial_context_s s;
     min_partial_speech_ms := min_partial_speech_ms s;
     last_partial_samples := last_partial_samples s;
     committed_prefix := committed_prefix s;
     last_prefix_candidate := last_prefix_candidate s;
     prefix_streak := v;
     frame_ms := frame_ms s;
     end_silence_ms := end_silence_ms s |}.

(** [StreamSession(sample_rate_hz=..., ...)] as [stream_start] builds it:
    every other field has the default of the dataclass. *)
Definition new_session (sample_rate_hz : Z) (language prompt : option str)
    (partial_interval_ms max_partial_context_s min_partial_speech_ms
       end_silence_ms : Z) : StreamSession :=
  {| sample_rate_hz := sample_rate_hz;
     language := language;
     prompt := prompt;
     buffer_f32 := [];
     speech_frames := 0;
     silence_frames := 0;
     last_emitted_text := [];
     segments_text := [];
     partial_interval_ms := partial_interval_ms;
     max_partial_context_s := max_partial_context_s;
     min_partial_speech_ms := min_partial_speech_ms;
     last_partial_samples := 0;
     committed_prefix := [];
     last_prefix_candidate := [];
     prefix_streak := 0;
     frame_ms := 30;
     end_silence_ms := end_silence_ms |}.

Definition reset_current_utterance (s : StreamSession) : StreamSession :=
  let s := set_buffer_f32 [] s in
  let s := set_speech_frames 0 s in
  let s := set_silence_frames 0 s in
  let s := set_last_emitted_text [] s in
  let s := set_last_partial_samples 0 s in
  let s := set_committed_prefix [] s in
  let s := set_last_prefix_candidate [] s in
  let s := set_prefix_streak 0 s in
  s.

(** The body of the loop of [push_audio] on one frame.  The second
    component tells whether [endpoint = True] was executed on this frame. *)
Definition frame_step (s : StreamSession) (frame : list sample)
    : StreamSession * bool :=
  if is_speech frame then
    let s := set_speech_frames (speech_frames s + 1) s in
    let s := set_silence_frames 0 s in
    (s, false)
  else
    let s := set_silence_frames (silence_frames s + 1) s in
    if (0 <? speech_frames s)
       && (end_silence_ms s <=? silence_frames s * frame_ms s)
    then (s, true)
    else (s, false).

(** [for i in range(n_frames): ...] with the local [endpoint]. *)
Fixpoint vad_loop (s : StreamSession) (endpoint : bool)
    (frames : list (list sample)) : StreamSession * bool :=
  match frames with
  | [] => (s, endpoint)
  | frame :: rest =>
      let '(s, hit) := frame_step s frame in
      vad_loop s (if hit then true else endpoint) rest
  end.

(** [audio_f32[start:].reshape((n_frames, frame_len))] *)
Definition frames_of (audio_f32 : list sample) (frame_len : Z)
    : list (list sample) :=
  let size := Z.of_nat (length audio_f32) in
  let n_frames := size / frame_len in
  let start := size - n_frames * frame_len in
  reshape (replicate (Z.to_nat n_frames) (Z.to_nat frame_len))
          (drop (Z.to_nat start) audio_f32).

(** [StreamSession.push_audio]: the session after the call and what the
    call returns, [(endpoint, speech_frames, silence_frames)], or raises. *)
Definition push_audio (s : StreamSession) (audio_f32 : list sample)
    : StreamSession * outcome (bool * Z * Z) :=
  if (length audio_f32 =? 0)%nat then
    (s, Returned (false, speech_frames s, silence_frames s))
  else
    let s := set_buffer_f32 (buffer_f32 s ++ audio_f32) s in
    match ms_to_samples (sample_rate_hz s) (frame_ms s) with
    | Raised msg => (s, Raised msg)
    | Returned frame_len =>
        if frame_len <=? 0 then
          (s, Returned (false, speech_frames s, silence_frames s))
        else
          let n_frames := Z.of_nat (length audio_f32) / frame_len in
          if n_frames <=? 0 then
            (s, Returned (false, speech_frames s, silence_frames s))
          else
            let '(s, endpoint) := vad_loop s false (frames_of audio_f32 frame_len) in
            (s, Returned (endpoint, speech_frames s, silence_frames s))
    end.

(** The local variables of the [stream_push] branch that end up in the
    response. *)
Record Emit := mkEmit {
  emitted_text : str;
  emitted_kind : Kind;
  committed_text : str;
  stable_prefix : str;
  unstable_suffix : str;
  delta : Delta;
  actions : list Action
}.

(** Their initial values (lines 617-626). *)
Definition emit_none : Emit :=
  {| emitted_text := [];
     emitted_kind := kind_none;
     committed_text := [];
     stable_prefix := [];
     unstable_suffix := [];
     delta := mkDelta 0 0 [];
     actions := [] |}.

(** Lines 671-699: stabilization and emission for a non-empty partial
    hypothesis [text]. *)
Definition partial_update (s : StreamSession) (text : str)
    : StreamSession * Emit :=
  let candidate := _boundary_prefix text in
  let s :=
    if nonempty candidate && str_eqb candidate (last_prefix_candidate s)
    then set_prefix_streak (prefix_streak s + 1) s
    else
      let s := set_last_prefix_candidate candidate s in
      set_prefix_streak (if nonempty candidate then 1 else 0) s in
  let s :=
    if nonempty candidate && (2 <=? prefix_streak s)
    then
      if (length (committed_prefix s) <? length candidate)%nat
         && startswith candidate (committed_prefix s)
      then set_committed_prefix candidate s
      else s
    else s in
  let stable_prefix := committed_prefix s in
  let unstable_suffix := drop (length stable_prefix) text in
  let full_text := stable_prefix ++ unstable_suffix in
  let prev := last_emitted_text s in
  let d := diff prev full_text in
  if negb (str_eqb full_text prev) then
    (set_last_emitted_text full_text s,
     {| emitted_text := full_text;
        emitted_kind := kind_partial;
        committed_text := [];
        stable_prefix := stable_prefix;
        unstable_suffix := unstable_suffix;
        delta := d;
        actions := [] |})
  else
    (s,
     {| emitted_text := [];
        emitted_kind := kind_none;
        committed_text := [];
        stable_prefix := stable_prefix;
        unstable_suffix := unstable_suffix;
        delta := d;
        actions := [] |}).

(** Lines 707-714 and 777-781: what a finalized transcript becomes.  The
    result is the text, the actions, and [is_command]. *)
Definition finalize_text (text : str) : str * list Action * bool :=
  let text := _normalize_mixed_spacing text in
  match _command_actions text with
  | Some actions => (text, actions, true)
  | None =>
      let text := _apply_tone_punctuation text in
      (text, if nonempty text then [insert text] else [], false)
  end.

(** Lines 707-728: the endpoint branch once the engine has returned. *)
Definition final_update (s : StreamSession) (text : str)
    : StreamSession * Emit :=
  let '(text, actions, is_command) := finalize_text text in
  let prev := last_emitted_text s in
  let d := diff prev text in
  let s := if nonempty text then set_segments_text text s else s in
  let s := reset_current_utterance s in
  (s,
   {| emitted_text := text;
      emitted_kind := kind_final;
      committed_text := if is_command then [] else text;
      stable_prefix := [];
      unstable_suffix := [];
      delta := d;
      actions := actions |}).

(** One call of the engine, as the handler makes it. *)
Record EngineCall := mkEngineCall {
  call_audio : list sample;
  call_sample_rate_hz : Z;
  call_language : option str;
  call_prompt : option str
}.

Definition engine_call (s : StreamSession) (audio : list sample) : EngineCall :=
  mkEngineCall audio (sample_rate_hz s) (language s) (prompt s).

Definition run_engine (c : EngineCall) : outcome str :=
  transcribe (call_audio c) (call_sample_rate_hz c) (call_language c)
             (call_prompt c).

(** The [result] dictionary of [stream_push].  Numbers and booleans are
    sent as strings; [push_final] is the entry [final]. *)
Record PushResult := mkPushResult {
  push_session_id : str;
  push_endpoint : bool;
  push_speech_frames : Z;
  push_silence_frames : Z;
  push_text : str;
  push_final : bool;
  push_kind : Kind;
  push_committed_text : str;
  push_actions : list Action;
  push_stable_prefix : str;
  push_unstable_suffix : str;
  push_delta : Delta
}.

(** The [result] dictionary of [stream_finalize]. *)
Record FinalizeResult := mkFinalizeResult {
  fin_session_id : str;
  fin_text : str;
  fin_actions : list Action
}.

(** A response, without its [id]: [_ok(req_id, result)] or [_err(req_id,
    message)]. *)
Inductive Response :=
| ok_push (r : PushResult)
| ok_finalize (r : FinalizeResult)
| err (message : str).

(** The parameter [audio_b64] of [stream_push] after
    [_decode_pcm_s16le_b64] and [_pcm16_bytes_to_float32_mono]: absent or
    empty, rejected by the decoder (which raises), or decoded samples. *)
Inductive AudioParam :=
| audio_missing
| audio_invalid (msg : str)
| audio_pcm (samples : list sample).

(** The service after a request: the session registry, the response, and
    the calls made to the engine while handling it, in order. *)
Record Handled := mkHandled {
  sessions_after : gmap (list N) StreamSession;
  response : Response;
  engine_calls : list EngineCall
}.

(** The response of line 736 from the locals. *)
Definition push_response (session_id : str) (endpoint : bool)
    (speech_frames silence_frames : Z) (e : Emit) : Response :=
  let actions :=
    match emitted_kind e with
    | kind_partial => _compose_actions true (emitted_text e) (actions e)
    | kind_final => _compose_actions false (emitted_text e) (actions e)
    | kind_none => actions e
    end in
  ok_push
    {| push_session_id := session_id;
       push_endpoint := endpoint;
       push_speech_frames := speech_frames;
       push_silence_frames := silence_frames;
       push_text := emitted_text e;
       push_final := match emitted_kind e with kind_final => true | _ => false end;
       push_kind := emitted_kind e;
       push_committed_text := committed_text e;
       push_actions := actions;
       push_stable_prefix := stable_prefix e;
       push_unstable_suffix := unstable_suffix e;
       push_delta := delta e |}.

(** [stream_push] on a known session [s] with decoded audio (from line
    615): the session afterwards, the response, the engine calls. *)
Definition session_push (session_id : str) (s : StreamSession)
    (audio_f32 : list sample) : StreamSession * Response * list EngineCall :=
  match push_audio s audio_f32 with
  | (s, Raised msg) => (s, err msg, [])
  | (s, Returned (endpoint, speech_frames, silence_frames)) =>
      let size := Z.of_nat (length (buffer_f32 s)) in
      if negb endpoint && (0 <? speech_frames) then
        (* Partial: transcribe periodically while speech is ongoing. *)
        if speech_frames * frame_ms s <? min_partial_speech_ms s then
          (set_last_partial_samples size s,
           push_response session_id false speech_frames silence_frames emit_none,
           [])
        else
          match ms_to_samples (sample_rate_hz s) (partial_interval_ms s) with
          | Raised msg => (s, err msg, [])
          | Returned interval_samples =>
              if (0 <? interval_samples)
                 && (interval_samples <=? size - last_partial_samples s)
              then
                let start := Z.max 0 (size - max_partial_context_s s * sample_rate_hz s) in
                let window := drop (Z.to_nat start) (buffer_f32 s) in
                let call := engine_call s window in
                match run_engine call with
                | Raised msg => (s, err msg, [call])
                | Returned text =>
                    let '(s, e) :=
                      if nonempty text then partial_update s text
                      else (s, emit_none) in
                    let s := set_last_partial_samples size s in
                    (s,
                     push_response session_id endpoint speech_frames silence_frames e,
                     [call])
                end
              else
                (s,
                 push_response session_id endpoint speech_frames silence_frames emit_none,
                 [])
          end
      else if endpoint then
        (* Final: on endpoint, transcribe full utterance and reset. *)
        let call := engine_call s (buffer_f32 s) in
        match run_engine call with
        | Raised msg => (s, err msg, [call])
        | Returned text =>
            let '(s, e) := final_update s text in
            (s,
             push_response session_id endpoint speech_frames silence_frames e,
             [call])
        end
      else
        (s,
         push_response session_id endpoint speech_frames silence_frames emit_none,
         [])
  end.

(** [Service.handle] for [method == "stream_push"].  The dictionary holds
    the session object itself, so what [session_push] did to it is visible
    in the registry whatever the response. *)
Definition handle_stream_push (sessions : gmap (list N) StreamSession)
    (session_id : option str) (format : str) (audio : AudioParam) : Handled :=
  match session_id with
  | None => mkHandled sessions (err (u "Unknown session_id")) []
  | Some sid =>
      match (if nonempty sid then sessions !! sid else None) with
      | None => mkHandled sessions (err (u "Unknown session_id")) []
      | Some s =>
          if negb (str_eqb format (u "pcm_s16le_b64")) then
            mkHandled sessions
              (err (u "Unsupported format (expected pcm_s16le_b64)")) []
          else
            match audio with
            | audio_missing => mkHandled sessions (err (u "Missing audio_b64")) []
            | audio_invalid msg => mkHandled sessions (err msg) []
            | audio_pcm audio_f32 =>
                let '(s, resp, calls) := session_push sid s audio_f32 in
                mkHandled (<[sid := s]> sessions) resp calls
            end
      end
  end.

(** [Service.handle] for [method == "stream_finalize"]. *)
Definition handle_stream_finalize (sessions : gmap (list N) StreamSession)
    (session_id : option str) : Handled :=
  match session_id with
  | None => mkHandled sessions (err (u "Unknown session_id")) []
  | Some sid =>
      match (if nonempty sid then sessions !! sid else None) with
      | None => mkHandled sessions (err (u "Unknown session_id")) []
      | Some s =>
          (* sess = self.sessions.pop(session_id) *)
          let sessions := delete sid sessions in
          let finish (text : str) : Response :=
            let '(text, actions, _) := finalize_text text in
            ok_finalize
              {| fin_session_id := sid; fin_text := text; fin_actions := actions |} in
          if (0 <? length (buffer_f32 s))%nat then
            let call := engine_call s (buffer_f32 s) in
            match run_engine call with
            | Raised msg => mkHandled sessions (err msg) [call]
            | Returned text => mkHandled sessions (finish text) [call]
            end
          else if nonempty (segments_text s) then
            mkHandled sessions (finish (segments_text s)) []
          else mkHandled sessions (finish []) []
      end
  end.

(** The two streaming requests; [params] is read as [handle] reads it. *)
Inductive Request :=
| stream_push (session_id : option str) (format : str) (audio : AudioParam)
| stream_finalize (session_id : option str).

Definition handle (sessions : gmap (list N) StreamSession) (req : Request)
    : Handled :=
  match req with
  | stream_push session_id format audio =>
      handle_stream_push sessions session_id format audio
  | stream_finalize session_id => handle_stream_finalize sessions session_id
  end.

End Service.

(* ===================================================================== *)
(** ** Notions of the specification *)
(* ===================================================================== *)

(** The ceiling of [s / f] for a positive [f]. *)
Definition ceil_div (s f : Z) : Z := - ((- s) / f).

(** Per-frame flags ([true] is speech) since the start of an utterance: the
    number of speech frames, and the trailing silence, that is the number of
    consecutive silent frames at the end. *)
Fixpoint speech_count (flags : list bool) : Z :=
  match flags with
  | [] => 0
  | b :: rest => (if b then 1 else 0) + speech_count rest
  end.

Fixpoint silent_run (flags : list bool) : Z :=
  match flags with
  | false :: rest => 1 + silent_run rest
  | _ => 0
  end.

Definition trailing_silence (flags : list bool) : Z := silent_run (rev flags).

(** Python's [round(n / d)] for integers [n] and [d > 0], computed exactly:
    to the nearest integer, ties to the even one. *)
Definition py_round (n d : Z) : Z :=
  let q := n / d in
  let r := n mod d in
  if 2 * r <? d then q
  else if d <? 2 * r then q + 1
  else if Z.even q then q else q + 1.

(** No character satisfying [p] is immediately followed by one satisfying
    [q]. *)
Fixpoint pair_free (p q : char -> bool) (s : str) : bool :=
  match s with
  | [] => true
  | a :: tl =>
      match tl with
      | [] => true
      | b :: _ => negb (p a && q b) && pair_free p q tl
      end
  end.

(** No CJK character touches an ASCII letter or digit: nothing is left for
    [_normalize_mixed_spacing] to separate. *)
Definition adj_free (s : str) : bool :=
  pair_free is_cjk is_ascii_alnum s && pair_free is_ascii_alnum is_cjk s.

(** The first character of [s], if any, does not satisfy [p]. *)
Definition head_ok (p : char -> bool) (s : str) : Prop :=
  match s with c :: _ => p c = false | [] => True end.

(** Neither end of [s] satisfies [p]: [s.strip] with that set of characters
    has nothing to remove. *)
Definition stripped (p : char -> bool) (s : str) : Prop :=
  head_ok p s /\ head_ok p (rev s).

(** Disjointness of two character classes, from their ranges. *)
Ltac class_facts H :=
  unfold is_space, is_cjk, is_ascii_alnum, is_end_punct, is_comma, mem in *;
  cbn [existsb] in *;
  apply not_true_is_false; intros Hc;
  repeat match goal with
         | H' : _ || _ = true |- _ => apply orb_true_iff in H' as [H'|H']
         | H' : _ && _ = true |- _ => apply andb_true_iff in H' as [? ?]
         | H' : (_ <=? _)%N = true |- _ => apply N.leb_le in H'
         | H' : (_ =? _)%N = true |- _ => apply N.eqb_eq in H'
         | H' : false = true |- _ => discriminate H'
         end;
  lia.


(** The last character is sentence-ending punctuation. *)
Definition ends_with_end_punct (s : str) : bool :=
  match rev s with
  | c :: _ => is_end_punct c
  | [] => false
  end.

(** The [base] of [_apply_tone_punctuation] before the comma pass: the
    stripped text without its trailing punctuation run, stripped again. *)
Definition tone_base (text : str) : str :=
  strip (re_trailing_punct_sub (strip text)).

(** The terminal punctuation that [_apply_tone_punctuation] appends. *)
Definition terminal_for (question cjk : bool) : char :=
  if question then (if cjk then 0xff1f else 63)%N
  else (if cjk then 0x3002 else 46)%N.

Section Runs.

Context {sample : Type}.
Variable is_speech : list sample -> bool.
Variable transcribe :
  list sample -> Z -> option str -> option str -> outcome str.

(** Two sessions that differ at most in the two frame counters. *)
Definition same_but_counters (s s' : @StreamSession sample) : Prop :=
  sample_rate_hz s' = sample_rate_hz s /\ language s' = language s
  /\ prompt s' = prompt s /\ buffer_f32 s' = buffer_f32 s
  /\ last_emitted_text s' = last_emitted_text s
  /\ segments_text s' = segments_text s
  /\ partial_interval_ms s' = partial_interval_ms s
  /\ max_partial_context_s s' = max_partial_context_s s
  /\ min_partial_speech_ms s' = min_partial_speech_ms s
  /\ last_partial_samples s' = last_partial_samples s
  /\ committed_prefix s' = committed_prefix s
  /\ last_prefix_candidate s' = last_prefix_candidate s
  /\ prefix_streak s' = prefix_streak s
  /\ frame_ms s' = frame_ms s /\ end_silence_ms s' = end_silence_ms s.

(** A response that ends the utterance: [kind = "final"]. *)
Definition is_final_response (r : Response) : bool :=
  match r with
  | ok_push p => match push_kind p with kind_final => true | _ => false end
  | _ => false
  end.

(** Successive [stream_push] requests on one session: the session at the
    end and the responses in order. *)
Fixpoint push_all (session_id : str) (s : StreamSession)
    (chunks : list (list sample)) : StreamSession * list Response :=
  match chunks with
  | [] => (s, [])
  | audio_f32 :: rest =>
      let '(s, r, _) := session_push is_speech transcribe session_id s audio_f32 in
      let '(s, rs) := push_all session_id s rest in
      (s, r :: rs)
  end.

End Runs.

(** The exact-match phrases of [_command_actions] as a table: the groups of
    phrases in the order they are tested, each with its single action. *)
Definition command_table : list (list str * Action) :=
  [([u "换行"; u "回车"; u "下一行"; u "new line"; u "newline"; u "enter"],
    insert [LF]);
   ([u "空格"; u "space"], insert [SPACE]);
   ([u "删除"; u "退格"; u "backspace"; u "delete"], delete_backward 1);
   ([u "删除一个词"; u "删除上一个词"; u "delete word"; u "delete last word"],
    delete_backward_word 1);
   ([u "删除一句"; u "删除上一句"; u "delete sentence"; u "delete last sentence"],
    delete_backward_sentence 1);
   ([u "撤销"; u "undo"], system_undo);
   ([u "重做"; u "redo"], system_redo);
   ([u "清空"; u "清除"; u "clear"], clear)].

Fixpoint table_lookup (table : list (list str * Action)) (t : str)
    : option (list Action) :=
  match table with
  | [] => None
  | (phrases, a) :: rest =>
      if str_in t phrases then Some [a] else table_lookup rest t
  end.

(** The lookup of a text in the command table and the punctuation names. *)
Definition lookup_command (t : str) : option (list Action) :=
  match table_lookup command_table t with
  | Some acts => Some acts
  | None =>
      match dict_get punct_map t with
      | Some p => Some [insert p]
      | None => None
      end
  end.

(* ===================================================================== *)
(** ** Stand-ins used in examples *)
(* ===================================================================== *)

(** Samples given by their 16-bit value [v] (the buffer holds
    [v / 32768.0]) and a detector that calls a frame speech when one of its
    samples is louder than the threshold amplitude. *)
Definition loud (frame : list Z) : bool :=
  existsb (fun v => 393 <? Z.abs v) frame.

(** An engine that always returns [text], and one that always raises. *)
Definition engine_const (text : str)
    : list Z -> Z -> option str -> option str -> outcome str :=
  fun _ _ _ _ => Returned text.

Definition engine_down
    : list Z -> Z -> option str -> option str -> outcome str :=
  fun _ _ _ _ => Raised (u "Model is not loaded. Call stream_start first.").

(** The session [stream_start] creates from its defaults. *)
Definition default_session : @StreamSession Z :=
  new_session 16000 (Some (u "zh")) None 500 20 300 450.

(* ===================================================================== *)
(** ** Request parameters *)
(* ===================================================================== *)

(** A value of the JSON request as the handler looks at it: [None], a
    [bool], a number, a [str], or anything else (a list or an object).  For
    a number [nonzero] is [bool(v)], for a container [truthy] is [bool(v)];
    [text] is [str(v)]. *)
Inductive JVal :=
| JNull
| JBool (b : bool)
| JNum (nonzero : bool) (text : str)
| JStr (s : str)
| JOther (truthy : bool) (text : str).

(** [bool(v)] *)
Definition py_truthy (v : JVal) : bool :=
  match v with
  | JNull => false
  | JBool b => b
  | JNum nonzero _ => nonzero
  | JStr s => nonempty s
  | JOther truthy _ => truthy
  end.

(** [str(v)] *)
Definition py_str (v : JVal) : str :=
  match v with
  | JNull => u "None"
  | JBool true => u "True"
  | JBool false => u "False"
  | JNum _ text => text
  | JStr s => s
  | JOther _ text => text
  end.

(** [a or b] on optional strings. *)
Definition py_or (a b : option str) : option str :=
  match a with
  | Some s => if nonempty s then a else b
  | None => b
  end.

Definition _get_str (params : gmap (list N) JVal) (key : str)
    (default : option str) : option str :=
  match params !! key with
  | None | Some JNull => default
  | Some (JStr s) => Some s
  | Some v => Some (py_str v)
  end.

Definition _get_bool (params : gmap (list N) JVal) (key : str)
    (default : bool) : bool :=
  match params !! key with
  | None | Some JNull => default
  | Some (JBool b) => b
  | Some (JNum nonzero _) => nonzero
  | Some (JStr s) =>
      str_in (lower (strip s)) [u "1"; u "true"; u "yes"; u "y"; u "on"]
  | Some (JOther _ _) => default
  end.

Definition _normalize_language (language : option str) (mixed : bool)
    : option str :=
  if mixed then None
  else
    match language with
    | None => Some (u "zh")
    | Some language =>
        if negb (nonempty language) then Some (u "zh")
        else
          let l := lower (strip language) in
          if str_in l [u "auto"; u "detect"; []] then None
          else if str_in l [u "zh"; u "zh-cn"; u "zh-hans"; u "cn"]
          then Some (u "zh")
          else if str_in l [u "en"; u "en-us"; u "english"] then Some (u "en")
          else Some language
    end.

Definition _default_prompt_for (language : option str) : option str :=
  if bool_decide (language = Some (u "en"))
  then Some (u "Transcribe accurately. Keep punctuation and casing.")
  else Some (u "请优先使用简体中文标点与表达，保留英文单词/缩写原样，必要时中英文之间加空格。").

(** ["%d" % z] *)
Definition str_of_int (z : Z) : str :=
  u (NilZero.string_of_int (Z.to_int z)).

(* ===================================================================== *)
(** ** The engine wrapper [WhisperEngine] *)
(* ===================================================================== *)

Record WhisperEngine := mkWhisperEngine {
  _model : option str;
  _model_name : option str
}.

(** [WhisperEngine()] *)
Definition new_engine : WhisperEngine := mkWhisperEngine None None.

Definition mlx_missing : str :=
  u "mlx-whisper is not installed. Run: pip install -r JSpeak/Python/requirements.txt".

Definition is_loaded (e : WhisperEngine) (model : str) : bool :=
  match _model e with
  | None => false
  | Some _ => bool_decide (_model_name e = Some model)
  end.

Section Engine.

Context {sample : Type}.

(** Whether [import mlx_whisper] succeeds. *)
Variable mlx_installed : bool.

(** [mlx_whisper.transcribe(audio, path_or_hf_repo=model, **kwargs)] read
    through [result.get("text")]: the keyword arguments [language] and
    [initial_prompt] are absent when [None]; the result is [None] when the
    entry is missing or falsy, and otherwise the entry, through [str] when
    it is not a string. *)
Variable mlx_transcribe :
  list sample -> str -> option str -> option str -> outcome (option str).

Definition ensure_loaded (e : WhisperEngine) (model : str)
    : outcome WhisperEngine :=
  if is_loaded e model then Returned e
  else if negb mlx_installed then Raised mlx_missing
  else Returned (mkWhisperEngine (Some model) (Some model)).

Definition whisper_transcribe (e : WhisperEngine) (audio_f32 : list sample)
    (sample_rate_hz : Z) (language prompt : option str) : outcome str :=
  if negb mlx_installed then Raised mlx_missing
  else if negb (sample_rate_hz =? 16000) then
    Raised (u "Only 16000Hz supported right now (got " ++ str_of_int sample_rate_hz
            ++ u ")")
  else
    (* kwargs: only truthy values are passed *)
    let language_kw := py_or language None in
    let prompt_kw := py_or prompt None in
    match py_or (_model_name e) None with
    | None => Raised (u "Model is not loaded. Call stream_start first.")
    | Some model =>
        match mlx_transcribe audio_f32 model language_kw prompt_kw with
        | Raised msg => Raised msg
        | Returned raw =>
            let raw := match raw with Some s => s | None => [] end in
            Returned (strip raw)
        end
    end.

End Engine.

(* ===================================================================== *)
(** ** PCM decoding: [_pcm16_bytes_to_float32_mono] *)
(* ===================================================================== *)

(** [float32] numbers. *)
Definition prec32 : Z := 24.
Definition emax32 : Z := 128.

(** One element of [np.frombuffer(pcm16, dtype=np.int16)] on a
    little-endian host: the signed 16-bit integer of two bytes. *)
Definition int16_le (lo hi : byte) : Z :=
  let v := Z.of_N (Byte.to_N lo) + 256 * Z.of_N (Byte.to_N hi) in
  if v <? 32768 then v else v - 65536.

(** [arr.astype(np.float32) / 32768.0] on one element. *)
Definition sample_of_int16 (v : Z) : spec_float :=
  SFdiv prec32 emax32 (binary_normalize prec32 emax32 v 0 false)
        (binary_normalize prec32 emax32 32768 0 false).

Fixpoint int16_pairs (pcm16 : list byte) : option (list Z) :=
  match pcm16 with
  | [] => Some []
  | [_] => None
  | lo :: hi :: rest => cons (int16_le lo hi) <$> int16_pairs rest
  end.

Definition _pcm16_bytes_to_float32_mono (pcm16 : list byte)
    : outcome (list spec_float) :=
  match int16_pairs pcm16 with
  | None => Raised (u "buffer size must be a multiple of element size")
  | Some arr => Returned (map sample_of_int16 arr)
  end.


(* ===================================================================== *)
(** ** The service: [Service.handle] on every method *)
(* ===================================================================== *)

(** The [result] dictionaries of the five methods. *)
Inductive Result :=
| res_ping (message time : str)
| res_capabilities (entries : list (str * str))
| res_start (session_id model : str)
| res_push (r : PushResult)
| res_finalize (r : FinalizeResult).

(** [_ok(req_id, result)] and [_err(req_id, message)]. *)
Inductive Reply :=
| reply_ok (id : JVal) (result : Result)
| reply_err (id : JVal) (message : str).

(** A request dictionary: [req.get("id")], [req.get("method")] and the
    [params] object ([{}] when absent or not an object). *)
Record JsonRequest := mkJsonRequest {
  req_id : JVal;
  req_method : JVal;
  req_params : gmap (list N) JVal
}.

Definition capabilities_result : list (str * str) :=
  [(u "protocol", u "jsonl-1");
   (u "streaming", u "true");
   (u "audio_formats", u "pcm_s16le_b64");
   (u "sample_rates_hz", u "16000");
   (u "asr", u "mlx-whisper");
   (u "recommended_model", u "mlx-community/whisper-medium");
   (u "supports_local_model_path", u "true");
   (u "default_language", u "zh");
   (u "language_modes", u "zh,auto,en");
   (u "mixed_mode", u "true")].

Section Server.

Context {sample : Type}.

Variable is_speech : list sample -> bool.
Variable mlx_installed : bool.
Variable mlx_transcribe :
  list sample -> str -> option str -> option str -> outcome (option str).

(** The builtin [int(s)] on a string. *)
Variable py_int : str -> outcome Z.

(** [_pcm16_bytes_to_float32_mono(_decode_pcm_s16le_b64(audio_b64))]: the
    base64 and PCM decoding of a non-empty parameter, which may raise. *)
Variable decode_audio : str -> outcome (list sample).

(** The two [str(uuid.uuid4())] of [handle], for the request id and for the
    session id; [os.environ.get("JSPEAK_MODEL_PATH")]; [str(_now())]. *)
Variable uuid_req : str.
Variable uuid_session : str.
Variable env_model_path : option str.
Variable now_str : str.

(** [class Service]: the engine and the session registry. *)
Record Service := mkService {
  engine : WhisperEngine;
  sessions : gmap (list N) (@StreamSession sample)
}.

(** [Service()] *)
Definition new_service : Service := mkService new_engine ∅.

(** The service after a request, the response line, and the calls made to
    the recognizer. *)
Record Served := mkServed {
  service_after : Service;
  reply : Reply;
  recognizer_calls : list (@EngineCall sample)
}.

(** [int(_get_str(params, key, default) or default)] *)
Definition int_param (params : gmap (list N) JVal) (key default : str)
    : outcome Z :=
  match py_or (_get_str params key (Some default)) (Some default) with
  | Some s => py_int s
  | None => py_int default
  end.

(** The branch [method == "stream_start"]: the service afterwards and
    [_ok]'s result or [_err]'s message. *)
Definition stream_start_body (svc : Service) (params : gmap (list N) JVal)
    : Service * outcome (str * str) :=
  let session_id :=
    match py_or (_get_str params (u "session_id") None) (Some uuid_session) with
    | Some s => s
    | None => uuid_session
    end in
  match int_param params (u "sample_rate_hz") (u "16000") with
  | Raised msg => (svc, Raised msg)
  | Returned sample_rate_hz =>
      let mixed := _get_bool params (u "mixed") false in
      let language :=
        _normalize_language (_get_str params (u "language") None) mixed in
      let prompt :=
        py_or (_get_str params (u "prompt") None) (_default_prompt_for language) in
      let model_path :=
        py_or (_get_str params (u "model_path") None) env_model_path in
      let model :=
        py_or model_path
          (_get_str params (u "model") (Some (u "mlx-community/whisper-medium"))) in
      match py_or model None with
      | None => (svc, Raised (u "Missing model"))
      | Some model =>
          match (if is_loaded (engine svc) model then Returned (engine svc)
                 else ensure_loaded mlx_installed (engine svc) model) with
          | Raised e => (svc, Raised (u "Model load failed: " ++ e))
          | Returned eng =>
              let svc := mkService eng (sessions svc) in
              match int_param params (u "partial_interval_ms") (u "500") with
              | Raised msg => (svc, Raised msg)
              | Returned partial_interval_ms =>
              match int_param params (u "max_partial_context_s") (u "20") with
              | Raised msg => (svc, Raised msg)
              | Returned max_partial_context_s =>
              match int_param params (u "min_partial_speech_ms") (u "300") with
              | Raised msg => (svc, Raised msg)
              | Returned min_partial_speech_ms =>
              match int_param params (u "end_silence_ms") (u "450") with
              | Raised msg => (svc, Raised msg)
              | Returned end_silence_ms =>
                  let sess :=
                    new_session sample_rate_hz language prompt
                      partial_interval_ms max_partial_context_s
                      min_partial_speech_ms end_silence_ms in
                  (mkService eng (<[session_id := sess]> (sessions svc)),
                   Returned (session_id, model))
              end end end end
          end
      end
  end.

Definition to_reply (id : JVal) (r : Response) : Reply :=
  match r with
  | ok_push p => reply_ok id (res_push p)
  | ok_finalize f => reply_ok id (res_finalize f)
  | err message => reply_err id message
  end.

(** The parameter [audio_b64] of [stream_push] as [handle] treats it. *)
Definition audio_param (params : gmap (list N) JVal) : @AudioParam sample :=
  match py_or (_get_str params (u "audio_b64") None) None with
  | None => audio_missing
  | Some audio_b64 =>
      match decode_audio audio_b64 with
      | Raised msg => audio_invalid msg
      | Returned audio_f32 => audio_pcm audio_f32
      end
  end.

(** [Service.handle(req)] *)
Definition handle_request (svc : Service) (req : JsonRequest) : Served :=
  let req_id :=
    if py_truthy (req_id req) then req_id req else JStr uuid_req in
  let params := req_params req in
  let method_is (name : str) : bool :=
    match req_method req with
    | JStr m => str_eqb m name
    | _ => false
    end in
  let transcribe := whisper_transcribe mlx_installed mlx_transcribe (engine svc) in
  if method_is (u "ping") then
    mkServed svc
      (reply_ok req_id (res_ping (u "jspeak-speech-service alive") now_str)) []
  else if method_is (u "capabilities") then
    mkServed svc (reply_ok req_id (res_capabilities capabilities_result)) []
  else if method_is (u "stream_start") then
    match stream_start_body svc params with
    | (svc, Returned (session_id, model)) =>
        mkServed svc (reply_ok req_id (res_start session_id model)) []
    | (svc, Raised msg) => mkServed svc (reply_err req_id msg) []
    end
  else if method_is (u "stream_push") then
    let fmt :=
      match _get_str params (u "format") (Some []) with
      | Some s => s
      | None => []
      end in
    let h :=
      handle_stream_push is_speech transcribe (sessions svc)
        (_get_str params (u "session_id") None) fmt (audio_param params) in
    mkServed (mkService (engine svc) (sessions_after h))
      (to_reply req_id (response h)) (engine_calls h)
  else if method_is (u "stream_finalize") then
    let h :=
      handle_stream_finalize transcribe (sessions svc)
        (_get_str params (u "session_id") None) in
    mkServed (mkService (engine svc) (sessions_after h))
      (to_reply req_id (response h)) (engine_calls h)
  else
    mkServed svc
      (reply_err req_id (u "Unknown method: " ++ py_str (req_method req))) [].

End Server.

(* ===================================================================== *)
(** ** The client's view of a delta *)
(* ===================================================================== *)

(** Applying [{from, delete_count, insert}] to the text shown so far: keep
    the first [from] characters, drop [delete_count], put [insert] there. *)
Definition apply_delta (prev : str) (d : Delta) : str :=
  let i := Z.to_nat (delta_from d) in
  take i prev ++ delta_insert d ++ drop (i + Z.to_nat (delta_delete d)) prev.


(* ===================================================================== *)
(** ** Invariants of a session *)
(* ===================================================================== *)

(** The text is empty or its last character is a boundary character. *)
Definition ends_at_boundary (s : str) : Prop :=
  match rev s with
  | c :: _ => mem c boundary_chars = true
  | [] => True
  end.

Section Invariants.

Context {sample : Type}.

(** The counters are natural numbers, the partial-analysis mark lies within
    the buffer, and the repeat streak is 0 exactly when no candidate is
    remembered. *)
Definition counters_wf (s : @StreamSession sample) : Prop :=
  0 <= speech_frames s /\ 0 <= silence_frames s
  /\ 0 <= last_partial_samples s <= Z.of_nat (length (buffer_f32 s))
  /\ 0 <= prefix_streak s
  /\ (last_prefix_candidate s = [] <-> prefix_streak s = 0).

(** The configuration of a session: what [stream_start] fixes. *)
Definition same_config (s s' : @StreamSession sample) : Prop :=
  sample_rate_hz s' = sample_rate_hz s /\ language s' = language s
  /\ prompt s' = prompt s
  /\ partial_interval_ms s' = partial_interval_ms s
  /\ max_partial_context_s s' = max_partial_context_s s
  /\ min_partial_speech_ms s' = min_partial_speech_ms s
  /\ frame_ms s' = frame_ms s /\ end_silence_ms s' = end_silence_ms s.

(** The audio of a partial transcription (lines 659-666): the trailing
    [max_partial_context_s] seconds of the buffer. *)
Definition partial_window (s : @StreamSession sample) : list sample :=
  let size := Z.of_nat (length (buffer_f32 s)) in
  drop (Z.to_nat (Z.max 0 (size - max_partial_context_s s * sample_rate_hz s)))
       (buffer_f32 s).

(** The state of the current utterance right after
    [reset_current_utterance]. *)
Definition utterance_cleared (s : @StreamSession sample) : Prop :=
  buffer_f32 s = [] /\ speech_frames s = 0 /\ silence_frames s = 0
  /\ last_emitted_text s = [] /\ last_partial_samples s = 0
  /\ committed_prefix s = [] /\ last_prefix_candidate s = []
  /\ prefix_streak s = 0.

End Invariants.


(* ===================================================================== *)
(** ** Runs of the service *)
(* ===================================================================== *)

Section ServerRuns.

Context {sample : Type}.

Variable is_speech : list sample -> bool.
Variable mlx_installed : bool.
Variable mlx_transcribe :
  list sample -> str -> option str -> option str -> outcome (option str).
Variable py_int : str -> outcome Z.
Variable decode_audio : str -> outcome (list sample).
Variable uuid_req : str.
Variable uuid_session : str.
Variable env_model_path : option str.
Variable now_str : str.

(** The service after the requests [reqs], handled in order by one
    [Service] as [main] does with the lines it reads. *)
Fixpoint serve_all (svc : @Service sample) (reqs : list JsonRequest)
    : @Service sample :=
  match reqs with
  | [] => svc
  | req :: reqs =>
      serve_all
        (service_after
           (handle_request is_speech mlx_installed mlx_transcribe py_int
              decode_audio uuid_req uuid_session env_model_path now_str
              svc req))
        reqs
  end.

(** The engine is consistent with the registry: model and name agree, a
    loaded name is not empty and was loaded with the library present, and
    a model is loaded whenever a session is registered. *)
Definition engine_ready (svc : @Service sample) : Prop :=
  _model (engine svc) = _model_name (engine svc)
  /\ (forall model, _model_name (engine svc) = Some model ->
        model <> [] /\ mlx_installed = true)
  /\ (sessions svc <> ∅ -> _model_name (engine svc) <> None).

End ServerRuns.

(** The [id] of a response line. *)
Definition reply_id (r : Reply) : JVal :=
  match r with
  | reply_ok id _ => id
  | reply_err id _ => id
  end.

(** The session id a request names: [_get_str(params, "session_id")]. *)
Definition named_session (req : JsonRequest) : option str :=
  _get_str (req_params req) (u "session_id") None.

(** The exact value a finite [float32] stands for is [v / 32768]. *)
Definition represents (x : spec_float) (v : Z) : Prop :=
  match x with
  | S754_zero _ => v = 0
  | S754_finite sign m e =>
      e <= 0 /\ (if sign then - Z.pos m else Z.pos m) * 32768 = v * 2 ^ (- e)
  | _ => False
  end.

Definition represents_b (x : spec_float) (v : Z) : bool :=
  match x with
  | S754_zero _ => v =? 0
  | S754_finite sign m e =>
      (e <=? 0)
      && ((if sign then - Z.pos m else Z.pos m) * 32768 =? v * 2 ^ (- e))
  | _ => false
  end.

(** [f] holds on the [2 ^ k] integers from [base] on. *)
Fixpoint all_from (k : nat) (f : Z -> bool) (base : Z) : bool :=
  match k with
  | O => f base
  | S k => all_from k f base && all_from k f (base + 2 ^ Z.of_nat k)
  end.

(** Stand-ins for the builtin [int] (it agrees with it on non-empty strings
    of ASCII digits), for the decoder (half a second of loud samples for any
    string) and for the library (the same text for any audio). *)
Definition int_digits (s : str) : outcome Z :=
  if nonempty s && forallb (fun c => (48 <=? c) && (c <=? 57))%N s
  then Returned (fold_left (fun acc c => 10 * acc + (Z.of_N c - 48)) s 0)
  else Raised (u "invalid literal for int() with base 10").

Definition decode_loud (_ : str) : outcome (list Z) :=
  Returned (replicate (Z.to_nat 8000) 1000).

Definition lib_const (text : str)
    : list Z -> str -> option str -> option str -> outcome (option str) :=
  fun _ _ _ _ => Returned (Some text).


(** A service on the stand-ins, and requests as a client builds them. *)
Definition demo_serve : @Service Z -> JsonRequest -> @Served Z :=
  handle_request loud true (lib_const (u "你好")) int_digits decode_loud
    (u "req-0") (u "session-0") None (u "0.0").

Definition demo_run : @Service Z -> list JsonRequest -> @Service Z :=
  serve_all loud true (lib_const (u "你好")) int_digits decode_loud
    (u "req-0") (u "session-0") None (u "0.0").

Definition request (id method : str) (params : list (str * str))
    : JsonRequest :=
  mkJsonRequest (JStr id) (JStr method)
    (list_to_map ((fun kv => (kv.1, JStr kv.2)) <$> params)).


(* ===================================================================== *)
(** * Properties *)
(* ===================================================================== *)

Example u_newline_phrase : u "换行" = [25442; 34892]%N.
Proof. reflexivity. Qed.

Example u_fullwidth_comma : u "，" = [65292]%N.
Proof. reflexivity. Qed.

Example diff_hello : diff (u "hello") (u "help!") = mkDelta 3 2 (u "p!").
Proof. reflexivity. Qed.
(** ** The diff engine *)

Lemma cpl_loop_spec (a b : list N) (n fuel i : nat) :
  (i <= n)%nat -> (n <= i + fuel)%nat ->
  (n <= length a)%nat -> (n <= length b)%nat ->
  take i a = take i b ->
  let r := cpl_loop a b n i fuel in
  (i <= r <= n)%nat /\ take r a = take r b /\ (r = n \/ a !! r <> b !! r).
Proof.
  revert i. induction fuel as [|fuel IH]; intros i Hin Hfuel Ha Hb Hpre; simpl.
  - repeat split; try lia; auto; left; lia.
  - destruct (Nat.ltb_spec i n) as [Hlt|Hge]; simpl.
    + destruct (bool_decide_reflect (a !! i = b !! i)) as [Heq|Hne].
      * assert (Hsome : is_Some (a !! i)) by (apply lookup_lt_is_Some; lia).
        destruct Hsome as [x Hx].
        assert (Hstep : take (S i) a = take (S i) b).
        { rewrite (take_S_r a i x Hx).
          rewrite (take_S_r b i x) by congruence.
          by rewrite Hpre. }
        destruct (IH (S i)) as (Hr & Ht & Hm); try lia; auto.
        repeat split; try lia; auto.
      * repeat split; try lia; auto.
    + repeat split; try lia; auto; left; lia.
Qed.

Lemma common_prefix_len_spec (a b : list N) :
  let r := _common_prefix_len a b in
  (r <= length a)%nat /\ (r <= length b)%nat /\ take r a = take r b
  /\ (forall k, (k <= length a)%nat -> (k <= length b)%nat ->
                take k a = take k b -> (k <= r)%nat).
Proof.
  unfold _common_prefix_len.
  destruct (cpl_loop_spec a b (min (length a) (length b))
              (min (length a) (length b)) 0) as ((_ & Hr) & Ht & Hm);
    try lia; auto.
  repeat split; try lia; auto.
  intros k Hka Hkb Hk.
  destruct Hm as [-> | Hne]; [lia|].
  destruct (Nat.le_gt_cases k (cpl_loop a b (length a `min` length b) 0
                                 (length a `min` length b))) as [|Hgt]; [done|].
  exfalso. apply Hne.
  rewrite <- (lookup_take_lt a k) by lia.
  rewrite <- (lookup_take_lt b k) by lia.
  by rewrite Hk.
Qed.

(** C1. Diff reconstruction law: for every [prev] and [next], the delta is
    [from = cpl], [delete = len(prev) - cpl], [insert = next[cpl:]] where
    [cpl] is the length of the longest common prefix of the two strings, and
    [prev[:from] + insert == next]. *)
Theorem diff_reconstruction (prev next : list N) :
  let d := diff prev next in
  let cpl := _common_prefix_len prev next in
  delta_from d = Z.of_nat cpl
  /\ delta_delete d = Z.of_nat (length prev) - delta_from d
  /\ delta_insert d = drop cpl next
  /\ take (Z.to_nat (delta_from d)) prev ++ delta_insert d = next
  /\ 0 <= delta_delete d
  /\ take cpl prev = take cpl next
  /\ (forall k, (k <= length prev)%nat -> (k <= length next)%nat ->
                take k prev = take k next -> (k <= cpl)%nat).
Proof.
  destruct (common_prefix_len_spec prev next) as (Ha & Hb & Ht & Hmax).
  simpl. rewrite Nat2Z.id. repeat split; auto; try lia.
  rewrite Ht. apply take_drop.
Qed.

(** ** The endpoint detector *)

Lemma ceil_div_le (s f t : Z) : 0 < f -> (ceil_div s f <= t <-> s <= t * f).
Proof.
  intros Hf. unfold ceil_div. split; intros H.
  - assert (- t <= - s / f) by lia.
    pose proof (Z.mul_div_le (- s) f Hf). nia.
  - assert (- t <= - s / f); [|lia].
    apply Z.div_le_lower_bound; lia.
Qed.

Lemma speech_count_snoc (flags : list bool) (b : bool) :
  speech_count (flags ++ [b]) = speech_count flags + (if b then 1 else 0).
Proof.
  induction flags as [|c flags IH]; simpl; [lia|]. rewrite IH. lia.
Qed.

Lemma speech_count_nonneg (flags : list bool) : 0 <= speech_count flags.
Proof. induction flags as [|[] flags IH]; simpl; lia. Qed.

Lemma trailing_silence_snoc (flags : list bool) (b : bool) :
  trailing_silence (flags ++ [b])
  = if b then 0 else 1 + trailing_silence flags.
Proof. unfold trailing_silence. rewrite rev_app_distr. by destruct b. Qed.

Lemma silent_run_nonneg (flags : list bool) : 0 <= silent_run flags.
Proof. induction flags as [|[] ? IH]; simpl; lia. Qed.

Lemma trailing_silence_nonneg (flags : list bool) : 0 <= trailing_silence flags.
Proof. apply silent_run_nonneg. Qed.

Section Endpoint.

Context {sample : Type}.
Variable is_speech : list sample -> bool.

Lemma vad_loop_app (s : StreamSession) (e : bool) (l1 l2 : list (list sample)) :
  vad_loop is_speech s e (l1 ++ l2)
  = vad_loop is_speech (vad_loop is_speech s e l1).1
      (vad_loop is_speech s e l1).2 l2.
Proof.
  revert s e. induction l1 as [|fr l1 IH]; intros s e; simpl; [done|].
  destruct (frame_step is_speech s fr) as [s1 hit]. apply IH.
Qed.

Lemma vad_loop_snoc (s : StreamSession) (e : bool) (l : list (list sample))
    (fr : list sample) :
  vad_loop is_speech s e (l ++ [fr])
  = let st := vad_loop is_speech s e l in
    let r := frame_step is_speech st.1 fr in
    (r.1, if r.2 then true else st.2).
Proof.
  rewrite vad_loop_app. simpl.
  by destruct (frame_step is_speech _ fr).
Qed.

(** The endpoint flag is never cleared by the loop. *)
Lemma vad_loop_endpoint_sticky (s : StreamSession) (l : list (list sample)) :
  (vad_loop is_speech s true l).2 = true.
Proof.
  revert s. induction l as [|fr l IH]; intros s; simpl; [done|].
  destruct (frame_step is_speech s fr) as [s1 hit]. destruct hit; apply IH.
Qed.

(** The state after a batch does not depend on the flag. *)
Lemma vad_loop_state_flag (s : StreamSession) (e e' : bool)
    (l : list (list sample)) :
  (vad_loop is_speech s e l).1 = (vad_loop is_speech s e' l).1.
Proof.
  revert s e e'. induction l as [|fr l IH]; intros s e e'; simpl; [done|].
  destruct (frame_step is_speech s fr) as [s1 hit]. apply IH.
Qed.

Lemma same_but_counters_refl (s : @StreamSession sample) : same_but_counters s s.
Proof. unfold same_but_counters. tauto. Qed.

Lemma same_but_counters_trans (s1 s2 s3 : @StreamSession sample) :
  same_but_counters s1 s2 -> same_but_counters s2 s3 -> same_but_counters s1 s3.
Proof. unfold same_but_counters. intuition congruence. Qed.

Lemma frame_step_same (s : StreamSession) (fr : list sample) :
  same_but_counters s (frame_step is_speech s fr).1.
Proof.
  unfold frame_step, same_but_counters.
  destruct (is_speech fr); simpl; [tauto|].
  match goal with |- context [if ?c then _ else _] => destruct c end;
    simpl; tauto.
Qed.

Lemma vad_loop_same (s : StreamSession) (e : bool) (l : list (list sample)) :
  same_but_counters s (vad_loop is_speech s e l).1.
Proof.
  revert s e. induction l as [|fr l IH]; intros s e; simpl.
  - apply same_but_counters_refl.
  - pose proof (frame_step_same s fr) as H1.
    destruct (frame_step is_speech s fr) as [s1 hit]. simpl in H1.
    eapply same_but_counters_trans; [exact H1|apply IH].
Qed.

(** The counters of one frame. *)
Lemma frame_step_counters (s : StreamSession) (fr : list sample) :
  let r := frame_step is_speech s fr in
  speech_frames r.1 = speech_frames s + (if is_speech fr then 1 else 0)
  /\ silence_frames r.1 = (if is_speech fr then 0 else silence_frames s + 1)
  /\ r.2 = negb (is_speech fr) && (0 <? speech_frames r.1)
           && (end_silence_ms s <=? silence_frames r.1 * frame_ms s).
Proof.
  unfold frame_step. destruct (is_speech fr); simpl.
  - repeat split; lia.
  - match goal with |- context [if ?c then _ else _] => destruct c eqn:Hc end;
      simpl; repeat split; try lia.
Qed.

(** From the start of an utterance, the two counters are the number of
    speech frames and the trailing silence of the frames seen so far. *)
Lemma vad_loop_counters (s0 : StreamSession) (l : list (list sample)) :
  speech_frames s0 = 0 -> silence_frames s0 = 0 ->
  let s := (vad_loop is_speech s0 false l).1 in
  speech_frames s = speech_count (map is_speech l)
  /\ silence_frames s = trailing_silence (map is_speech l).
Proof.
  intros Hsp Hsi. induction l as [|fr l IH] using rev_ind; simpl.
  - by rewrite Hsp, Hsi.
  - rewrite vad_loop_snoc. simpl.
    destruct IH as [IH1 IH2].
    destruct (frame_step_counters (vad_loop is_speech s0 false l).1 fr)
      as (H1 & H2 & _).
    rewrite map_app. simpl.
    rewrite speech_count_snoc, trailing_silence_snoc, H1, H2, IH1, IH2.
    destruct (is_speech fr); split; lia.
Qed.

(** From any state, over one batch. *)
Lemma vad_loop_counters_from (s : StreamSession) (e : bool)
    (l : list (list sample)) :
  let s' := (vad_loop is_speech s e l).1 in
  let flags := map is_speech l in
  speech_frames s' = speech_frames s + speech_count flags
  /\ silence_frames s'
     = (if decide (speech_count flags = 0)
        then silence_frames s + Z.of_nat (length l)
        else trailing_silence flags).
Proof.
  induction l as [|fr l IH] using rev_ind; simpl.
  - split; lia.
  - rewrite vad_loop_snoc. simpl.
    destruct IH as [IH1 IH2].
    destruct (frame_step_counters (vad_loop is_speech s e l).1 fr)
      as (H1 & H2 & _).
    rewrite map_app. simpl.
    rewrite speech_count_snoc, trailing_silence_snoc, H1, H2, IH1, IH2.
    rewrite length_app. simpl.
    pose proof (speech_count_nonneg (map is_speech l)).
    destruct (is_speech fr); split; try lia.
    + rewrite decide_False by lia. done.
    + rewrite Z.add_0_r.
      destruct (decide (speech_count (map is_speech l) = 0)); lia.
Qed.

(** The frame on which [endpoint = True] is executed. *)
Lemma frame_hit_iff (s0 : StreamSession) (pre : list (list sample))
    (fr : list sample) :
  speech_frames s0 = 0 -> silence_frames s0 = 0 -> 0 < frame_ms s0 ->
  let flags := map is_speech (pre ++ [fr]) in
  (frame_step is_speech (vad_loop is_speech s0 false pre).1 fr).2 = true
  <-> is_speech fr = false /\ 0 < speech_count flags
      /\ ceil_div (end_silence_ms s0) (frame_ms s0) <= trailing_silence flags.
Proof.
  intros Hsp Hsi Hf flags.
  destruct (vad_loop_counters s0 (pre ++ [fr]) Hsp Hsi) as [Hc1 Hc2].
  rewrite vad_loop_snoc in Hc1, Hc2. simpl in Hc1, Hc2.
  pose proof (vad_loop_same s0 false pre) as Hsame.
  destruct (frame_step_counters (vad_loop is_speech s0 false pre).1 fr)
    as (_ & _ & Hhit).
  rewrite Hhit, Hc1, Hc2.
  destruct Hsame as (_&_&_&_&_&_&_&_&_&_&_&_&_& Hfm & Hes).
  rewrite Hfm, Hes. fold flags.
  rewrite !andb_true_iff, negb_true_iff, Z.ltb_lt, Z.leb_le.
  rewrite (ceil_div_le _ _ _ Hf). tauto.
Qed.

End Endpoint.

(** C3. Endpoint timing: from the start of an utterance, with a frame
    duration [f > 0] ms and a silence threshold [s] ms, the endpoint is
    declared on a frame exactly when that frame is silent, at least one
    speech frame has been counted, and the trailing silence has reached
    [ceil(s/f)] frames; the first frame on which it is declared is the one
    where the trailing silence first reaches that number (never earlier,
    never later), and with 30 ms frames and a 450 ms threshold that is 15
    consecutive silent frames. *)
Theorem endpoint_timing {sample : Type} (is_speech : list sample -> bool)
    (s0 : StreamSession) (pre : list (list sample)) (fr : list sample) :
  speech_frames s0 = 0 -> silence_frames s0 = 0 -> 0 < frame_ms s0 ->
  let flags := map is_speech (pre ++ [fr]) in
  let need := ceil_div (end_silence_ms s0) (frame_ms s0) in
  let before := vad_loop is_speech s0 false pre in
  let hit := (frame_step is_speech before.1 fr).2 in
  (hit = true
   <-> is_speech fr = false /\ 0 < speech_count flags
       /\ need <= trailing_silence flags)
  /\ ((vad_loop is_speech s0 false (pre ++ [fr])).2 = true
      <-> before.2 = true \/ hit = true)
  /\ (before.2 = false -> hit = true ->
      trailing_silence flags = Z.max 1 need)
  /\ ceil_div 450 30 = 15
  /\ frame_ms (@new_session sample 16000 None None 500 20 300 450) = 30.
Proof.
  intros Hsp Hsi Hf flags need before hit.
  assert (Hiff := frame_hit_iff is_speech s0 pre fr Hsp Hsi Hf).
  split; [exact Hiff|]. split; [|split; [|split; reflexivity]].
  - rewrite vad_loop_snoc. simpl. fold before hit.
    destruct hit, (before.2); simpl; intuition congruence.
  - intros Hbefore Hhit. apply Hiff in Hhit as (Hfr & Hcount & Hneed).
    subst flags. rewrite map_app in *. simpl in *.
    rewrite trailing_silence_snoc, Hfr in Hneed |- *.
    rewrite speech_count_snoc, Hfr, Z.add_0_r in Hcount.
    pose proof (trailing_silence_nonneg (map is_speech pre)) as Hnn.
    destruct pre as [|x pre _] using rev_ind; [simpl in Hcount; lia|].
    subst before. rewrite vad_loop_snoc in Hbefore. simpl in Hbefore.
    destruct (frame_step is_speech (vad_loop is_speech s0 false pre).1 x).2
      eqn:Hx; [done|].
    assert (Hnot := frame_hit_iff is_speech s0 pre x Hsp Hsi Hf).
    rewrite Hx in Hnot. rewrite map_app in *. simpl in *.
    rewrite trailing_silence_snoc in *.
    destruct (is_speech x) eqn:Hsx; [fold need in Hneed; lia|].
    assert (~ need <= 1 + trailing_silence (map is_speech pre)).
    { intros Hle. assert (false = true); [|done]. apply Hnot. auto. }
    fold need in Hneed. lia.
Qed.

Lemma endpoint_timing_witness :
  let s0 := default_session in
  let pre := [1000] :: replicate 14 [0] in
  (speech_frames s0 = 0 /\ silence_frames s0 = 0 /\ 0 < frame_ms s0)
  /\ (frame_step loud (vad_loop loud s0 false pre).1 [0]).2 = true
  /\ trailing_silence (map loud (pre ++ [[0]])) = 15.
Proof.
  intros s0 pre.
  split; [repeat split; reflexivity|].
  destruct (endpoint_timing loud s0 pre [0]) as (H1 & _ & H3 & _);
    [reflexivity|reflexivity|reflexivity|].
  split.
  - apply H1. repeat split; vm_compute; congruence.
  - rewrite H3; reflexivity.
Defined.

(** Fourteen silent frames after speech are not enough, and silence alone
    never ends an utterance. *)
Example endpoint_needs_15 :
  (vad_loop loud default_session false ([1000] :: replicate 14 [0])).2 = false
  /\ (vad_loop loud default_session false ([1000] :: replicate 15 [0])).2 = true
  /\ (vad_loop loud default_session false (replicate 40 [0])).2 = false.
Proof. repeat split; reflexivity. Qed.

(** [push_audio] when the loop is reached. *)
Lemma push_audio_loop {sample : Type} (is_speech : list sample -> bool)
    (s : StreamSession) (audio_f32 : list sample) (frame_len : Z) :
  ms_to_samples (sample_rate_hz s) (frame_ms s) = Returned frame_len ->
  0 < frame_len -> frame_len <= Z.of_nat (length audio_f32) ->
  let st := vad_loop is_speech (set_buffer_f32 (buffer_f32 s ++ audio_f32) s)
              false (frames_of audio_f32 frame_len) in
  push_audio is_speech s audio_f32
  = (st.1, Returned (st.2, speech_frames st.1, silence_frames st.1)).
Proof.
  intros Hfl Hpos Hlen st. unfold push_audio.
  destruct (Nat.eqb_spec (length audio_f32) 0) as [H0|H0]; [lia|].
  simpl. rewrite Hfl.
  destruct (Z.leb_spec frame_len 0); [lia|].
  assert (0 < Z.of_nat (length audio_f32) / frame_len).
  { apply Z.div_str_pos. lia. }
  destruct (Z.leb_spec (Z.of_nat (length audio_f32) / frame_len) 0); [lia|].
  subst st. by destruct (vad_loop _ _ _ _).
Qed.

(** C10. Within one audio push, once the endpoint condition
    ([speech_frames > 0] and [silence_frames * frame_ms >= end_silence_ms])
    is met on a frame, the endpoint result of the push is true whatever the
    later frames of the batch are, and these frames still update the two
    counters: a later speech frame resets [silence_frames] to 0 without
    clearing the endpoint. *)
Theorem endpoint_sticky_in_batch {sample : Type}
    (is_speech : list sample -> bool) (s : StreamSession)
    (audio_f32 : list sample) (frame_len : Z)
    (pre post : list (list sample)) (fr : list sample) :
  ms_to_samples (sample_rate_hz s) (frame_ms s) = Returned frame_len ->
  0 < frame_len ->
  frames_of audio_f32 frame_len = pre ++ fr :: post ->
  let s1 := set_buffer_f32 (buffer_f32 s ++ audio_f32) s in
  let at_hit := (frame_step is_speech (vad_loop is_speech s1 false pre).1 fr).1 in
  is_speech fr = false ->
  0 < speech_frames at_hit ->
  end_silence_ms s <= silence_frames at_hit * frame_ms s ->
  let flags := map is_speech post in
  exists s',
    push_audio is_speech s audio_f32
    = (s', Returned (true, speech_frames s', silence_frames s'))
    /\ speech_frames s' = speech_frames at_hit + speech_count flags
    /\ silence_frames s'
       = (if decide (speech_count flags = 0)
          then silence_frames at_hit + Z.of_nat (length post)
          else trailing_silence flags)
    /\ (forall post' last, post = post' ++ [last] -> is_speech last = true ->
        silence_frames s' = 0).
Proof.
  intros Hfl Hpos Hframes s1 at_hit Hfr Hsp Hsil flags.
  assert (Hlen : frame_len <= Z.of_nat (length audio_f32)).
  { destruct (Z.le_gt_cases frame_len (Z.of_nat (length audio_f32)));
      [done|exfalso].
    unfold frames_of in Hframes.
    rewrite Z.div_small in Hframes by lia. simpl in Hframes.
    by destruct pre. }
  rewrite (push_audio_loop is_speech s audio_f32 frame_len Hfl Hpos Hlen).
  fold s1. rewrite Hframes.
  set (st := vad_loop is_speech s1 false (pre ++ fr :: post)).
  assert (Hst : st = vad_loop is_speech at_hit true post).
  { subst st. rewrite vad_loop_app. simpl.
    destruct (frame_step_counters is_speech (vad_loop is_speech s1 false pre).1 fr)
      as (_ & _ & Hhit).
    pose proof (vad_loop_same is_speech s1 false pre)
      as (_&_&_&_&_&_&_&_&_&_&_&_&_& Hfm & Hes).
    fold at_hit in Hhit. rewrite Hfm, Hes in Hhit. simpl in Hhit.
    destruct (frame_step is_speech (vad_loop is_speech s1 false pre).1 fr)
      as [s2 hit] eqn:Hstep.
    simpl in Hhit. subst at_hit. simpl in *.
    rewrite Hhit, Hfr. simpl.
    destruct (Z.ltb_spec 0 (speech_frames s2)); [|lia].
    destruct (Z.leb_spec (end_silence_ms s) (silence_frames s2 * frame_ms s));
      [|lia].
    done. }
  exists st.1.
  assert (He : st.2 = true) by (rewrite Hst; apply vad_loop_endpoint_sticky).
  rewrite <- He at 1.
  destruct (vad_loop_counters_from is_speech at_hit true post) as [Hc1 Hc2].
  rewrite <- Hst in Hc1, Hc2.
  repeat split; auto.
  intros post' last -> Hlast.
  rewrite Hc2. subst flags. rewrite map_app. simpl.
  rewrite speech_count_snoc, trailing_silence_snoc, Hlast.
  pose proof (speech_count_nonneg (map is_speech post')).
  rewrite decide_False by lia. done.
Qed.

Lemma endpoint_sticky_in_batch_witness :
  let s := default_session in
  let audio := replicate 480 1000 ++ replicate (15 * 480) 0 ++ replicate 480 1000 in
  let pre := replicate 480 1000 :: replicate 14 (replicate 480 0) in
  let fr := replicate 480 0 in
  let post := [replicate 480 1000] in
  let at_hit :=
    (frame_step loud
       (vad_loop loud (set_buffer_f32 (buffer_f32 s ++ audio) s) false pre).1
       fr).1 in
  (ms_to_samples (sample_rate_hz s) (frame_ms s) = Returned 480
   /\ 0 < 480
   /\ frames_of audio 480 = pre ++ fr :: post
   /\ loud fr = false
   /\ 0 < speech_frames at_hit
   /\ end_silence_ms s <= silence_frames at_hit * frame_ms s)
  /\ exists s',
       push_audio loud s audio
       = (s', Returned (true, speech_frames s', silence_frames s'))
       /\ speech_frames s' = 2 /\ silence_frames s' = 0.
Proof.
  intros s audio pre fr post at_hit.
  assert (H1 : ms_to_samples (sample_rate_hz s) (frame_ms s) = Returned 480)
    by (vm_compute; reflexivity).
  assert (H2 : 0 < 480) by lia.
  assert (H3 : frames_of audio 480 = pre ++ fr :: post)
    by (vm_compute; reflexivity).
  assert (H4 : loud fr = false) by (vm_compute; reflexivity).
  assert (H5 : 0 < speech_frames at_hit) by (vm_compute; reflexivity).
  assert (H6 : end_silence_ms s <= silence_frames at_hit * frame_ms s)
    by (vm_compute; congruence).
  split; [tauto|].
  destruct (endpoint_sticky_in_batch loud s audio 480 pre post fr H1 H2 H3 H4 H5 H6)
    as (s' & Hp & Hsp & _ & Hlast).
  exists s'. split; [exact Hp|]. split.
  - rewrite Hsp. vm_compute. reflexivity.
  - apply (Hlast [] (replicate 480 1000)); reflexivity.
Defined.

(** ** Frame segmentation *)

Lemma reshape_replicate_lengths {A : Type} (m n : nat) (l : list A) :
  (m * n <= length l)%nat ->
  Forall (fun fr => length fr = n) (reshape (replicate m n) l).
Proof.
  revert l. induction m as [|m IH]; intros l Hl; simpl; constructor.
  - rewrite length_take. lia.
  - apply IH. rewrite length_drop. lia.
Qed.

Lemma concat_mjoin {A : Type} (ls : list (list A)) : concat ls = mjoin ls.
Proof. induction ls as [|l ls IH]; simpl; [done|]. by rewrite IH. Qed.

Lemma frames_of_spec {sample : Type} (audio_f32 : list sample) (frame_len : Z) :
  0 < frame_len ->
  let size := Z.of_nat (length audio_f32) in
  let frames := frames_of audio_f32 frame_len in
  Z.of_nat (length frames) = size / frame_len
  /\ Forall (fun fr => Z.of_nat (length fr) = frame_len) frames
  /\ concat frames = drop (Z.to_nat (size mod frame_len)) audio_f32.
Proof.
  intros Hpos size frames. subst frames. unfold frames_of. fold size.
  assert (Hq : 0 <= size / frame_len) by (apply Z.div_pos; lia).
  pose proof (Z.mod_pos_bound size frame_len Hpos) as Hm.
  pose proof (Z.div_mod size frame_len) as Hdm.
  assert (Hstart : size - size / frame_len * frame_len = size mod frame_len)
    by lia.
  rewrite Hstart.
  set (n := Z.to_nat (size / frame_len)).
  set (k := Z.to_nat frame_len).
  set (tail := drop (Z.to_nat (size mod frame_len)) audio_f32).
  assert (Htail : length tail = (n * k)%nat).
  { subst tail n k. rewrite length_drop. subst size. nia. }
  split; [|split].
  - rewrite length_reshape, length_replicate. subst n. lia.
  - eapply Forall_impl; [apply reshape_replicate_lengths; lia|].
    simpl. intros fr ->. subst k. lia.
  - rewrite concat_mjoin. apply (join_reshape (replicate n k) tail).
    by rewrite sum_list_replicate.
Qed.

(** [push_audio] when no frame is analysed. *)
Lemma push_audio_no_frame {sample : Type} (is_speech : list sample -> bool)
    (s : StreamSession) (audio_f32 : list sample) (frame_len : Z) :
  ms_to_samples (sample_rate_hz s) (frame_ms s) = Returned frame_len ->
  frame_len <= 0 \/ Z.of_nat (length audio_f32) < frame_len ->
  exists s',
    push_audio is_speech s audio_f32
    = (s', Returned (false, speech_frames s, silence_frames s))
    /\ same_but_counters (set_buffer_f32 (buffer_f32 s ++ audio_f32) s) s'
    /\ speech_frames s' = speech_frames s
    /\ silence_frames s' = silence_frames s.
Proof.
  intros Hfl Hcase. unfold push_audio.
  destruct (Nat.eqb_spec (length audio_f32) 0) as [H0|H0].
  - exists s. repeat split; auto.
    apply length_zero_iff_nil in H0 as ->. simpl. by rewrite app_nil_r.
  - simpl. rewrite Hfl.
    destruct (Z.leb_spec frame_len 0).
    + eexists. split; [reflexivity|]. repeat split; auto.
    + destruct Hcase as [|Hsmall]; [lia|].
      rewrite Z.div_small by lia. simpl.
      eexists. split; [reflexivity|]. repeat split; auto.
Qed.

(** C7, as the code has it.  The frame length is
    [int(sample_rate_hz * (frame_ms / 1000.0))], the floating-point product
    truncated toward zero (480 at 16000 Hz and 30 ms).  On a push, the frames
    analysed are the whole frames of that length cut from the end of the
    newly appended samples only; when the frame length is [<= 0] or the
    chunk is shorter than one frame, the push produces no VAD decision: the
    counters are unchanged and no endpoint is reported. *)
Theorem frame_segmentation {sample : Type} (is_speech : list sample -> bool)
    (s : StreamSession) (audio_f32 : list sample) (frame_len : Z) :
  ms_to_samples (sample_rate_hz s) (frame_ms s) = Returned frame_len ->
  let size := Z.of_nat (length audio_f32) in
  let frames := frames_of audio_f32 frame_len in
  let s1 := set_buffer_f32 (buffer_f32 s ++ audio_f32) s in
  (0 < frame_len -> frame_len <= size ->
     Z.of_nat (length frames) = size / frame_len
     /\ Forall (fun fr => Z.of_nat (length fr) = frame_len) frames
     /\ concat frames = drop (Z.to_nat (size mod frame_len)) audio_f32
     /\ push_audio is_speech s audio_f32
        = let st := vad_loop is_speech s1 false frames in
          (st.1, Returned (st.2, speech_frames st.1, silence_frames st.1)))
  /\ (frame_len <= 0 \/ size < frame_len ->
      exists s',
        push_audio is_speech s audio_f32
        = (s', Returned (false, speech_frames s, silence_frames s))
        /\ same_but_counters s1 s'
        /\ speech_frames s' = speech_frames s
        /\ silence_frames s' = silence_frames s)
  /\ ms_to_samples 16000 30 = Returned 480.
Proof.
  intros Hfl size frames s1. split; [|split].
  - intros Hpos Hlen.
    destruct (frames_of_spec audio_f32 frame_len Hpos) as (H1 & H2 & H3).
    repeat split; auto.
    apply (push_audio_loop is_speech s audio_f32 frame_len Hfl Hpos Hlen).
  - apply (push_audio_no_frame is_speech s audio_f32 frame_len Hfl).
  - vm_compute. reflexivity.
Qed.

Lemma frame_segmentation_witness :
  let s := default_session in
  let audio := replicate 100 0 ++ replicate 480 1000 ++ replicate 480 0 in
  ms_to_samples (sample_rate_hz s) (frame_ms s) = Returned 480
  /\ frames_of audio 480 = [replicate 480 1000; replicate 480 0]
  /\ concat (frames_of audio 480) = drop 100 audio
  /\ (push_audio loud s audio).2 = Returned (false, 1, 1).
Proof.
  intros s audio.
  assert (H : ms_to_samples (sample_rate_hz s) (frame_ms s) = Returned 480)
    by (vm_compute; reflexivity).
  destruct (frame_segmentation loud s audio 480 H) as (Hseg & _ & _).
  destruct Hseg as (_ & _ & Hcat & Hpush); [lia|vm_compute; congruence|].
  split; [exact H|]. split; [vm_compute; reflexivity|].
  split; [exact Hcat|]. rewrite Hpush. vm_compute. reflexivity.
Defined.

(** C7 as stated fails: at 11025 Hz and 30 ms the exact product is 330.75,
    which rounds to 331, but the code truncates it to 330; a chunk of 330
    samples is then analysed as one frame although it is shorter than 331
    samples. *)
Lemma frame_length_is_not_rounded :
  let s := @new_session Z 11025 None None 500 20 300 450 in
  py_round (sample_rate_hz s * frame_ms s) 1000 = 331
  /\ ms_to_samples (sample_rate_hz s) (frame_ms s) = Returned 330
  /\ ms_to_samples (sample_rate_hz s) (frame_ms s)
     <> Returned (py_round (sample_rate_hz s * frame_ms s) 1000)
  /\ (push_audio loud s (replicate 330 1000)).2 = Returned (false, 1, 0).
Proof. repeat split; try (vm_compute; reflexivity). vm_compute. congruence. Qed.

(** ** The partial stabilizer *)

Lemma startswith_prefix (s p : list N) : startswith s p = true <-> p `prefix_of` s.
Proof.
  revert s. induction p as [|a p IH]; intros s; simpl.
  - split; [intros _; apply prefix_nil|done].
  - destruct s as [|b s].
    + split; [done|]. intros H. by apply prefix_nil_not in H.
    + rewrite andb_true_iff, N.eqb_eq, IH. split.
      * intros [-> H]. by apply prefix_cons.
      * intros H. split; [by apply prefix_cons_inv_1 in H|].
        by apply prefix_cons_inv_2 in H.
Qed.

Section Stabilizer.

Context {sample : Type}.
Variable is_speech : list sample -> bool.
Variable transcribe :
  list sample -> Z -> option (list N) -> option (list N) -> outcome (list N).

Lemma partial_update_shape (s : @StreamSession sample) (text : list N) :
  let s' := (partial_update s text).1 in
  let c := _boundary_prefix text in
  (committed_prefix s' = committed_prefix s
   \/ (committed_prefix s' = c
       /\ (length (committed_prefix s) < length c)%nat
       /\ startswith c (committed_prefix s) = true))
  /\ last_emitted_text s'
     = committed_prefix s' ++ drop (length (committed_prefix s')) text.
Proof.
  unfold partial_update, str_eqb.
  repeat match goal with
         | |- context [if ?c then _ else _] => destruct c eqn:?
         end;
    simpl in *;
    repeat match goal with
           | H : _ && _ = true |- _ => apply andb_true_iff in H as [? ?]
           | H : (_ <? _)%nat = true |- _ => apply Nat.ltb_lt in H
           | H : negb _ = false |- _ => apply negb_false_iff in H
           | H : bool_decide _ = true |- _ => apply bool_decide_eq_true in H
           end;
    split; auto; congruence.
Qed.

Lemma push_audio_same (s : @StreamSession sample) (audio_f32 : list sample) :
  same_but_counters (set_buffer_f32 (buffer_f32 s ++ audio_f32) s)
    (push_audio is_speech s audio_f32).1.
Proof.
  unfold push_audio.
  destruct (Nat.eqb_spec (length audio_f32) 0) as [H0|H0]; simpl.
  - apply length_zero_iff_nil in H0 as ->. rewrite app_nil_r.
    unfold same_but_counters. simpl. tauto.
  - destruct (ms_to_samples _ _) as [fl|msg]; simpl;
      [|apply same_but_counters_refl].
    destruct (fl <=? 0); simpl; [apply same_but_counters_refl|].
    destruct (_ <=? 0); simpl; [apply same_but_counters_refl|].
    pose proof (vad_loop_same is_speech
                  (set_buffer_f32 (buffer_f32 s ++ audio_f32) s) false
                  (frames_of audio_f32 fl)) as H.
    by destruct (vad_loop _ _ _ _).
Qed.

Lemma final_update_resets (s : @StreamSession sample) (text : list N) :
  let r := final_update s text in
  committed_prefix r.1 = [] /\ last_emitted_text r.1 = []
  /\ buffer_f32 r.1 = [] /\ speech_frames r.1 = 0 /\ silence_frames r.1 = 0
  /\ emitted_kind r.2 = kind_final.
Proof.
  unfold final_update. destruct (finalize_text text) as [[t a] c].
  destruct (nonempty t); simpl; tauto.
Qed.

(** One [stream_push] on a session: the stabilization state afterwards. *)
Lemma session_push_step (sid : list N) (s : @StreamSession sample)
    (audio_f32 : list sample) :
  let r := session_push is_speech transcribe sid s audio_f32 in
  let s' := r.1.1 in
  (committed_prefix s `prefix_of` last_emitted_text s ->
   committed_prefix s' `prefix_of` last_emitted_text s')
  /\ (is_final_response r.1.2 = true
      \/ committed_prefix s `prefix_of` committed_prefix s')
  /\ (committed_prefix s' <> committed_prefix s ->
      is_final_response r.1.2 = true
      \/ exists call text,
           r.2 = [call] /\ run_engine transcribe call = Returned text
           /\ committed_prefix s' = _boundary_prefix text
           /\ (length (committed_prefix s) < length (committed_prefix s'))%nat
           /\ committed_prefix s `prefix_of` committed_prefix s').
Proof.
  unfold session_push.
  pose proof (push_audio_same s audio_f32) as Hsame.
  destruct (push_audio is_speech s audio_f32) as [s1 [[[e sp] si]|msg]].
  all: simpl in Hsame.
  all: destruct Hsame as (_&_&_&_& Hle &_&_&_&_&_& Hcp &_).
  all: simpl in Hle, Hcp.
  2: { simpl. rewrite Hle, Hcp. repeat split; auto; try (by intros []). }
  assert (Hkeep : forall s2 : @StreamSession sample,
             committed_prefix s2 = committed_prefix s ->
             last_emitted_text s2 = last_emitted_text s ->
             forall (resp : Response) (calls : list EngineCall),
             let r := (s2, resp, calls) in
             (committed_prefix s `prefix_of` last_emitted_text s ->
              committed_prefix r.1.1 `prefix_of` last_emitted_text r.1.1)
             /\ (is_final_response r.1.2 = true
                 \/ committed_prefix s `prefix_of` committed_prefix r.1.1)
             /\ (committed_prefix r.1.1 <> committed_prefix s ->
                 is_final_response r.1.2 = true
                 \/ exists call text,
                      r.2 = [call] /\ run_engine transcribe call = Returned text
                      /\ committed_prefix r.1.1 = _boundary_prefix text
                      /\ (length (committed_prefix s)
                          < length (committed_prefix r.1.1))%nat
                      /\ committed_prefix s `prefix_of` committed_prefix r.1.1)).
  { intros s2 H1 H2 resp calls. simpl. rewrite H1, H2.
    repeat split; auto; try (by intros []). }
  destruct (negb e && (0 <? sp)) eqn:Hpartial.
  - destruct (sp * frame_ms s1 <? min_partial_speech_ms s1).
    { apply Hkeep; simpl; assumption. }
    destruct (ms_to_samples _ _) as [interval|msg]; [|apply Hkeep; simpl; assumption].
    destruct ((0 <? interval) && _); [|apply Hkeep; simpl; assumption].
    destruct (run_engine transcribe _) as [text|msg] eqn:Hrun;
      [|apply Hkeep; simpl; assumption].
    destruct (nonempty text); [|apply Hkeep; simpl; assumption].
    pose proof (partial_update_shape s1 text) as [Hshape Hlast].
    destruct (partial_update s1 text) as [s2 em]. simpl in *.
    rewrite Hcp in Hshape.
    split; [|split].
    + intros _. rewrite Hlast. by apply prefix_app_r.
    + right. destruct Hshape as [->|(-> & _ & Hsw)]; [done|].
      by apply startswith_prefix.
    + intros Hne. right.
      destruct Hshape as [?|(Hc & Hlen & Hsw)]; [done|].
      eexists _, text. split; [reflexivity|]. split; [exact Hrun|].
      rewrite Hc. repeat split; auto. by apply startswith_prefix.
  - destruct e.
    + destruct (run_engine transcribe _) as [text|msg]; [|apply Hkeep; simpl; assumption].
      pose proof (final_update_resets s1 text) as (H1 & H2 & _ & _ & _ & Hk).
      destruct (final_update s1 text) as [s2 em]. simpl in *.
      rewrite H1, H2, Hk. repeat split; auto.
    + apply Hkeep; simpl; assumption.
Qed.

End Stabilizer.

(** C2. Prefix monotonicity: along any sequence of pushes on a session none
    of which ends the utterance, the committed prefix never gets shorter
    (it only grows by extension), it is a prefix of the last emitted text,
    and a push replaces it only by a candidate that is strictly longer and
    has it as a prefix; any other candidate leaves it as it is. *)
Theorem committed_prefix_monotone {sample : Type}
    (is_speech : list sample -> bool)
    (transcribe :
       list sample -> Z -> option (list N) -> option (list N) -> outcome (list N))
    (sid : list N) (s : StreamSession) (chunks : list (list sample)) :
  committed_prefix s `prefix_of` last_emitted_text s ->
  let r := push_all is_speech transcribe sid s chunks in
  Forall (fun resp => is_final_response resp = false) r.2 ->
  (length (committed_prefix s) <= length (committed_prefix r.1))%nat
  /\ committed_prefix s `prefix_of` committed_prefix r.1
  /\ committed_prefix r.1 `prefix_of` last_emitted_text r.1
  /\ (forall audio_f32,
        let p := session_push is_speech transcribe sid r.1 audio_f32 in
        committed_prefix p.1.1 <> committed_prefix r.1 ->
        is_final_response p.1.2 = true
        \/ exists call text,
             p.2 = [call] /\ run_engine transcribe call = Returned text
             /\ committed_prefix p.1.1 = _boundary_prefix text
             /\ (length (committed_prefix r.1)
                 < length (committed_prefix p.1.1))%nat
             /\ committed_prefix r.1 `prefix_of` committed_prefix p.1.1)
  /\ (forall text,
        let c := _boundary_prefix text in
        ~ ((length (committed_prefix r.1) < length c)%nat
           /\ committed_prefix r.1 `prefix_of` c) ->
        committed_prefix (partial_update r.1 text).1 = committed_prefix r.1).
Proof.
  revert s. induction chunks as [|a rest IH]; intros s Hinv; simpl.
  - intros _. repeat split; auto.
    + intros audio_f32.
      apply (session_push_step is_speech transcribe sid s audio_f32).
    + intros text Hnot.
      destruct (partial_update_shape s text) as [[H|(_ & Hlen & Hsw)] _];
        [done|].
      exfalso. apply Hnot. split; [done|]. by apply startswith_prefix.
  - pose proof (session_push_step is_speech transcribe sid s a)
      as (Hstep1 & Hstep2 & _).
    destruct (session_push is_speech transcribe sid s a) as [[s1 r1] calls].
    simpl in Hstep1, Hstep2.
    specialize (IH s1 (Hstep1 Hinv)).
    destruct (push_all is_speech transcribe sid s1 rest) as [s2 rs].
    simpl in *. intros Hall.
    apply Forall_cons in Hall as [Hr1 Hrs].
    destruct (IH Hrs) as (Hlen & Hpre & Hrest).
    destruct Hstep2 as [Hfin|Hext]; [congruence|].
    split; [|split; [|exact Hrest]].
    + apply prefix_length in Hext. lia.
    + by etrans.
Qed.

Lemma committed_prefix_monotone_witness :
  let s := default_session in
  let chunk := replicate (Z.to_nat 8000) 1000 in
  let r := push_all loud (engine_const (u "你好，世界")) (u "s1") s
             [chunk; chunk; chunk] in
  committed_prefix s `prefix_of` last_emitted_text s
  /\ Forall (fun resp => is_final_response resp = false) r.2
  /\ committed_prefix r.1 = u "你好，"
  /\ (length (committed_prefix s) <= length (committed_prefix r.1))%nat
  /\ committed_prefix r.1 `prefix_of` last_emitted_text r.1.
Proof.
  intros s chunk r.
  assert (H1 : committed_prefix s `prefix_of` last_emitted_text s)
    by apply prefix_nil.
  assert (H2 : Forall (fun resp => is_final_response resp = false) r.2)
    by (vm_compute; repeat constructor).
  destruct (committed_prefix_monotone loud (engine_const (u "你好，世界"))
              (u "s1") s [chunk; chunk; chunk] H1 H2) as (H3 & _ & H5 & _).
  split; [exact H1|]. split; [exact H2|].
  split; [vm_compute; reflexivity|]. split; [exact H3|exact H5].
Defined.

(** ** Requests on a known session *)

Section Requests.

Context {sample : Type}.
Variable is_speech : list sample -> bool.
Variable transcribe :
  list sample -> Z -> option (list N) -> option (list N) -> outcome (list N).

Lemma nonempty_true (t : list N) : t <> [] -> nonempty t = true.
Proof. by destruct t. Qed.

Lemma partial_update_kind (s : @StreamSession sample) (text : list N) :
  emitted_kind (partial_update s text).2 <> kind_final.
Proof.
  unfold partial_update.
  match goal with |- context [if negb ?c then _ else _] => destruct c end;
    simpl; congruence.
Qed.

(** A push whose response is final ran [final_update] on the whole buffer. *)
Lemma session_push_final (sid : list N) (s : @StreamSession sample)
    (audio_f32 : list sample) :
  let r := session_push is_speech transcribe sid s audio_f32 in
  is_final_response r.1.2 = true ->
  exists s1 text sp si,
    run_engine transcribe (engine_call s1 (buffer_f32 s1)) = Returned text
    /\ r.1.1 = (final_update s1 text).1
    /\ r.1.2 = push_response sid true sp si (final_update s1 text).2
    /\ r.2 = [engine_call s1 (buffer_f32 s1)].
Proof.
  unfold session_push.
  destruct (push_audio is_speech s audio_f32) as [s1 [[[e sp] si]|msg]];
    [|done].
  destruct (negb e && (0 <? sp)) eqn:Hpartial.
  - destruct (sp * frame_ms s1 <? min_partial_speech_ms s1); [done|].
    destruct (ms_to_samples _ _) as [interval|msg]; [|done].
    destruct ((0 <? interval) && _); [|done].
    destruct (run_engine transcribe _) as [text|msg]; [|done].
    destruct (nonempty text); [|done].
    pose proof (partial_update_kind s1 text) as Hk.
    destruct (partial_update s1 text) as [s2 em]. simpl in *.
    by destruct (emitted_kind em).
  - destruct e; [|done].
    destruct (run_engine transcribe _) as [text|msg] eqn:Hrun; [|done].
    intros _. exists s1, text, sp, si.
    by destruct (final_update s1 text) as [s2 em].
Qed.

(** When the engine raises during a push, the session is left as
    [push_audio] made it and the response is the error. *)
Lemma session_push_raised (sid : list N) (s : @StreamSession sample)
    (audio_f32 : list sample) (call : EngineCall) (msg : list N) :
  let r := session_push is_speech transcribe sid s audio_f32 in
  call ∈ r.2 -> run_engine transcribe call = Raised msg ->
  r.1.1 = (push_audio is_speech s audio_f32).1 /\ r.1.2 = err msg.
Proof.
  unfold session_push.
  destruct (push_audio is_speech s audio_f32) as [s1 [[[e sp] si]|msg']];
    [|simpl; by intros ?%elem_of_nil].
  destruct (negb e && (0 <? sp)) eqn:Hpartial.
  - destruct (sp * frame_ms s1 <? min_partial_speech_ms s1);
      [simpl; by intros ?%elem_of_nil|].
    destruct (ms_to_samples _ _) as [interval|msg'];
      [|simpl; by intros ?%elem_of_nil].
    destruct ((0 <? interval) && _); [|simpl; by intros ?%elem_of_nil].
    destruct (run_engine transcribe _) as [text|msg'] eqn:Hrun.
    + destruct (if nonempty text then _ else _) as [s2 em]. simpl.
      intros ->%list_elem_of_singleton. congruence.
    + simpl. intros ->%list_elem_of_singleton. split; congruence.
  - destruct e; [|simpl; by intros ?%elem_of_nil].
    destruct (run_engine transcribe _) as [text|msg'] eqn:Hrun.
    + destruct (final_update s1 text) as [s2 em]. simpl.
      intros ->%list_elem_of_singleton. congruence.
    + simpl. intros ->%list_elem_of_singleton. split; congruence.
Qed.

End Requests.

(** C5. Finalize semantics: [stream_finalize] on a known session always
    removes the session from the registry; when the utterance buffer is not
    empty the engine is called once, on the whole buffer, and the response
    is built from its result (or is its error); when the buffer is empty the
    engine is not called and the response is built from the cached text of
    the last finalized utterance.  A push that ended an utterance left the
    buffer empty and, if its text is not empty, cached that text. *)
Theorem finalize_semantics {sample : Type} (is_speech : list sample -> bool)
    (transcribe :
       list sample -> Z -> option (list N) -> option (list N) -> outcome (list N))
    (sessions : gmap (list N) StreamSession) (sid : list N)
    (s : StreamSession) :
  sid <> [] -> sessions !! sid = Some s ->
  let h := handle is_speech transcribe sessions (stream_finalize (Some sid)) in
  let finish text :=
    ok_finalize
      {| fin_session_id := sid;
         fin_text := (finalize_text text).1.1;
         fin_actions := (finalize_text text).1.2 |} in
  sessions_after h = delete sid sessions
  /\ sessions_after h !! sid = None
  /\ (buffer_f32 s <> [] ->
      engine_calls h = [engine_call s (buffer_f32 s)]
      /\ response h
         = match transcribe (buffer_f32 s) (sample_rate_hz s) (language s)
                   (prompt s) with
           | Returned text => finish text
           | Raised msg => err msg
           end)
  /\ (buffer_f32 s = [] ->
      engine_calls h = [] /\ response h = finish (segments_text s))
  /\ (forall s0 audio_f32,
        let p := session_push is_speech transcribe sid s0 audio_f32 in
        is_final_response p.1.2 = true ->
        buffer_f32 p.1.1 = []
        /\ forall r, p.1.2 = ok_push r -> push_text r <> [] ->
                     segments_text p.1.1 = push_text r).
Proof.
  intros Hsid Hlook h finish. subst h. unfold handle, handle_stream_finalize.
  rewrite (nonempty_true sid Hsid), Hlook. cbv zeta.
  assert (Hfin : forall text,
             (let '(text0, actions, _) := finalize_text text in
              ok_finalize
                {| fin_session_id := sid; fin_text := text0;
                   fin_actions := actions |}) = finish text).
  { intros text. subst finish. cbv beta.
    by destruct (finalize_text text) as [[? ?] ?]. }
  rewrite !Hfin.
  split; [|split; [|split; [|split]]].
  - destruct (0 <? length (buffer_f32 s))%nat; [|destruct (nonempty _)];
      try destruct (run_engine _ _); reflexivity.
  - destruct (0 <? length (buffer_f32 s))%nat; [|destruct (nonempty _)];
      try destruct (run_engine _ _); cbn [sessions_after];
      apply lookup_delete_eq.
  - intros Hbuf.
    destruct (Nat.ltb_spec 0 (length (buffer_f32 s))) as [_|Hlen].
    + unfold run_engine, engine_call.
      cbn [call_audio call_sample_rate_hz call_language call_prompt].
      destruct (transcribe _ _ _ _); cbn [engine_calls response];
        rewrite ?Hfin; done.
    + destruct (buffer_f32 s); [done|simpl in Hlen; lia].
  - intros Hbuf.
    destruct (Nat.ltb_spec 0 (length (buffer_f32 s))) as [Hlen|_].
    { rewrite Hbuf in Hlen. simpl in Hlen. lia. }
    destruct (nonempty (segments_text s)) eqn:Hseg; cbn [engine_calls response].
    + done.
    + by destruct (segments_text s).
  - intros s0 audio_f32 Hfinal.
    destruct (session_push_final is_speech transcribe sid s0 audio_f32 Hfinal)
      as (s1 & text & sp & si & _ & Hs & Hr & _).
    rewrite Hs, Hr. clear.
    unfold final_update. destruct (finalize_text text) as [[t a] c].
    simpl. split; [done|].
    intros r [= <-]. simpl. by destruct t.
Qed.

Lemma finalize_semantics_witness :
  let sid := u "s1" in
  let s := set_segments_text (u "你好。") default_session in
  let sessions : gmap (list N) StreamSession := {[ sid := s ]} in
  let h := handle loud engine_down sessions (stream_finalize (Some sid)) in
  (sid <> [] /\ sessions !! sid = Some s)
  /\ sessions_after h !! sid = None
  /\ engine_calls h = []
  /\ response h
     = ok_finalize
         {| fin_session_id := sid; fin_text := u "你好。";
            fin_actions := [insert (u "你好。")] |}.
Proof.
  intros sid s sessions h.
  assert (H1 : sid <> []) by (vm_compute; congruence).
  assert (H2 : sessions !! sid = Some s) by (vm_compute; reflexivity).
  destruct (finalize_semantics loud engine_down sessions sid s H1 H2)
    as (_ & Hgone & _ & Hempty & _).
  destruct Hempty as [Hcalls Hresp]; [reflexivity|].
  split; [by split|]. split; [exact Hgone|]. split; [exact Hcalls|].
  subst h. rewrite Hresp. vm_compute. reflexivity.
Defined.

(** C6 as stated fails.  When the engine raises during [stream_finalize]
    the session has already been popped: it is no longer available and a
    second finalize answers "Unknown session_id".  When it raises during
    [stream_push] the chunk has already been appended and counted. *)
Lemma transcription_failure_changes_state :
  let sid := u "s1" in
  let s := set_buffer_f32 [1000] default_session in
  let sessions : gmap (list N) StreamSession := {[ sid := s ]} in
  let h := handle loud engine_down sessions (stream_finalize (Some sid)) in
  let chunk := replicate (Z.to_nat 480) 1000 ++ replicate (Z.to_nat 7200) 0 in
  let sessions0 : gmap (list N) StreamSession := {[ sid := default_session ]} in
  let h0 := handle loud engine_down sessions0
              (stream_push (Some sid) (u "pcm_s16le_b64") (audio_pcm chunk)) in
  (response h = err (u "Model is not loaded. Call stream_start first.")
   /\ sessions_after h !! sid = None
   /\ response (handle loud engine_down (sessions_after h)
                  (stream_finalize (Some sid)))
      = err (u "Unknown session_id"))
  /\ (response h0 = err (u "Model is not loaded. Call stream_start first.")
      /\ sessions_after h0 !! sid <> sessions0 !! sid
      /\ (buffer_f32 <$> sessions_after h0 !! sid) = Some chunk
      /\ (speech_frames <$> sessions_after h0 !! sid) = Some 1
      /\ (silence_frames <$> sessions_after h0 !! sid) = Some 15).
Proof.
  repeat split; try (vm_compute; reflexivity). vm_compute. congruence.
Qed.

(** C6, as the code has it.  When the engine raises during a request on a
    known session the response is the error.  For [stream_push] the session
    stays registered in the state [push_audio] left it in: the buffer holds
    its previous samples followed by the pushed chunk (it is not cleared),
    the frame counters include the chunk, and every other field is as
    before the request.  For [stream_finalize] the session is removed. *)
Theorem transcription_failure_state {sample : Type}
    (is_speech : list sample -> bool)
    (transcribe :
       list sample -> Z -> option (list N) -> option (list N) -> outcome (list N))
    (sessions : gmap (list N) StreamSession) (sid : list N)
    (s : StreamSession) :
  sid <> [] -> sessions !! sid = Some s ->
  (forall audio_f32 call msg,
     let h := handle is_speech transcribe sessions
                (stream_push (Some sid) (u "pcm_s16le_b64") (audio_pcm audio_f32)) in
     call ∈ engine_calls h -> run_engine transcribe call = Raised msg ->
     response h = err msg
     /\ exists s',
          sessions_after h = <[sid := s']> sessions
          /\ s' = (push_audio is_speech s audio_f32).1
          /\ buffer_f32 s' = buffer_f32 s ++ audio_f32
          /\ same_but_counters (set_buffer_f32 (buffer_f32 s ++ audio_f32) s) s')
  /\ (forall call msg,
        let h := handle is_speech transcribe sessions
                   (stream_finalize (Some sid)) in
        call ∈ engine_calls h -> run_engine transcribe call = Raised msg ->
        response h = err msg
        /\ sessions_after h = delete sid sessions
        /\ sessions_after h !! sid = None).
Proof.
  intros Hsid Hlook. split.
  - intros audio_f32 call msg h Hin Hraise. subst h.
    unfold handle, handle_stream_push in *.
    rewrite (nonempty_true sid Hsid), Hlook in *.
    change (negb (str_eqb (u "pcm_s16le_b64") (u "pcm_s16le_b64")))
      with false in *.
    cbv iota in *.
    pose proof (session_push_raised is_speech transcribe sid s audio_f32
                  call msg) as Hr.
    destruct (session_push is_speech transcribe sid s audio_f32)
      as [[s' resp] calls].
    simpl in *. destruct (Hr Hin Hraise) as [-> ->].
    split; [done|]. eexists. split; [reflexivity|]. split; [done|].
    pose proof (push_audio_same is_speech s audio_f32) as Hsame.
    split; [|exact Hsame].
    by destruct Hsame as (_&_&_& -> &_).
  - intros call msg h Hin Hraise. subst h.
    unfold handle, handle_stream_finalize in *.
    rewrite (nonempty_true sid Hsid), Hlook in *. cbv zeta in *.
    destruct (0 <? length (buffer_f32 s))%nat.
    + destruct (run_engine transcribe (engine_call s (buffer_f32 s)))
        as [text|msg'] eqn:Hrun; cbn [engine_calls response sessions_after] in *;
        apply list_elem_of_singleton in Hin as ->.
      * congruence.
      * split; [congruence|]. split; [done|]. apply lookup_delete_eq.
    + destruct (nonempty (segments_text s));
        cbn [engine_calls] in Hin; by apply elem_of_nil in Hin.
Qed.

Lemma transcription_failure_state_witness :
  let sid := u "s1" in
  let s := default_session in
  let sessions : gmap (list N) StreamSession := {[ sid := s ]} in
  let chunk := replicate (Z.to_nat 480) 1000 ++ replicate (Z.to_nat 7200) 0 in
  let h := handle loud engine_down sessions
             (stream_push (Some sid) (u "pcm_s16le_b64") (audio_pcm chunk)) in
  let call := mkEngineCall chunk 16000 (Some (u "zh")) None in
  (sid <> [] /\ sessions !! sid = Some s)
  /\ call ∈ engine_calls h
  /\ response h = err (u "Model is not loaded. Call stream_start first.")
  /\ exists s', sessions_after h = <[sid := s']> sessions
                /\ buffer_f32 s' = buffer_f32 s ++ chunk.
Proof.
  intros sid s sessions chunk h call.
  assert (H1 : sid <> []) by (vm_compute; congruence).
  assert (H2 : sessions !! sid = Some s) by (vm_compute; reflexivity).
  assert (H3 : call ∈ engine_calls h) by (vm_compute; left).
  assert (H4 : run_engine engine_down call
               = Raised (u "Model is not loaded. Call stream_start first."))
    by reflexivity.
  destruct (transcription_failure_state loud engine_down sessions sid s H1 H2)
    as [Hpush _].
  destruct (Hpush chunk call _ H3 H4) as (Hresp & s' & Hafter & _ & Hbuf & _).
  split; [by split|]. split; [exact H3|]. split; [exact Hresp|].
  exists s'. by split.
Defined.

(** ** The command interpreter *)

(** C8 as stated fails: the table is not looked up on the key with the
    internal whitespace and punctuation removed.  The key of "换 行" is
    the entry "换行", yet the text is not a command; "Delete word." is a
    command, yet its key "deleteword" is no entry. *)
Lemma command_lookup_not_on_key :
  _command_key (u "换 行") = u "换行"
  /\ _command_actions (u "换 行") = None
  /\ _command_actions (_command_key (u "换 行")) = Some [insert [LF]]
  /\ lookup_command (_command_key (u "换 行")) = Some [insert [LF]]
  /\ _command_key (u "Delete word.") = u "deleteword"
  /\ _command_actions (u "Delete word.") = Some [delete_backward_word 1]
  /\ lookup_command (_command_key (u "Delete word.")) = None.
Proof. repeat split; vm_compute; reflexivity. Qed.

(** C8, as the code has it.  The interpreter trims the surrounding
    whitespace and punctuation and lower-cases the text; the command table
    and the punctuation names are looked up on that text, with its internal
    whitespace and punctuation kept.  Only the test for suppressed phrases
    uses the key from which all whitespace and the fixed punctuation set are
    removed. *)
Theorem command_lookup_on_trimmed (text : list N) :
  let t := lower (_clean_command_text text) in
  _command_actions text
  = if negb (nonempty t) then None
    else if str_in (_command_key t) _SUPPRESSED_KEYS then Some []
    else lookup_command t.
Proof.
  intros t. unfold _command_actions, _is_suppressed_phrase. fold t.
  destruct (negb (nonempty t)); [done|].
  destruct (str_in (_command_key t) _SUPPRESSED_KEYS); [done|].
  unfold lookup_command. cbv [table_lookup command_table].
  repeat match goal with
         | |- context [if str_in t ?l then _ else _] => destruct (str_in t l)
         end; reflexivity.
Qed.

(** Internal whitespace is significant in the table: "new line" and
    "newline" are both entries, "delete word" is one and "deleteword" is
    not. *)
Example command_table_spaces :
  _command_actions (u " New Line。") = Some [insert [LF]]
  /\ _command_actions (u "newline") = Some [insert [LF]]
  /\ _command_actions (u "delete word") = Some [delete_backward_word 1]
  /\ _command_actions (u "deleteword") = None
  /\ _command_actions (u "请优先使用简体中文 标点与表达，保留英文单词。") = Some [].
Proof. repeat split; vm_compute; reflexivity. Qed.

Lemma command_actions_nonempty (text : list N) (acts : list Action) :
  _command_actions text = Some acts -> text <> [].
Proof. intros H ->. vm_compute in H. discriminate. Qed.

(** C9. Command vs. insert disjointness: on a finalized transcript the
    interpreter answers either "not a command" ([None]), and then the
    normalized text is inserted (no action when it is empty) and is the
    committed text, or an action list ([Some], possibly empty), and then
    these are the actions and the committed text is empty; never both.
    Callers can tell the two apart, from the interpreter's result and from
    the response.  The command "换行" yields exactly [insert("\n")] with an
    empty committed text. *)
Theorem command_or_insert {sample : Type} (s : @StreamSession sample)
    (sid text : list N) (sp si : Z) :
  let t := _normalize_mixed_spacing text in
  let e := (final_update s text).2 in
  let final_actions r :=
    match r with ok_push p => push_actions p | _ => [] end in
  match _command_actions t with
  | Some acts =>
      actions e = acts /\ committed_text e = [] /\ emitted_text e = t
      /\ t <> []
  | None =>
      let n := _apply_tone_punctuation t in
      actions e = (if nonempty n then [insert n] else [])
      /\ committed_text e = n /\ emitted_text e = n
  end
  /\ final_actions (push_response sid true sp si e) = actions e
  /\ ((exists acts, _command_actions t = Some acts)
      <-> emitted_text e <> [] /\ committed_text e = [])
  /\ @None (list Action) <> Some []
  /\ _command_actions (u "换行") = Some [insert [LF]]
  /\ actions (final_update s (u "换行")).2 = [insert [LF]]
  /\ committed_text (final_update s (u "换行")).2 = [].
Proof.
  intros t e final_actions.
  assert (He : e = (final_update s text).2) by done.
  unfold final_update, finalize_text in He. fold t in He.
  assert (Hkind : emitted_kind e = kind_final)
    by apply (final_update_resets s text).
  split; [|split; [|split; [|split; [done|split; [|split]]]]].
  - destruct (_command_actions t) as [acts|] eqn:Hc; simpl in He; rewrite He;
      simpl.
    + repeat split. by apply command_actions_nonempty in Hc.
    + done.
  - subst final_actions. unfold push_response. simpl. by rewrite Hkind.
  - destruct (_command_actions t) as [acts|] eqn:Hc; simpl in He; rewrite He;
      simpl.
    + split; [|eauto]. intros _. split; [|done].
      by apply command_actions_nonempty in Hc.
    + split; [by intros [? ?]|]. intros [H1 H2]. congruence.
  - vm_compute. reflexivity.
  - unfold final_update. by vm_compute.
  - unfold final_update. by vm_compute.
Qed.

(** ** The text normalizer *)

Section PairFree.

Variables p q : N -> bool.

Lemma sub_pair_cons2 (a b : N) (rest : list N) :
  sub_pair p q (a :: b :: rest)
  = if p a && q b then a :: SPACE :: b :: sub_pair p q rest
    else a :: sub_pair p q (b :: rest).
Proof. reflexivity. Qed.

Lemma sub_pair_head (s : list N) : head (sub_pair p q s) = head s.
Proof.
  destruct s as [|a [|b rest]]; simpl; try done.
  by destruct (p a && q b).
Qed.

Lemma pair_free_cons (a : N) (s : list N) :
  pair_free p q (a :: s)
  = match head s with
    | Some b => negb (p a && q b)
    | None => true
    end && pair_free p q s.
Proof. destruct s as [|b s]; simpl; [done|]. done. Qed.

Lemma pair_free_app (l1 l2 : list N) :
  pair_free p q (l1 ++ l2)
  = pair_free p q l1 && pair_free p q l2
    && match last l1, head l2 with
       | Some a, Some b => negb (p a && q b)
       | _, _ => true
       end.
Proof.
  induction l1 as [|a l1 IH].
  - simpl. by rewrite andb_true_r.
  - change ((a :: l1) ++ l2) with (a :: (l1 ++ l2)).
    rewrite !pair_free_cons, IH.
    destruct l1 as [|a' l1].
    + simpl. destruct (head l2); simpl;
        [by destruct (pair_free p q l2), (negb _)|by rewrite andb_true_r].
    + change (last (a :: a' :: l1)) with (last (a' :: l1)). cbn [head].
      by rewrite !andb_assoc.
Qed.

(** After the substitution no pair is left. *)
Lemma sub_pair_free (s : list N) :
  (forall c, q c = true -> p c = false) -> p SPACE = false -> q SPACE = false ->
  pair_free p q (sub_pair p q s) = true.
Proof.
  intros Hdisj Hp Hq.
  assert (H : forall n s, (length s <= n)%nat ->
                          pair_free p q (sub_pair p q s) = true).
  { clear s. induction n as [|n IH]; intros s Hn.
    - by destruct s; [|simpl in Hn; lia].
    - destruct s as [|a [|b rest]]; [done|done|].
      simpl in Hn. rewrite sub_pair_cons2.
      destruct (p a && q b) eqn:Hab.
      + apply andb_true_iff in Hab as [Ha Hb].
        rewrite !pair_free_cons. cbn [head].
        rewrite Hq, Hp, andb_false_r. cbn [negb andb].
        rewrite sub_pair_head, (Hdisj b Hb).
        rewrite IH by lia. by destruct (head rest).
      + rewrite pair_free_cons, sub_pair_head. cbn [head].
        rewrite Hab. cbn [negb andb]. apply IH. simpl. lia. }
  by apply (H (length s)).
Qed.

(** On a text without pairs the substitution changes nothing. *)
Lemma sub_pair_id (s : list N) :
  pair_free p q s = true -> sub_pair p q s = s.
Proof.
  induction s as [|a s IH]; [done|].
  destruct s as [|b rest]; [done|].
  intros Hs. rewrite pair_free_cons in Hs. cbn [head] in Hs.
  apply andb_true_iff in Hs as [Hab Hs].
  rewrite sub_pair_cons2.
  apply negb_true_iff in Hab. rewrite Hab. f_equal. by apply IH.
Qed.

End PairFree.

(** The substitution keeps a text free of pairs of any kind that a space
    cannot be part of. *)
Lemma sub_pair_keeps (p q p' q' : N -> bool) (s : list N) :
  p' SPACE = false -> q' SPACE = false ->
  pair_free p' q' s = true -> pair_free p' q' (sub_pair p q s) = true.
Proof.
  intros Hp Hq.
  assert (H : forall n s, (length s <= n)%nat ->
                          pair_free p' q' s = true ->
                          pair_free p' q' (sub_pair p q s) = true).
  { clear s. induction n as [|n IH]; intros s Hn Hs.
    - by destruct s; [|simpl in Hn; lia].
    - destruct s as [|a [|b rest]]; [done|done|].
      simpl in Hn. rewrite sub_pair_cons2.
      rewrite pair_free_cons in Hs. cbn [head] in Hs.
      apply andb_true_iff in Hs as [Hab Hs].
      destruct (p a && q b).
      + rewrite !pair_free_cons. cbn [head].
        rewrite Hq, Hp, andb_false_r. cbn [negb andb].
        rewrite sub_pair_head.
        rewrite pair_free_cons in Hs. apply andb_true_iff in Hs as [Hb Hs].
        rewrite Hb. cbn [negb andb]. apply IH; [lia|done].
      + rewrite pair_free_cons, sub_pair_head. cbn [head].
        rewrite Hab. cbn [negb andb]. apply IH; [simpl; lia|done]. }
  by apply (H (length s)).
Qed.


(** *** Character classes *)

Lemma space_not_cjk (c : N) : is_space c = true -> is_cjk c = false.
Proof. intros H. class_facts H. Qed.

Lemma space_not_alnum (c : N) : is_space c = true -> is_ascii_alnum c = false.
Proof. intros H. class_facts H. Qed.

Lemma end_punct_not_cjk (c : N) : is_end_punct c = true -> is_cjk c = false.
Proof. intros H. class_facts H. Qed.

Lemma end_punct_not_alnum (c : N) :
  is_end_punct c = true -> is_ascii_alnum c = false.
Proof. intros H. class_facts H. Qed.

Lemma end_punct_not_space (c : N) : is_end_punct c = true -> is_space c = false.
Proof. intros H. class_facts H. Qed.

Lemma alnum_not_cjk (c : N) : is_ascii_alnum c = true -> is_cjk c = false.
Proof. intros H. class_facts H. Qed.

Lemma cjk_not_alnum (c : N) : is_cjk c = true -> is_ascii_alnum c = false.
Proof. intros H. class_facts H. Qed.

Lemma terminal_for_facts (question cjk : bool) :
  let p := terminal_for question cjk in
  is_end_punct p = true /\ is_space p = false /\ is_cjk p = false
  /\ is_ascii_alnum p = false /\ (p =? LF)%N = false.
Proof. destruct question, cjk; vm_compute; repeat split. Qed.

(** *** Stripping *)

Section Strip.

Variable p : N -> bool.

Lemma lstrip_by_decomp (s : list N) :
  exists l, s = l ++ lstrip_by p s /\ forallb p l = true.
Proof.
  induction s as [|c s (l & Hs & Hl)]; simpl.
  - by exists [].
  - destruct (p c) eqn:Hc.
    + exists (c :: l). simpl. rewrite Hc, Hl. split; [by f_equal|done].
    + by exists [].
Qed.

Lemma lstrip_by_head (s : list N) : head_ok p (lstrip_by p s).
Proof.
  induction s as [|c s IH]; simpl; [done|].
  destruct (p c) eqn:Hc; [done|]. simpl. done.
Qed.

Lemma lstrip_by_id (s : list N) : head_ok p s -> lstrip_by p s = s.
Proof. destruct s as [|c s]; simpl; [done|]. by intros ->. Qed.

Lemma forallb_rev' (l : list N) : forallb p (rev l) = forallb p l.
Proof.
  induction l as [|c l IH]; simpl; [done|].
  rewrite forallb_app, IH. simpl. rewrite andb_true_r. apply andb_comm.
Qed.

Lemma rstrip_by_decomp (s : list N) :
  exists l, s = rstrip_by p s ++ l /\ forallb p l = true.
Proof.
  unfold rstrip_by.
  destruct (lstrip_by_decomp (rev s)) as (l & Hs & Hl).
  exists (rev l). split.
  - rewrite <- rev_app_distr, <- Hs. by rewrite rev_involutive.
  - by rewrite forallb_rev'.
Qed.

Lemma rstrip_by_last (s : list N) : head_ok p (rev (rstrip_by p s)).
Proof. unfold rstrip_by. rewrite rev_involutive. apply lstrip_by_head. Qed.

Lemma rstrip_by_id (s : list N) : head_ok p (rev s) -> rstrip_by p s = s.
Proof.
  intros H. unfold rstrip_by. rewrite (lstrip_by_id _ H).
  apply rev_involutive.
Qed.

Lemma forallb_head (l : list N) (c : N) (rest : list N) :
  forallb p l = true -> l = c :: rest -> p c = true.
Proof. intros H ->. simpl in H. by apply andb_true_iff in H as [? _]. Qed.

Lemma rstrip_by_head (s : list N) : head_ok p s -> head_ok p (rstrip_by p s).
Proof.
  intros H. destruct (rstrip_by_decomp s) as (l & Hs & Hl).
  destruct (rstrip_by p s) as [|c r] eqn:Hr; [done|].
  simpl. rewrite Hs in H. by simpl in H.
Qed.

Lemma strip_by_stripped (s : list N) : stripped p (strip_by p s).
Proof.
  unfold stripped, strip_by. split.
  - apply rstrip_by_head, lstrip_by_head.
  - apply rstrip_by_last.
Qed.

Lemma stripped_id (s : list N) : stripped p s -> strip_by p s = s.
Proof.
  intros [H1 H2]. unfold strip_by.
  rewrite (lstrip_by_id _ H1). by apply rstrip_by_id.
Qed.

Lemma strip_by_decomp (s : list N) :
  exists l r, s = l ++ strip_by p s ++ r
              /\ forallb p l = true /\ forallb p r = true.
Proof.
  unfold strip_by.
  destruct (lstrip_by_decomp s) as (l & Hs & Hl).
  destruct (rstrip_by_decomp (lstrip_by p s)) as (r & Hs' & Hr).
  exists l, r. split; [|done]. by rewrite <- Hs', <- Hs.
Qed.

Lemma stripped_snoc (s : list N) (c : N) :
  s <> [] -> stripped p s -> p c = false -> stripped p (s ++ [c]).
Proof.
  intros Hne [H1 _] Hc. split.
  - destruct s; [done|]. done.
  - rewrite rev_app_distr. simpl. done.
Qed.

End Strip.

(** *** Tone and punctuation repair *)

Lemma has_cjk_app (l1 l2 : list N) :
  has_cjk (l1 ++ l2) = has_cjk l1 || has_cjk l2.
Proof. apply existsb_app. Qed.

Lemma has_cjk_none (p : N -> bool) (l : list N) :
  (forall c, p c = true -> is_cjk c = false) ->
  forallb p l = true -> has_cjk l = false.
Proof.
  intros Hp. induction l as [|c l IH]; simpl; [done|].
  intros [Hc Hl]%andb_true_iff. by rewrite (Hp c Hc), IH.
Qed.

Lemma adj_free_app (l1 l2 : list N) :
  adj_free (l1 ++ l2) = true -> adj_free l1 = true /\ adj_free l2 = true.
Proof.
  unfold adj_free. rewrite !pair_free_app, !andb_true_iff. tauto.
Qed.

Lemma adj_free_infix (l s r : list N) :
  adj_free (l ++ s ++ r) = true -> adj_free s = true.
Proof.
  intros H. apply adj_free_app in H as [_ H]. by apply adj_free_app in H as [H _].
Qed.

(** Inserting a character that is neither CJK nor an ASCII letter or digit
    creates no pair. *)
Lemma adj_free_insert (l1 l2 : list N) (c : N) :
  is_cjk c = false -> is_ascii_alnum c = false ->
  adj_free (l1 ++ l2) = true -> adj_free (l1 ++ c :: l2) = true.
Proof.
  intros Hc Ha. unfold adj_free.
  rewrite !pair_free_app, !pair_free_cons, !andb_true_iff.
  cbn [head]. rewrite Hc, Ha.
  intros [[[H1 H2] _] [[H3 H4] _]].
  repeat split; auto; try (by destruct (head l2));
    destruct (last l1); simpl; by rewrite ?andb_false_r.
Qed.

Lemma adj_free_snoc (l : list N) (c : N) :
  is_cjk c = false -> is_ascii_alnum c = false ->
  adj_free l = true -> adj_free (l ++ [c]) = true.
Proof.
  intros Hc Ha H. apply adj_free_insert; [done|done|]. by rewrite app_nil_r.
Qed.

Lemma spacing_adj_free (text : list N) :
  adj_free (_normalize_mixed_spacing text) = true.
Proof.
  unfold adj_free, _normalize_mixed_spacing. apply andb_true_iff. split.
  - apply sub_pair_keeps; [done|done|].
    apply sub_pair_free; [apply alnum_not_cjk|done|done].
  - apply sub_pair_free; [apply cjk_not_alnum|done|done].
Qed.

Lemma spacing_id (text : list N) :
  adj_free text = true -> _normalize_mixed_spacing text = text.
Proof.
  unfold adj_free, _normalize_mixed_spacing.
  intros [H1 H2]%andb_true_iff.
  rewrite (sub_pair_id _ _ _ H1). by apply sub_pair_id.
Qed.

(** On a stripped text [$] can only match at the very end. *)
Lemma trailing_punct_sub_stripped (t : list N) :
  head_ok is_space (rev t) ->
  re_trailing_punct_sub t = rstrip_by is_end_punct t.
Proof.
  unfold re_trailing_punct_sub, head_ok.
  destruct (rev t) as [|c r] eqn:Hrev.
  - intros _. unfold rstrip_by. by rewrite Hrev.
  - intros Hc. destruct (N.eqb_spec c LF) as [->|_]; [done|done].
Qed.

Lemma strip_strip (text : list N) : strip (strip text) = strip text.
Proof. apply stripped_id, strip_by_stripped. Qed.

(** The text around the base holds no CJK character. *)
Lemma tone_base_decomp (text : list N) :
  exists l r, strip text = l ++ tone_base text ++ r
              /\ has_cjk l = false /\ has_cjk r = false.
Proof.
  unfold tone_base.
  destruct (strip_by_stripped is_space text) as [_ Hlast].
  fold (strip text) in Hlast.
  rewrite (trailing_punct_sub_stripped _ Hlast).
  destruct (rstrip_by_decomp is_end_punct (strip text)) as (l1 & H1 & Hl1).
  destruct (strip_by_decomp is_space (rstrip_by is_end_punct (strip text)))
    as (l & r & H2 & Hl & Hr).
  fold (strip (rstrip_by is_end_punct (strip text))) in H2.
  exists l, (r ++ l1). split; [|split].
  - rewrite H1 at 1. rewrite H2 at 1. by rewrite <- !app_assoc.
  - by apply (has_cjk_none is_space); [apply space_not_cjk|].
  - rewrite has_cjk_app.
    rewrite (has_cjk_none is_space r space_not_cjk Hr).
    by rewrite (has_cjk_none is_end_punct l1 end_punct_not_cjk Hl1).
Qed.

Lemma tone_base_has_cjk (text : list N) :
  has_cjk (strip text) = has_cjk (tone_base text).
Proof.
  destruct (tone_base_decomp text) as (l & r & -> & Hl & Hr).
  rewrite !has_cjk_app, Hl, Hr. simpl. by rewrite orb_false_r.
Qed.

Lemma tone_base_adj_free (text : list N) :
  adj_free text = true -> adj_free (tone_base text) = true.
Proof.
  intros H.
  destruct (strip_by_decomp is_space text) as (l0 & r0 & H0 & _).
  fold (strip text) in H0.
  destruct (tone_base_decomp text) as (l & r & Ht & _).
  rewrite H0 in H. apply adj_free_infix in H.
  rewrite Ht in H. by apply adj_free_infix in H.
Qed.

Lemma strip_adj_free (text : list N) :
  adj_free text = true -> adj_free (strip text) = true.
Proof.
  intros H.
  destruct (strip_by_decomp is_space text) as (l0 & r0 & H0 & _).
  fold (strip text) in H0. rewrite H0 in H. by apply adj_free_infix in H.
Qed.

Lemma nonempty_iff (s : list N) : nonempty s = true <-> s <> [].
Proof. by destruct s. Qed.

Lemma comma_cases (b : list N) :
  _maybe_insert_cn_comma b = b
  \/ exists l1 l2, l1 <> [] /\ b = l1 ++ l2
                   /\ _maybe_insert_cn_comma b = l1 ++ 0xff0c%N :: l2.
Proof.
  unfold _maybe_insert_cn_comma.
  destruct (nonempty b) eqn:Hne; simpl; [|by left].
  destruct (has_cjk b); simpl; [|by left].
  destruct (existsb is_comma b); [by left|].
  destruct (length b <? 14)%nat; [by left|].
  destruct (search_any cn_connectors b) as [idx|]; [|by left].
  destruct (Nat.leb_spec idx 1) as [|Hidx]; [by left|].
  right. exists (take idx b), (drop idx b). split; [|split].
  - destruct b; [done|]. destruct idx; [lia|done].
  - by rewrite take_drop.
  - reflexivity.
Qed.

Lemma comma_facts (b : list N) :
  b <> [] -> stripped is_space b -> ends_with_end_punct b = false ->
  let b' := _maybe_insert_cn_comma b in
  b' <> [] /\ stripped is_space b' /\ ends_with_end_punct b' = false
  /\ _maybe_insert_cn_comma b' = b' /\ has_cjk b' = has_cjk b
  /\ (adj_free b = true -> adj_free b' = true).
Proof.
  intros Hne [Hhead Hlast] Hend b'. subst b'.
  destruct (comma_cases b) as [Heq|(l1 & l2 & Hl1 & Hb & Hc)].
  { rewrite !Heq. repeat split; auto. }
  rewrite Hc.
  assert (Hrev : rev (l1 ++ 0xff0c%N :: l2) = rev l2 ++ 0xff0c%N :: rev l1).
  { rewrite rev_app_distr. simpl. by rewrite <- app_assoc. }
  assert (Hrevb : rev b = rev l2 ++ rev l1) by (by rewrite Hb, rev_app_distr).
  unfold stripped, ends_with_end_punct, head_ok in *.
  rewrite Hrev. rewrite Hrevb in Hlast, Hend.
  repeat split.
  - by destruct l1.
  - destruct l1; [done|]. by rewrite Hb in Hhead.
  - by destruct (rev l2).
  - by destruct (rev l2).
  - unfold _maybe_insert_cn_comma.
    assert (Hcomma : existsb is_comma (l1 ++ 0xff0c%N :: l2) = true).
    { rewrite existsb_app. simpl. by rewrite orb_true_r. }
    rewrite Hcomma.
    destruct (nonempty _); simpl; [|done]. by destruct (has_cjk _).
  - rewrite Hb, !has_cjk_app. done.
  - rewrite Hb. by apply adj_free_insert.
Qed.

(** The two shapes of a result of [_apply_tone_punctuation]. *)
Lemma tone_cases (text : list N) :
  _apply_tone_punctuation text = strip text
  \/ (tone_base text <> []
      /\ _apply_tone_punctuation text
         = _maybe_insert_cn_comma (tone_base text)
           ++ [terminal_for
                 (_looks_like_question (_maybe_insert_cn_comma (tone_base text)))
                 (has_cjk (strip text))]).
Proof.
  unfold _apply_tone_punctuation. fold (tone_base text).
  destruct (nonempty (strip text)); simpl; [|by left].
  destruct (nonempty (tone_base text)) eqn:Hbase; simpl; [|by left].
  apply nonempty_iff in Hbase.
  destruct (_looks_like_question _) eqn:Hq.
  { right. split; [done|]. by destruct (has_cjk (strip text)). }
  destruct (re_end_punct_search (strip text)).
  - destruct (has_cjk (strip text)); simpl; [|by left].
    destruct (endswith (strip text) (u ".")); [|by left].
    right. by split.
  - right. split; [done|]. by destruct (has_cjk (strip text)).
Qed.

(** A base without trailing punctuation followed by its terminal
    punctuation is a fixed point. *)
Lemma tone_fixed (b : list N) :
  b <> [] -> stripped is_space b -> ends_with_end_punct b = false ->
  _maybe_insert_cn_comma b = b ->
  let r := b ++ [terminal_for (_looks_like_question b) (has_cjk b)] in
  _apply_tone_punctuation r = r.
Proof.
  intros Hne Hstr Hend Hcomma r.
  set (p := terminal_for (_looks_like_question b) (has_cjk b)) in *.
  destruct (terminal_for_facts (_looks_like_question b) (has_cjk b))
    as (Hp1 & Hp2 & Hp3 & Hp4 & Hp5). fold p in Hp1, Hp2, Hp3, Hp4, Hp5.
  assert (Hstrip : strip r = r).
  { apply stripped_id. by apply stripped_snoc. }
  assert (Hrev : rev r = p :: rev b).
  { subst r. by rewrite rev_app_distr. }
  assert (Hcjk : has_cjk r = has_cjk b).
  { subst r. rewrite has_cjk_app. simpl. by rewrite Hp3, !orb_false_r. }
  assert (Hsub : re_trailing_punct_sub r = b).
  { unfold re_trailing_punct_sub. rewrite Hrev, Hp5.
    unfold rstrip_by. rewrite Hrev. simpl. rewrite Hp1.
    rewrite lstrip_by_id; [apply rev_involutive|].
    unfold ends_with_end_punct in Hend. unfold head_ok.
    by destruct (rev b). }
  assert (Hbase : tone_base r = b).
  { unfold tone_base. rewrite Hstrip, Hsub. by apply stripped_id. }
  assert (Hsearch : re_end_punct_search r = true).
  { unfold re_end_punct_search. by rewrite Hrev, Hp1. }
  unfold _apply_tone_punctuation. fold (tone_base r).
  rewrite Hstrip, Hbase, Hcomma, Hcjk, Hsearch.
  assert (Hr : nonempty r = true) by (subst r; by destruct b).
  rewrite Hr, (proj2 (nonempty_iff b) Hne). simpl.
  subst r p. unfold terminal_for.
  destruct (_looks_like_question b).
  - by destruct (has_cjk b).
  - destruct (has_cjk b); simpl; [|done].
    unfold endswith. rewrite rev_app_distr. by simpl.
Qed.

Lemma tone_strip (text : list N) :
  _apply_tone_punctuation (strip text) = _apply_tone_punctuation text.
Proof. unfold _apply_tone_punctuation. by rewrite strip_strip. Qed.

Lemma tone_base_stripped (text : list N) : stripped is_space (tone_base text).
Proof. apply strip_by_stripped. Qed.

Lemma tone_idempotent (text : list N) :
  ends_with_end_punct (tone_base text) = false ->
  _apply_tone_punctuation (_apply_tone_punctuation text)
  = _apply_tone_punctuation text.
Proof.
  intros Hend. destruct (tone_cases text) as [H|[Hne H]].
  - rewrite H, tone_strip. exact H.
  - destruct (comma_facts (tone_base text) Hne (tone_base_stripped text) Hend)
      as (Hne' & Hstr & Hend' & Hcomma & Hcjk & _).
    rewrite H, tone_base_has_cjk, <- Hcjk.
    by apply tone_fixed.
Qed.

Lemma tone_adj_free (text : list N) :
  ends_with_end_punct (tone_base text) = false ->
  adj_free text = true -> adj_free (_apply_tone_punctuation text) = true.
Proof.
  intros Hend Hadj. destruct (tone_cases text) as [H|[Hne H]]; rewrite H.
  - by apply strip_adj_free.
  - destruct (comma_facts (tone_base text) Hne (tone_base_stripped text) Hend)
      as (_ & _ & _ & _ & _ & Hfree).
    destruct (terminal_for_facts
                (_looks_like_question (_maybe_insert_cn_comma (tone_base text)))
                (has_cjk (strip text))) as (_ & _ & Hc & Ha & _).
    apply adj_free_snoc; [done|done|].
    by apply Hfree, tone_base_adj_free.
Qed.

(** C4. Normalization idempotence (applying the finalized-text normalizer
    twice yields the same result as applying it once) fails on the
    transcript "吗. .": it is normalized to "吗.？", and normalizing that
    again gives "吗？".  The first pass strips only the last punctuation
    run, so the base "吗." keeps a full stop, which the second pass strips
    together with the question mark. *)
Lemma normalization_not_idempotent :
  normalize_final (u "吗. .") = u "吗.？"
  /\ normalize_final (normalize_final (u "吗. .")) = u "吗？"
  /\ normalize_final (normalize_final (u "吗. ."))
     <> normalize_final (u "吗. .").
Proof. repeat split; vm_compute; congruence. Qed.

(** Outside that case the normalizer is idempotent: applying it twice gives
    the same result as applying it once for every input whose base (the
    spaced text, stripped, without its trailing punctuation run, and
    stripped again) does not itself end in sentence-ending punctuation. *)
Theorem normalization_idempotent (text : list N) :
  ends_with_end_punct (tone_base (_normalize_mixed_spacing text)) = false ->
  normalize_final (normalize_final text) = normalize_final text.
Proof.
  intros Hend. unfold normalize_final.
  rewrite spacing_id.
  - by apply tone_idempotent.
  - apply tone_adj_free; [done|]. apply spacing_adj_free.
Qed.

Lemma normalization_idempotent_witness :
  let text := u "我今天去了公司ABC但是没有见到你们的人" in
  ends_with_end_punct (tone_base (_normalize_mixed_spacing text)) = false
  /\ normalize_final text = u "我今天去了公司 ABC ，但是没有见到你们的人。"
  /\ normalize_final (normalize_final text) = normalize_final text.
Proof.
  intros text.
  assert (H : ends_with_end_punct (tone_base (_normalize_mixed_spacing text))
              = false) by (vm_compute; reflexivity).
  split; [exact H|]. split; [vm_compute; reflexivity|].
  apply (normalization_idempotent text H).
Defined.

(** The three passes on ordinary transcripts. *)
Example normalize_final_examples :
  normalize_final (u "你好world") = u "你好 world。"
  /\ normalize_final (u "how are you") = u "how are you?"
  /\ normalize_final (u "今天天气好吗") = u "今天天气好吗？"
  /\ normalize_final (u "ok.") = u "ok."
  /\ normalize_final (u "好的.") = u "好的。"
  /\ normalize_final (u " ... ") = u "...".
Proof. repeat split; vm_compute; reflexivity. Qed.

(* ===================================================================== *)
(** * Further properties of the service *)
(* ===================================================================== *)

(** ** Boundary prefix *)

Lemma boundary_scan_spec (text : list N) (k : nat) :
  (k <= length text)%nat ->
  exists n,
    (n <= k)%nat /\ boundary_scan text k = take n text
    /\ (forall i c, (n <= i < k)%nat -> text !! i = Some c ->
                    mem c boundary_chars = false)
    /\ (n <> O -> exists c, text !! (n - 1)%nat = Some c
                            /\ mem c boundary_chars = true).
Proof.
  induction k as [|k IH]; intros Hk; cbn [boundary_scan].
  - exists O. repeat split; try done; intros; lia.
  - destruct (lookup_lt_is_Some_2 text k) as [ch Hch]; [lia|].
    rewrite Hch. destruct (mem ch boundary_chars) eqn:Hb.
    + exists (S k). repeat split; [lia|by rewrite Nat.add_1_r|intros; lia|].
      intros _. exists ch. split; [|done].
      by replace (S k - 1)%nat with k by lia.
    + destruct IH as (n & Hn & Hscan & Hnone & Hlast); [lia|].
      exists n. repeat split; [lia|done| |done].
      intros i c Hi Hc. destruct (decide (i = k)) as [->|Hne].
      * congruence.
      * apply (Hnone i c); [lia|done].
Qed.

(** X1. [_boundary_prefix] returns the longest prefix of the hypothesis that
    ends in a boundary character: the result is a prefix, what follows it
    holds no boundary character, and a non-empty result ends in one (so the
    result is empty exactly when the text has no boundary character). *)
Theorem boundary_prefix_longest (text : list N) :
  let r := _boundary_prefix text in
  exists rest,
    text = r ++ rest
    /\ forallb (fun c => negb (mem c boundary_chars)) rest = true
    /\ (r <> [] -> exists r' c, r = r' ++ [c] /\ mem c boundary_chars = true)
    /\ (r = [] <-> forallb (fun c => negb (mem c boundary_chars)) text = true).
Proof.
  intros r. subst r. unfold _boundary_prefix.
  destruct text as [|a text']; [by exists []|].
  set (text := a :: text'). cbn [nonempty negb].
  destruct (boundary_scan_spec text (length text)) as (n & Hn & -> & Hnone & Hlast);
    [lia|].
  assert (Hrest : forallb (fun c => negb (mem c boundary_chars)) (drop n text)
                  = true).
  { apply forallb_forall. intros c Hin.
    apply list_elem_of_In, list_elem_of_lookup in Hin as [i Hi].
    rewrite lookup_drop in Hi.
    apply negb_true_iff. apply (Hnone (n + i)%nat c); [|done].
    apply lookup_lt_Some in Hi. lia. }
  exists (drop n text). split; [symmetry; apply take_drop|]. split; [done|]. split.
  - intros Hne. destruct n as [|n]; [by rewrite take_0 in Hne|].
    destruct Hlast as (c & Hc & Hb); [done|].
    replace (S n - 1)%nat with n in Hc by lia.
    exists (take n text), c. split; [by apply take_S_r|done].
  - split.
    + intros Hnil. destruct n as [|n]; [by rewrite drop_0 in Hrest|].
      unfold text in Hnil. discriminate Hnil.
    + intros Hall. destruct n as [|n]; [done|].
      destruct Hlast as (c & Hc & Hb); [done|].
      rewrite forallb_forall in Hall.
      assert (Hin : In c text).
      { apply list_elem_of_In, list_elem_of_lookup. eauto. }
      apply Hall in Hin. by rewrite Hb in Hin.
Qed.

(** ** Mixed-language spacing *)

Lemma sub_pair_only_spaces (p q : N -> bool) (s : list N) :
  filter (fun c => c <> SPACE) (sub_pair p q s) = filter (fun c => c <> SPACE) s
  /\ (length s <= length (sub_pair p q s))%nat.
Proof.
  assert (H : forall n s, (length s <= n)%nat ->
              filter (fun c => c <> SPACE) (sub_pair p q s)
              = filter (fun c => c <> SPACE) s
              /\ (length s <= length (sub_pair p q s))%nat).
  { clear s. induction n as [|n IH]; intros s Hn.
    - destruct s; [done|simpl in Hn; lia].
    - destruct s as [|a [|b rest]]; [done|done|].
      simpl in Hn. rewrite sub_pair_cons2.
      destruct (p a && q b).
      + destruct (IH rest) as [Hf Hl]; [lia|].
        rewrite !(filter_cons _ a), (filter_cons _ SPACE), !(filter_cons _ b).
        rewrite Hf. split; [|simpl; lia].
        destruct (decide (SPACE <> SPACE)); [done|]. done.
      + destruct (IH (b :: rest)) as [Hf Hl]; [simpl; lia|].
        rewrite !(filter_cons _ a), Hf. split; [done|simpl in *; lia]. }
  by apply (H (length s)).
Qed.

(** X2. [_normalize_mixed_spacing] only inserts spaces: without its spaces
    the result is the text without its spaces, and it is never shorter.  In
    the result no CJK character touches an ASCII letter or digit, and
    spacing a spaced text again changes nothing. *)
Theorem spacing_only_inserts_spaces (text : list N) :
  let r := _normalize_mixed_spacing text in
  filter (fun c => c <> SPACE) r = filter (fun c => c <> SPACE) text
  /\ (length text <= length r)%nat
  /\ adj_free r = true
  /\ _normalize_mixed_spacing r = r.
Proof.
  intros r. subst r. split; [|split; [|split]].
  - unfold _normalize_mixed_spacing.
    destruct (sub_pair_only_spaces is_ascii_alnum is_cjk
                (sub_pair is_cjk is_ascii_alnum text)) as [-> _].
    apply sub_pair_only_spaces.
  - unfold _normalize_mixed_spacing.
    destruct (sub_pair_only_spaces is_ascii_alnum is_cjk
                (sub_pair is_cjk is_ascii_alnum text)) as [_ H1].
    destruct (sub_pair_only_spaces is_cjk is_ascii_alnum text) as [_ H2].
    lia.
  - apply spacing_adj_free.
  - apply spacing_id, spacing_adj_free.
Qed.

(** ** The comma pass *)

Lemma search_any_spec (alts : list (list N)) (s : list N) (idx : nat) :
  search_any alts s = Some idx ->
  existsb (startswith (drop idx s)) alts = true
  /\ forall j, (j < idx)%nat -> existsb (startswith (drop j s)) alts = false.
Proof.
  revert idx. induction s as [|c s IH]; intros idx; simpl.
  - destruct (existsb (startswith []) alts) eqn:H0; [|done].
    intros [= <-]. split; [done|]. intros; lia.
  - destruct (existsb (startswith (c :: s)) alts) eqn:H0.
    + intros [= <-]. split; [done|]. intros; lia.
    + destruct (search_any alts s) as [i|] eqn:Hs; [|done].
      simpl. intros [= <-]. destruct (IH i eq_refl) as [H1 H2].
      split; [done|]. intros [|j] Hj; [done|]. apply H2. lia.
Qed.

(** X3. [_maybe_insert_cn_comma] either returns the text unchanged or
    inserts exactly one full-width comma, immediately before the first
    clause connector of the text; it inserts only when that connector starts
    at position 2 or later and the text holds a CJK character, no comma,
    and at least 14 characters.  Running the pass again changes nothing. *)
Theorem comma_pass_spec (text : list N) :
  let r := _maybe_insert_cn_comma text in
  (r = text
   \/ exists idx,
        r = take idx text ++ 0xff0c%N :: drop idx text
        /\ (2 <= idx)%nat
        /\ existsb (startswith (drop idx text)) cn_connectors = true
        /\ (forall j, (j < idx)%nat ->
                      existsb (startswith (drop j text)) cn_connectors = false)
        /\ has_cjk text = true /\ existsb is_comma text = false
        /\ (14 <= length text)%nat)
  /\ _maybe_insert_cn_comma r = r.
Proof.
  intros r.
  assert (Hshape :
            r = text
            \/ exists idx,
                 r = take idx text ++ 0xff0c%N :: drop idx text
                 /\ (2 <= idx)%nat
                 /\ existsb (startswith (drop idx text)) cn_connectors = true
                 /\ (forall j, (j < idx)%nat ->
                       existsb (startswith (drop j text)) cn_connectors = false)
                 /\ has_cjk text = true /\ existsb is_comma text = false
                 /\ (14 <= length text)%nat).
  { subst r. unfold _maybe_insert_cn_comma.
    destruct (nonempty text); cbn [negb]; [|by left].
    destruct (has_cjk text); cbn [negb]; [|by left].
    destruct (existsb is_comma text); [by left|].
    destruct (Nat.ltb_spec (length text) 14); [by left|].
    destruct (search_any cn_connectors text) as [idx|] eqn:Hs; [|by left].
    destruct (Nat.leb_spec idx 1); [by left|].
    right. exists idx. destruct (search_any_spec _ _ _ Hs) as [H1 H2].
    repeat split; auto; lia. }
  split; [exact Hshape|].
  destruct Hshape as [H|(idx & H & _)]; [rewrite H; exact H|].
  rewrite H. unfold _maybe_insert_cn_comma.
  assert (Hc : existsb is_comma (take idx text ++ 0xff0c%N :: drop idx text)
               = true).
  { rewrite existsb_app. cbn [existsb]. by rewrite orb_true_r. }
  rewrite Hc. destruct (nonempty _); cbn [negb]; [|done].
  by destruct (has_cjk _).
Qed.

(** ** Shape of a normalized text *)

Lemma comma_keeps_stripped (b : list N) :
  b <> [] -> stripped is_space b ->
  let b' := _maybe_insert_cn_comma b in
  b' <> [] /\ stripped is_space b'.
Proof.
  intros Hne [Hhead Hlast] b'. subst b'.
  destruct (comma_cases b) as [Heq|(l1 & l2 & Hl1 & Hb & Hc)].
  { rewrite Heq. by split. }
  rewrite Hc. split; [by destruct l1|].
  unfold stripped, head_ok in *. split.
  - destruct l1; [done|]. by rewrite Hb in Hhead.
  - rewrite rev_app_distr. cbn [rev]. rewrite <- app_assoc. cbn [app].
    rewrite Hb, rev_app_distr in Hlast. by destruct (rev l2).
Qed.

Lemma snoc_shape (b : list N) (p : N) :
  b <> [] -> stripped is_space b ->
  is_space p = false -> is_end_punct p = true ->
  stripped is_space (b ++ [p]) /\ b ++ [p] <> []
  /\ ends_with_end_punct (b ++ [p]) = true.
Proof.
  intros Hne Hstr Hsp Hp. split; [by apply stripped_snoc|].
  split; [by destruct b|].
  unfold ends_with_end_punct. by rewrite rev_app_distr.
Qed.

(** X4. The result of [_apply_tone_punctuation] has no whitespace at either
    end; it is empty exactly when the text is blank, and otherwise it ends
    in sentence-ending punctuation. *)
Theorem tone_result_shape (text : list N) :
  let r := _apply_tone_punctuation text in
  stripped is_space r
  /\ (r = [] <-> strip text = [])
  /\ (r <> [] -> ends_with_end_punct r = true).
Proof.
  intros r.
  pose proof (strip_by_stripped is_space text) as Ht. fold (strip text) in Ht.
  assert (Hcases :
            (strip text = [] /\ r = [])
            \/ (strip text <> [] /\ r = strip text
                /\ ends_with_end_punct (strip text) = true)
            \/ (exists b p, r = b ++ [p] /\ b <> [] /\ stripped is_space b
                            /\ is_space p = false /\ is_end_punct p = true
                            /\ strip text <> [])).
  { subst r. unfold _apply_tone_punctuation. fold (tone_base text).
    destruct (strip text) as [|c0 t0] eqn:Hstrip; [by left|].
    rewrite <- Hstrip in *. assert (Hne : strip text <> []) by congruence.
    rewrite (nonempty_true _ Hne). cbn [negb]. right.
    destruct (nonempty (tone_base text)) eqn:Hbase; cbn [negb].
    - apply nonempty_iff in Hbase.
      pose proof (tone_base_stripped text) as Hb.
      destruct (comma_keeps_stripped _ Hbase Hb) as [Hne' Hstr'].
      destruct (_looks_like_question _).
      { destruct (has_cjk (strip text)); right; eexists _, _;
          (split; [reflexivity|]);
          (split; [exact Hne'|split; [exact Hstr'|split;
             [reflexivity|split; [reflexivity|exact Hne]]]]). }
      destruct (re_end_punct_search (strip text)) eqn:Hsearch.
      + destruct (has_cjk (strip text) && endswith (strip text) (u ".")).
        * right. eexists _, _.
          split; [reflexivity|].
          split; [exact Hne'|split; [exact Hstr'|split;
            [reflexivity|split; [reflexivity|exact Hne]]]].
        * left. repeat split; [done|].
          unfold re_end_punct_search in Hsearch. unfold ends_with_end_punct.
          destruct Ht as [_ Hlast]. unfold head_ok in Hlast.
          destruct (rev (strip text)) as [|c r]; [done|].
          destruct (is_end_punct c); [done|]. simpl in Hsearch.
          destruct (N.eqb_spec c LF) as [->|]; [done|done].
      + destruct (has_cjk (strip text)); right; eexists _, _;
          (split; [reflexivity|]);
          (split; [exact Hne'|split; [exact Hstr'|split;
             [reflexivity|split; [reflexivity|exact Hne]]]]).
    - left. repeat split; [done|].
      destruct (nonempty_iff (tone_base text)) as [_ Hn].
      assert (Hnil : tone_base text = []).
      { destruct (tone_base text); [done|]. discriminate Hbase. }
      unfold tone_base in Hnil.
      destruct Ht as [Hhead Hlast].
      rewrite (trailing_punct_sub_stripped _ Hlast) in Hnil.
      unfold ends_with_end_punct.
      destruct (rev (strip text)) as [|c r] eqn:Hrev.
      { apply (f_equal (@rev N)) in Hrev. rewrite rev_involutive in Hrev.
        done. }
      destruct (is_end_punct c) eqn:Hc; [done|].
      rewrite rstrip_by_id in Hnil; [|unfold head_ok; by rewrite Hrev].
      fold (strip (strip text)) in Hnil. by rewrite strip_strip in Hnil. }
  destruct Hcases as [[H1 H2]|[(H1 & H2 & H3)|(b & p & H1 & H2 & H3 & H4 & H5 & H6)]].
  - rewrite H2. repeat split; done.
  - rewrite H2. split; [done|]. split; [|done]. split; congruence.
  - destruct (snoc_shape b p H2 H3 H4 H5) as (Hs1 & Hs2 & Hs3).
    rewrite H1. split; [done|]. split; [|done]. split; [done|].
    intros Hnil. by rewrite Hnil in H6.
Qed.

(** ** The command key *)







(** ** Recognized commands *)

Lemma punct_map_single (t p : list N) :
  dict_get punct_map t = Some p -> length p = 1%nat.
Proof.
  unfold punct_map. cbn [dict_get].
  repeat (destruct (str_eqb t _); [intros [= <-]; reflexivity|]).
  done.
Qed.

(** X6. A recognized command yields at most one action.  It yields none
    exactly for a suppressed phrase; otherwise the single action is never a
    composition update, an insert carries exactly one character, and a
    deletion has count 1. *)
Theorem command_actions_shape (text : list N) (acts : list Action) :
  _command_actions text = Some acts ->
  (acts = []
   /\ _is_suppressed_phrase (lower (_clean_command_text text)) = true)
  \/ (exists a,
        acts = [a]
        /\ _is_suppressed_phrase (lower (_clean_command_text text)) = false
        /\ match a with
           | insert t => length t = 1%nat
           | delete_backward n | delete_backward_word n
           | delete_backward_sentence n => n = 1
           | system_undo | system_redo | clear => True
           | set_composition _ => False
           end).
Proof.
  unfold _command_actions.
  set (t := lower (_clean_command_text text)).
  destruct (negb (nonempty t)); [done|].
  destruct (_is_suppressed_phrase t); [intros [= <-]; by left|].
  repeat match goal with
         | |- context [if str_in t ?l then _ else _] =>
             destruct (str_in t l);
             [intros [= <-]; right; eexists; by repeat split|]
         end.
  destruct (dict_get punct_map t) as [p|] eqn:Hp; [|done].
  intros [= <-]. right. eexists. split; [done|]. split; [done|].
  by apply (punct_map_single t).
Qed.

Lemma command_actions_shape_witness :
  _command_actions (u " Backspace! ") = Some [delete_backward 1]
  /\ exists a, [delete_backward 1] = [a] /\ a <> set_composition [].
Proof.
  assert (H : _command_actions (u " Backspace! ") = Some [delete_backward 1])
    by (vm_compute; reflexivity).
  split; [exact H|].
  destruct (command_actions_shape _ _ H) as [[Hnil _]|(a & Ha & _ & Hshape)];
    [discriminate Hnil|].
  exists a. split; [exact Ha|]. intros ->. exact Hshape.
Defined.

(** ** One push, case by case *)

Section PushCases.

Context {sample : Type}.
Variable is_speech : list sample -> bool.
Variable transcribe :
  list sample -> Z -> option (list N) -> option (list N) -> outcome (list N).

Lemma push_audio_counters (s : @StreamSession sample) (audio_f32 : list sample)
    (e : bool) (sp si : Z) :
  (push_audio is_speech s audio_f32).2 = Returned (e, sp, si) ->
  sp = speech_frames (push_audio is_speech s audio_f32).1
  /\ si = silence_frames (push_audio is_speech s audio_f32).1.
Proof.
  unfold push_audio.
  destruct (length audio_f32 =? 0)%nat; [by intros [= _ <- <-]|].
  destruct (ms_to_samples _ _) as [fl|msg]; [|done].
  destruct (fl <=? 0); [by intros [= _ <- <-]|].
  destruct (_ <=? 0); [by intros [= _ <- <-]|].
  destruct (vad_loop _ _ _ _) as [s1 e1]. by intros [= _ <- <-].
Qed.

(** What a push can do, from the session [s1] that [push_audio] leaves. *)
Lemma session_push_inv (sid : list N) (s : @StreamSession sample)
    (audio_f32 : list sample) :
  let r := session_push is_speech transcribe sid s audio_f32 in
  let s1 := (push_audio is_speech s audio_f32).1 in
  let size := Z.of_nat (length (buffer_f32 s1)) in
  let sp := speech_frames s1 in
  let si := silence_frames s1 in
  (r.2 = []
   /\ (r.1.1 = s1 \/ r.1.1 = set_last_partial_samples size s1)
   /\ ((exists msg, r.1.2 = err msg)
       \/ r.1.2 = push_response sid false sp si emit_none))
  \/ (exists call msg,
        r.2 = [call] /\ run_engine transcribe call = Raised msg
        /\ (call = engine_call s1 (partial_window s1)
            \/ call = engine_call s1 (buffer_f32 s1))
        /\ r.1.1 = s1 /\ r.1.2 = err msg)
  \/ (exists text,
        r.2 = [engine_call s1 (partial_window s1)]
        /\ run_engine transcribe (engine_call s1 (partial_window s1))
           = Returned text
        /\ let pu := if nonempty text then partial_update s1 text
                     else (s1, emit_none) in
           r.1.1 = set_last_partial_samples size pu.1
           /\ r.1.2 = push_response sid false sp si pu.2)
  \/ (exists text,
        r.2 = [engine_call s1 (buffer_f32 s1)]
        /\ run_engine transcribe (engine_call s1 (buffer_f32 s1))
           = Returned text
        /\ r.1.1 = (final_update s1 text).1
        /\ r.1.2 = push_response sid true sp si (final_update s1 text).2).
Proof.
  unfold session_push.
  pose proof (push_audio_counters s audio_f32) as Hcount.
  destruct (push_audio is_speech s audio_f32) as [s1 [[[e sp] si]|msg]];
    cbn [fst snd] in *.
  2: { left. split; [done|]. split; [by left|]. left. by eexists. }
  destruct (Hcount e sp si eq_refl) as [-> ->].
  destruct (negb e && (0 <? speech_frames s1)) eqn:Hpartial.
  - apply andb_true_iff in Hpartial as [He%negb_true_iff _]. subst e.
    destruct (speech_frames s1 * frame_ms s1 <? min_partial_speech_ms s1).
    { left. split; [done|]. split; [by right|]. by right. }
    destruct (ms_to_samples _ _) as [interval|msg].
    2: { left. split; [done|]. split; [by left|]. left. by eexists. }
    destruct ((0 <? interval) && _).
    2: { left. split; [done|]. split; [by left|]. by right. }
    fold (partial_window s1).
    destruct (run_engine transcribe (engine_call s1 (partial_window s1)))
      as [text|msg] eqn:Hrun.
    + right. right. left. exists text.
      split; [|split; [first [exact Hrun|reflexivity]|]].
      * by destruct (if nonempty text then _ else _).
      * by destruct (if nonempty text then _ else _).
    + right. left. exists (engine_call s1 (partial_window s1)), msg.
      repeat split; auto.
  - destruct e.
    + destruct (run_engine transcribe (engine_call s1 (buffer_f32 s1)))
        as [text|msg] eqn:Hrun.
      * right. right. right. exists text.
        split; [|split; [first [exact Hrun|reflexivity]|]].
        -- by destruct (final_update s1 text).
        -- by destruct (final_update s1 text).
      * right. left. exists (engine_call s1 (buffer_f32 s1)), msg.
        repeat split; auto.
    + left. split; [done|]. split; [by left|]. by right.
Qed.

End PushCases.

Section PushEffects.

Context {sample : Type}.
Variable is_speech : list sample -> bool.
Variable transcribe :
  list sample -> Z -> option (list N) -> option (list N) -> outcome (list N).

Lemma same_config_refl (s : @StreamSession sample) : same_config s s.
Proof. unfold same_config. tauto. Qed.

Lemma same_config_trans (s1 s2 s3 : @StreamSession sample) :
  same_config s1 s2 -> same_config s2 s3 -> same_config s1 s3.
Proof. unfold same_config. intuition congruence. Qed.

(** What [partial_update] leaves alone. *)
Lemma partial_update_keeps (s : @StreamSession sample) (text : list N) :
  let s' := (partial_update s text).1 in
  same_config s s' /\ buffer_f32 s' = buffer_f32 s
  /\ speech_frames s' = speech_frames s
  /\ silence_frames s' = silence_frames s
  /\ segments_text s' = segments_text s
  /\ last_partial_samples s' = last_partial_samples s.
Proof.
  unfold partial_update, same_config.
  repeat match goal with
         | |- context [if ?c then _ else _] => destruct c
         end; cbn; tauto.
Qed.

Lemma final_update_effect (s : @StreamSession sample) (text : list N) :
  let r := final_update s text in
  same_config s r.1 /\ utterance_cleared r.1
  /\ emitted_kind r.2 = kind_final
  /\ segments_text r.1
     = (if nonempty (emitted_text r.2) then emitted_text r.2
        else segments_text s).
Proof.
  unfold final_update, same_config, utterance_cleared.
  destruct (finalize_text text) as [[t a] c].
  destruct (nonempty t) eqn:Ht; cbn; rewrite ?Ht; tauto.
Qed.

(** The frame counters after [push_audio], from the flags of the frames it
    analysed. *)
Lemma push_audio_counts (s : @StreamSession sample) (audio_f32 : list sample) :
  let s1 := (push_audio is_speech s audio_f32).1 in
  exists flags : list bool,
    speech_frames s1 = speech_frames s + speech_count flags
    /\ silence_frames s1
       = (if decide (speech_count flags = 0)
          then silence_frames s + Z.of_nat (length flags)
          else trailing_silence flags).
Proof.
  unfold push_audio.
  assert (Hnone : forall s0 : @StreamSession sample,
             speech_frames s0 = speech_frames s ->
             silence_frames s0 = silence_frames s ->
             exists flags : list bool,
               speech_frames s0 = speech_frames s + speech_count flags
               /\ silence_frames s0
                  = (if decide (speech_count flags = 0)
                     then silence_frames s + Z.of_nat (length flags)
                     else trailing_silence flags)).
  { intros s0 H1 H2. exists []. simpl. split; lia. }
  destruct (length audio_f32 =? 0)%nat; [by apply Hnone|].
  destruct (ms_to_samples _ _) as [fl|msg]; [|by apply Hnone].
  destruct (fl <=? 0); [by apply Hnone|].
  destruct (_ <=? 0); [by apply Hnone|].
  pose proof (vad_loop_counters_from is_speech
                (set_buffer_f32 (buffer_f32 s ++ audio_f32) s) false
                (frames_of audio_f32 fl)) as [H1 H2].
  destruct (vad_loop _ _ _ _) as [s1 e1]. cbn [fst snd] in *.
  exists (map is_speech (frames_of audio_f32 fl)).
  by rewrite length_map.
Qed.

Lemma push_audio_buffer (s : @StreamSession sample) (audio_f32 : list sample) :
  let s1 := (push_audio is_speech s audio_f32).1 in
  buffer_f32 s1 = buffer_f32 s ++ audio_f32 /\ same_config s s1
  /\ segments_text s1 = segments_text s
  /\ last_partial_samples s1 = last_partial_samples s
  /\ prefix_streak s1 = prefix_streak s
  /\ last_prefix_candidate s1 = last_prefix_candidate s
  /\ committed_prefix s1 = committed_prefix s
  /\ last_emitted_text s1 = last_emitted_text s.
Proof.
  clear transcribe.
  pose proof (push_audio_same is_speech s audio_f32) as H.
  unfold same_but_counters, same_config in *. cbn in H. intuition congruence.
Qed.

(** X7. A push never changes the configuration of its session.  When its
    response is final the whole utterance state is cleared together and the
    final text, if not empty, is cached; otherwise the pushed samples are
    appended to the buffer, the cache is kept, and the count of speech
    frames does not decrease. *)
Theorem push_effect (sid : list N) (s : @StreamSession sample)
    (audio_f32 : list sample) :
  let r := session_push is_speech transcribe sid s audio_f32 in
  let s' := r.1.1 in
  same_config s s'
  /\ (forall p, r.1.2 = ok_push p -> push_kind p = kind_final ->
        utterance_cleared s'
        /\ segments_text s'
           = (if nonempty (push_text p) then push_text p else segments_text s))
  /\ (is_final_response r.1.2 = false ->
        buffer_f32 s' = buffer_f32 s ++ audio_f32
        /\ segments_text s' = segments_text s
        /\ speech_frames s <= speech_frames s').
Proof.
  intros r s'. subst r s'.
  pose proof (push_audio_buffer s audio_f32)
    as (Hbuf & Hcfg & Hseg & _).
  destruct (push_audio_counts s audio_f32) as (flags & Hsp & _).
  pose proof (speech_count_nonneg flags) as Hnn.
  destruct (session_push_inv is_speech transcribe sid s audio_f32)
    as [(_ & Hs & Hr)|[(call & msg & _ & _ & _ & Hs & Hr)
       |[(text & _ & _ & Hs & Hr)|(text & _ & _ & Hs & Hr)]]].
  - split; [|split].
    + destruct Hs as [->| ->]; [done|]. exact Hcfg.
    + intros p Hp Hk. exfalso.
      destruct Hr as [[msg Hr]|Hr]; rewrite Hr in Hp; [done|].
      injection Hp as <-. discriminate Hk.
    + intros _. destruct Hs as [->| ->]; cbn; repeat split; auto; lia.
  - rewrite Hs, Hr. split; [done|]. split; [done|].
    intros _. repeat split; auto; lia.
  - cbv zeta in Hs, Hr.
    assert (Hpu : same_config s
                    (if nonempty text
                     then partial_update (push_audio is_speech s audio_f32).1 text
                     else ((push_audio is_speech s audio_f32).1, emit_none)).1
                  /\ buffer_f32 (if nonempty text
                     then partial_update (push_audio is_speech s audio_f32).1 text
                     else ((push_audio is_speech s audio_f32).1, emit_none)).1
                     = buffer_f32 s ++ audio_f32
                  /\ segments_text (if nonempty text
                     then partial_update (push_audio is_speech s audio_f32).1 text
                     else ((push_audio is_speech s audio_f32).1, emit_none)).1
                     = segments_text s
                  /\ speech_frames s <= speech_frames (if nonempty text
                     then partial_update (push_audio is_speech s audio_f32).1 text
                     else ((push_audio is_speech s audio_f32).1, emit_none)).1
                  /\ emitted_kind (if nonempty text
                     then partial_update (push_audio is_speech s audio_f32).1 text
                     else ((push_audio is_speech s audio_f32).1, emit_none)).2
                     <> kind_final).
    { destruct (nonempty text); cbn [fst snd].
      - pose proof (partial_update_keeps (push_audio is_speech s audio_f32).1 text)
          as (H1 & H2 & H3 & _ & H5 & _).
        pose proof (partial_update_kind (push_audio is_speech s audio_f32).1 text).
        split; [by eapply same_config_trans|].
        rewrite H2, H3, H5. repeat split; auto; lia.
      - split; [exact Hcfg|]. split; [exact Hbuf|]. split; [exact Hseg|].
        split; [lia|done]. }
    destruct Hpu as (H1 & H2 & H3 & H4 & H5).
    rewrite Hs, Hr. split; [exact H1|]. split.
    + intros p [= <-] Hk. cbn in Hk. done.
    + intros _. cbn. auto.
  - pose proof (final_update_effect (push_audio is_speech s audio_f32).1 text)
      as (H1 & H2 & H3 & H4).
    rewrite Hs, Hr. split; [by eapply same_config_trans|]. split.
    + intros p [= <-] _. cbn [push_text]. split; [exact H2|].
      by rewrite H4, Hseg.
    + unfold push_response, is_final_response. cbn. by rewrite H3.
Qed.

End PushEffects.

(** ** Invariants along a session *)

Section SessionInvariants.

Context {sample : Type}.
Variable is_speech : list sample -> bool.
Variable transcribe :
  list sample -> Z -> option (list N) -> option (list N) -> outcome (list N).

Lemma partial_update_streak (s : @StreamSession sample) (text : list N) :
  0 <= prefix_streak s ->
  (last_prefix_candidate s = [] <-> prefix_streak s = 0) ->
  let s' := (partial_update s text).1 in
  0 <= prefix_streak s'
  /\ (last_prefix_candidate s' = [] <-> prefix_streak s' = 0).
Proof.
  intros Hnn Hiff. unfold partial_update, str_eqb.
  destruct (nonempty (_boundary_prefix text)) eqn:Hc; cbn [andb].
  - destruct (bool_decide_reflect
                (_boundary_prefix text = last_prefix_candidate s)) as [He|He].
    + assert (Hlast : last_prefix_candidate s <> []).
      { rewrite <- He. by apply nonempty_iff. }
      repeat match goal with
             | |- context [if ?c then _ else _] => destruct c
             end; cbn; (split; [lia|]); split; intros; try done; lia.
    + apply nonempty_iff in Hc.
      repeat match goal with
             | |- context [if ?c then _ else _] => destruct c
             end; cbn; (split; [lia|]); split; intros; try done; lia.
  - assert (Hnil : _boundary_prefix text = []).
    { destruct (_boundary_prefix text); [done|discriminate Hc]. }
    repeat match goal with
           | |- context [if ?c then _ else _] => destruct c
           end; cbn; rewrite ?Hnil; (split; [lia|]); split; intros; try done.
Qed.

Lemma counters_wf_push (sid : list N) (s : @StreamSession sample)
    (audio_f32 : list sample) :
  counters_wf s ->
  counters_wf (session_push is_speech transcribe sid s audio_f32).1.1.
Proof.
  intros (Hsp & Hsi & Hlps & Hstreak & Hiff).
  pose proof (push_audio_buffer is_speech s audio_f32)
    as (Hbuf & _ & _ & Hl & Hps & Hlc & _).
  destruct (push_audio_counts is_speech s audio_f32) as (flags & Hc1 & Hc2).
  pose proof (speech_count_nonneg flags) as Hnn.
  pose proof (trailing_silence_nonneg flags) as Htn.
  set (s1 := (push_audio is_speech s audio_f32).1) in *.
  assert (Hwf1 : counters_wf s1).
  { unfold counters_wf. rewrite Hc1, Hc2, Hl, Hps, Hlc, Hbuf, length_app.
    repeat split; try lia; try tauto.
    destruct (decide (speech_count flags = 0)); lia. }
  destruct Hwf1 as (H1 & H2 & H3 & H4 & H5).
  destruct (session_push_inv is_speech transcribe sid s audio_f32)
    as [(_ & Hs & _)|[(call & msg & _ & _ & _ & Hs & _)
       |[(text & _ & _ & Hs & _)|(text & _ & _ & Hs & _)]]];
    fold s1 in Hs.
  - destruct Hs as [->| ->]; unfold counters_wf; cbn;
      repeat split; try lia; tauto.
  - rewrite Hs. unfold counters_wf. repeat split; try lia; tauto.
  - cbv zeta in Hs. rewrite Hs. destruct (nonempty text); cbn [fst].
    + pose proof (partial_update_keeps s1 text) as (_ & K1 & K2 & K3 & _).
      destruct (partial_update_streak s1 text H4 H5) as [K4 K5].
      unfold counters_wf. cbn. rewrite K1, K2, K3.
      repeat split; try lia; tauto.
    + unfold counters_wf. cbn. repeat split; try lia; tauto.
  - pose proof (final_update_effect s1 text)
      as (_ & (K1 & K2 & K3 & _ & K5 & _ & K7 & K8) & _).
    rewrite Hs. unfold counters_wf. rewrite K1, K2, K3, K5, K7, K8.
    cbn. repeat split; try lia; done.
Qed.

(** X8. In every state a session reaches from [stream_start] by pushes, the
    two frame counters are natural numbers, the partial-analysis mark lies
    between 0 and the buffer length, and the repeat streak is a natural
    number that is 0 exactly when no candidate prefix is remembered. *)
Theorem counters_wf_reachable (sid : list N) (sample_rate_hz : Z)
    (language prompt : option (list N))
    (partial_interval_ms max_partial_context_s min_partial_speech_ms
       end_silence_ms : Z) (chunks : list (list sample)) :
  counters_wf
    (push_all is_speech transcribe sid
       (new_session sample_rate_hz language prompt partial_interval_ms
          max_partial_context_s min_partial_speech_ms end_silence_ms)
       chunks).1.
Proof.
  assert (H : forall (chunks : list (list sample)) (s : @StreamSession sample),
             counters_wf s ->
             counters_wf (push_all is_speech transcribe sid s chunks).1).
  { clear chunks. induction chunks as [|a rest IH]; intros s Hs; [done|].
    cbn [push_all].
    pose proof (counters_wf_push sid s a Hs) as Hstep.
    destruct (session_push is_speech transcribe sid s a) as [[s1 r1] c1].
    specialize (IH s1 Hstep).
    by destruct (push_all is_speech transcribe sid s1 rest). }
  apply H. unfold counters_wf. cbn. repeat split; lia.
Qed.

Lemma boundary_prefix_ends (text : list N) :
  ends_at_boundary (_boundary_prefix text).
Proof.
  unfold _boundary_prefix, ends_at_boundary.
  destruct (nonempty text); cbn [negb]; [|done].
  destruct (boundary_scan_spec text (length text)) as (n & Hn & -> & _ & Hlast);
    [lia|].
  destruct n as [|n]; [by rewrite take_0|].
  destruct Hlast as (c & Hc & Hb); [done|].
  replace (S n - 1)%nat with n in Hc by lia.
  by rewrite (take_S_r _ _ _ Hc), rev_app_distr.
Qed.

Lemma boundary_push (sid : list N) (s : @StreamSession sample)
    (audio_f32 : list sample) :
  ends_at_boundary (committed_prefix s) ->
  ends_at_boundary
    (committed_prefix (session_push is_speech transcribe sid s audio_f32).1.1).
Proof.
  intros Hb.
  pose proof (push_audio_buffer is_speech s audio_f32)
    as (_ & _ & _ & _ & _ & _ & Hcp & _).
  set (s1 := (push_audio is_speech s audio_f32).1) in *.
  destruct (session_push_inv is_speech transcribe sid s audio_f32)
    as [(_ & Hs & _)|[(call & msg & _ & _ & _ & Hs & _)
       |[(text & _ & _ & Hs & _)|(text & _ & _ & Hs & _)]]];
    fold s1 in Hs.
  - destruct Hs as [->| ->]; cbn; by rewrite Hcp.
  - by rewrite Hs, Hcp.
  - cbv zeta in Hs. rewrite Hs. destruct (nonempty text); cbn.
    + destruct (partial_update_shape s1 text) as [[->|(-> & _)] _].
      * by rewrite Hcp.
      * apply boundary_prefix_ends.
    + by rewrite Hcp.
  - pose proof (final_update_effect s1 text)
      as (_ & (_ & _ & _ & _ & _ & K & _) & _).
    by rewrite Hs, K.
Qed.

(** X9. In every state a session reaches from [stream_start] by pushes, the
    committed stable prefix is empty or ends in a boundary character: text
    is only ever locked up to a natural boundary. *)
Theorem committed_prefix_at_boundary (sid : list N) (sample_rate_hz : Z)
    (language prompt : option (list N))
    (partial_interval_ms max_partial_context_s min_partial_speech_ms
       end_silence_ms : Z) (chunks : list (list sample)) :
  ends_at_boundary
    (committed_prefix
       (push_all is_speech transcribe sid
          (new_session sample_rate_hz language prompt partial_interval_ms
             max_partial_context_s min_partial_speech_ms end_silence_ms)
          chunks).1).
Proof.
  assert (H : forall (chunks : list (list sample)) (s : @StreamSession sample),
             ends_at_boundary (committed_prefix s) ->
             ends_at_boundary
               (committed_prefix
                  (push_all is_speech transcribe sid s chunks).1)).
  { clear chunks. induction chunks as [|a rest IH]; intros s Hs; [done|].
    cbn [push_all].
    pose proof (boundary_push sid s a Hs) as Hstep.
    destruct (session_push is_speech transcribe sid s a) as [[s1 r1] c1].
    specialize (IH s1 Hstep).
    by destruct (push_all is_speech transcribe sid s1 rest). }
  by apply H.
Qed.

End SessionInvariants.

(** ** Responses and engine calls of a push *)

Lemma apply_diff (prev next : list N) : apply_delta prev (diff prev next) = next.
Proof.
  destruct (common_prefix_len_spec prev next) as (Ha & Hb & Ht & _).
  unfold apply_delta, diff. cbn [delta_from delta_delete delta_insert].
  rewrite Nat2Z.id.
  replace (_common_prefix_len prev next
           + Z.to_nat (Z.of_nat (length prev)
                       - Z.of_nat (_common_prefix_len prev next)))%nat
    with (length prev) by lia.
  rewrite drop_all, app_nil_r, Ht. apply take_drop.
Qed.

Lemma apply_no_delta (prev : list N) : apply_delta prev (mkDelta 0 0 []) = prev.
Proof. unfold apply_delta. cbn. by rewrite drop_0. Qed.

Section PushResponses.

Context {sample : Type}.
Variable is_speech : list sample -> bool.
Variable transcribe :
  list sample -> Z -> option (list N) -> option (list N) -> outcome (list N).

(** What [partial_update] emits for a non-empty hypothesis. *)
Lemma partial_update_emit (s : @StreamSession sample) (text : list N) :
  text <> [] ->
  let r := partial_update s text in
  stable_prefix r.2 = committed_prefix r.1
  /\ committed_text r.2 = [] /\ actions r.2 = []
  /\ delta r.2 = diff (last_emitted_text s) (last_emitted_text r.1)
  /\ stable_prefix r.2 ++ unstable_suffix r.2 = last_emitted_text r.1
  /\ last_emitted_text r.1 <> []
  /\ ((emitted_kind r.2 = kind_partial
       /\ emitted_text r.2 = last_emitted_text r.1
       /\ last_emitted_text r.1 <> last_emitted_text s)
      \/ (emitted_kind r.2 = kind_none /\ emitted_text r.2 = []
          /\ last_emitted_text r.1 = last_emitted_text s)).
Proof.
  intros Hne.
  assert (Hfull : forall c : list N, c ++ drop (length c) text <> []).
  { intros [|x c]; [by rewrite drop_0|done]. }
  unfold partial_update, str_eqb.
  repeat match goal with
         | |- context [if ?c then _ else _] => destruct c eqn:?
         end;
    cbn in *;
    repeat match goal with
           | H : negb (bool_decide _) = true |- _ =>
               apply negb_true_iff, bool_decide_eq_false in H
           | H : negb (bool_decide _) = false |- _ =>
               apply negb_false_iff, bool_decide_eq_true in H
           end;
    repeat split; auto;
    try match goal with
        | H : _ = last_emitted_text s |- _ => rewrite <- H
        end; auto.
Qed.

Lemma command_actions_no_composition (text : list N) (acts : list Action) :
  _command_actions text = Some acts ->
  forall t, acts <> [set_composition t].
Proof.
  unfold _command_actions.
  destruct (negb (nonempty _)); [done|].
  destruct (_is_suppressed_phrase _); [by intros [= <-]|].
  repeat match goal with
         | |- context [if str_in ?t ?l then _ else _] =>
             destruct (str_in t l); [by intros [= <-]|]
         end.
  destruct (dict_get punct_map _); [|done]. by intros [= <-].
Qed.

(** X10. The fields of an ok response of [stream_push] agree: [final] and
    [endpoint] are true exactly for kind final; a partial response carries
    a non-empty text that differs from the text emitted before, equal to
    stable prefix plus unstable suffix, with the single action
    [set_composition(text)] and no committed text; a response of kind none
    carries no text and no action; a final response has no stable prefix
    or unstable suffix and its actions are never a composition update. *)
Theorem push_response_shape (sid : list N) (s : @StreamSession sample)
    (audio_f32 : list sample) (p : PushResult) :
  let r := session_push is_speech transcribe sid s audio_f32 in
  r.1.2 = ok_push p ->
  push_session_id p = sid
  /\ (push_final p = true <-> push_kind p = kind_final)
  /\ (push_endpoint p = true <-> push_kind p = kind_final)
  /\ (push_kind p = kind_partial ->
        push_text p <> []
        /\ push_text p <> last_emitted_text s
        /\ push_text p = last_emitted_text r.1.1
        /\ push_text p = push_stable_prefix p ++ push_unstable_suffix p
        /\ push_stable_prefix p = committed_prefix r.1.1
        /\ push_actions p = [set_composition (push_text p)]
        /\ push_committed_text p = [])
  /\ (push_kind p = kind_none ->
        push_text p = [] /\ push_actions p = []
        /\ push_committed_text p = [])
  /\ (push_kind p = kind_final ->
        push_stable_prefix p = [] /\ push_unstable_suffix p = []
        /\ forall t, push_actions p <> [set_composition t]).
Proof.
  intros r. subst r.
  set (s1 := (push_audio is_speech s audio_f32).1).
  pose proof (push_audio_buffer is_speech s audio_f32)
    as (_ & _ & _ & _ & _ & _ & _ & Hle). fold s1 in Hle.
  destruct (session_push_inv is_speech transcribe sid s audio_f32)
    as [(_ & _ & Hr)|[(call & msg & _ & _ & _ & _ & Hr)
       |[(text & _ & _ & Hs & Hr)|(text & _ & _ & Hs & Hr)]]];
    fold s1 in Hr; try fold s1 in Hs.
  - destruct Hr as [[msg Hr]|Hr]; rewrite Hr; [done|].
    intros [= <-]. cbn. repeat split; done.
  - rewrite Hr. done.
  - rewrite Hs, Hr. destruct (nonempty text) eqn:Ht.
    + apply nonempty_iff in Ht.
      pose proof (partial_update_emit s1 text Ht)
        as (K1 & K2 & K3 & _ & K5 & K6 & K7).
      destruct (partial_update s1 text) as [s2 em]. cbn [fst snd] in *.
      intros [= <-]. cbn.
      destruct K7 as [(Hk & He & Hd)|(Hk & He & Hd)]; rewrite Hk, He;
        rewrite ?K1, ?K2, ?K3; cbn; repeat split;
        first [done|congruence].
    + intros [= <-]. cbn. repeat split; done.
  - pose proof (final_update_effect s1 text) as (_ & _ & Hk & _).
    assert (Hst : stable_prefix (final_update s1 text).2 = []
                  /\ unstable_suffix (final_update s1 text).2 = []
                  /\ forall t, actions (final_update s1 text).2
                               <> [set_composition t]).
    { unfold final_update, finalize_text.
      destruct (_command_actions (_normalize_mixed_spacing text))
        as [acts|] eqn:Hc; cbn.
      - repeat split. by apply (command_actions_no_composition _ _ Hc).
      - repeat split. intros t. by destruct (nonempty _). }
    destruct Hst as (K1 & K2 & K3).
    rewrite Hr. intros [= <-]. cbn. rewrite Hk, K1, K2.
    repeat split; first [done|apply K3].
Qed.

(** X11. Handling one push calls the engine at most once.  The call carries
    the session's sample rate, language and prompt; its audio is either
    the whole buffer (the samples held before followed by those pushed) or
    the window of its last [max_partial_context_s * sample_rate_hz]
    samples. *)
Theorem push_engine_calls (sid : list N) (s : @StreamSession sample)
    (audio_f32 : list sample) :
  let r := session_push is_speech transcribe sid s audio_f32 in
  let buffer := buffer_f32 s ++ audio_f32 in
  let size := Z.of_nat (length buffer) in
  (length r.2 <= 1)%nat
  /\ forall call, call ∈ r.2 ->
       call_sample_rate_hz call = sample_rate_hz s
       /\ call_language call = language s
       /\ call_prompt call = prompt s
       /\ call_audio call `suffix_of` buffer
       /\ (call_audio call = buffer
           \/ Z.of_nat (length (call_audio call))
              = Z.max 0 (Z.min size
                           (max_partial_context_s s * sample_rate_hz s))).
Proof.
  intros r buffer size. subst r.
  set (s1 := (push_audio is_speech s audio_f32).1).
  pose proof (push_audio_buffer is_speech s audio_f32)
    as (Hbuf & Hcfg & _). fold s1 in Hbuf, Hcfg. fold buffer in Hbuf.
  assert (Hsr : sample_rate_hz s1 = sample_rate_hz s
                /\ language s1 = language s /\ prompt s1 = prompt s
                /\ max_partial_context_s s1 = max_partial_context_s s).
  { unfold same_config in Hcfg. intuition congruence. }
  destruct Hsr as (Hsr & Hlang & Hprompt & Hctx).
  assert (Hwin : forall call,
             call = engine_call s1 (partial_window s1)
             \/ call = engine_call s1 (buffer_f32 s1) ->
             call_sample_rate_hz call = sample_rate_hz s
             /\ call_language call = language s
             /\ call_prompt call = prompt s
             /\ call_audio call `suffix_of` buffer
             /\ (call_audio call = buffer
                 \/ Z.of_nat (length (call_audio call))
                    = Z.max 0 (Z.min size
                                 (max_partial_context_s s * sample_rate_hz s)))).
  { intros call [->| ->]; cbn [engine_call call_audio call_sample_rate_hz
                               call_language call_prompt];
      (split; [exact Hsr|]); (split; [exact Hlang|]);
      (split; [exact Hprompt|]).
    - unfold partial_window. rewrite Hbuf, Hsr, Hctx. fold size.
      split; [apply suffix_drop|]. right. rewrite length_drop.
      subst size. lia.
    - rewrite Hbuf. split; [done|by left]. }
  destruct (session_push_inv is_speech transcribe sid s audio_f32)
    as [(Hc & _)|[(call & msg & Hc & _ & Hcall & _)
       |[(text & Hc & _)|(text & Hc & _)]]];
    fold s1 in Hc; try fold s1 in Hcall; rewrite Hc.
  - split; [cbn; lia|]. intros call Hin. by apply elem_of_nil in Hin.
  - split; [cbn; lia|]. intros c ->%list_elem_of_singleton. by apply Hwin.
  - split; [cbn; lia|]. intros c ->%list_elem_of_singleton.
    apply Hwin. by left.
  - split; [cbn; lia|]. intros c ->%list_elem_of_singleton.
    apply Hwin. by right.
Qed.

(** X12. A client that holds the text emitted before and applies the
    [delta] of an ok response (keep [from] characters, drop [delete],
    append [insert]) obtains the text the session holds as emitted
    afterwards, or, for a final response, the final text. *)
Theorem push_delta_sync (sid : list N) (s : @StreamSession sample)
    (audio_f32 : list sample) (p : PushResult) :
  let r := session_push is_speech transcribe sid s audio_f32 in
  r.1.2 = ok_push p ->
  apply_delta (last_emitted_text s) (push_delta p)
  = match push_kind p with
    | kind_final => push_text p
    | _ => last_emitted_text r.1.1
    end.
Proof.
  intros r. subst r.
  set (s1 := (push_audio is_speech s audio_f32).1).
  pose proof (push_audio_buffer is_speech s audio_f32)
    as (_ & _ & _ & _ & _ & _ & _ & Hle). fold s1 in Hle.
  destruct (session_push_inv is_speech transcribe sid s audio_f32)
    as [(_ & Hs & Hr)|[(call & msg & _ & _ & _ & _ & Hr)
       |[(text & _ & _ & Hs & Hr)|(text & _ & _ & Hs & Hr)]]];
    fold s1 in Hr; try fold s1 in Hs.
  - destruct Hr as [[msg Hr]|Hr]; rewrite Hr; [done|].
    intros [= <-]. cbn. rewrite apply_no_delta.
    destruct Hs as [-> | ->]; by rewrite ?Hle.
  - rewrite Hr. done.
  - rewrite Hs, Hr. destruct (nonempty text) eqn:Ht.
    + apply nonempty_iff in Ht.
      pose proof (partial_update_emit s1 text Ht)
        as (_ & _ & _ & K4 & _ & _ & K7).
      destruct (partial_update s1 text) as [s2 em]. cbn [fst snd] in *.
      intros [= <-]. cbn. rewrite K4, <- Hle, apply_diff.
      by destruct K7 as [(-> & _)|(-> & _)].
    + intros [= <-]. cbn. by rewrite apply_no_delta, Hle.
  - rewrite Hr. intros [= <-]. cbn.
    pose proof (final_update_effect s1 text) as (_ & _ & Hk & _).
    rewrite Hk. unfold final_update.
    destruct (finalize_text text) as [[t a] c]. cbn.
    by rewrite <- Hle, apply_diff.
Qed.

End PushResponses.

Lemma push_response_shape_witness :
  let r := session_push loud (engine_const (u "你好，世界")) (u "s1")
             default_session (replicate (Z.to_nat 8000) 1000) in
  exists p,
    r.1.2 = ok_push p
    /\ push_kind p = kind_partial
    /\ push_text p = u "你好，世界"
    /\ push_actions p = [set_composition (push_text p)].
Proof.
  intros r.
  assert (H : exists p, r.1.2 = ok_push p /\ push_kind p = kind_partial
                        /\ push_text p = u "你好，世界")
    by (vm_compute; eexists; repeat split; reflexivity).
  destruct H as (p & H & Hk & Ht).
  destruct (push_response_shape loud (engine_const (u "你好，世界")) (u "s1")
              default_session (replicate (Z.to_nat 8000) 1000) p H)
    as (_ & _ & _ & Hp & _).
  destruct (Hp Hk) as (_ & _ & _ & _ & _ & Ha & _).
  exists p. split; [exact H|]. split; [exact Hk|]. split; [exact Ht|exact Ha].
Defined.

Lemma push_delta_sync_witness :
  let r := session_push loud (engine_const (u "你好，世界")) (u "s1")
             (set_last_emitted_text (u "你好吗") default_session)
             (replicate (Z.to_nat 8000) 1000) in
  exists p,
    r.1.2 = ok_push p
    /\ push_delta p = mkDelta 2 1 (u "，世界")
    /\ apply_delta (u "你好吗") (push_delta p) = u "你好，世界".
Proof.
  intros r.
  assert (H : exists p, r.1.2 = ok_push p
                        /\ push_delta p = mkDelta 2 1 (u "，世界")
                        /\ push_kind p = kind_partial
                        /\ last_emitted_text r.1.1 = u "你好，世界")
    by (vm_compute; eexists; repeat split; reflexivity).
  destruct H as (p & H & Hd & Hk & Hl).
  pose proof (push_delta_sync loud (engine_const (u "你好，世界")) (u "s1")
                (set_last_emitted_text (u "你好吗") default_session)
                (replicate (Z.to_nat 8000) 1000) p H) as Hsync.
  rewrite Hk in Hsync. cbv zeta in Hsync. fold r in Hsync.
  rewrite Hl in Hsync.
  exists p. split; [exact H|]. split; [exact Hd|exact Hsync].
Defined.

(** ** The engine wrapper *)

Lemma py_or_none (a : option (list N)) (l : list N) :
  py_or a None = Some l <-> a = Some l /\ l <> [].
Proof.
  unfold py_or. destruct a as [[|c s]|]; cbn.
  - split; [done|]. by intros [[= <-] Hl].
  - split; [by intros [= <-]|]. by intros [-> _].
  - split; [done|]. by intros [? _].
Qed.

Section EngineProps.

Context {sample : Type}.
Variable mlx_installed : bool.
Variable mlx_transcribe :
  list sample -> list N -> option (list N) -> option (list N)
  -> outcome (option (list N)).

(** X13. [WhisperEngine.transcribe] returns a text only when the library is
    installed, the sample rate is 16000 and a non-empty model name is
    loaded; the recognizer was then called with that model and with
    [language] and [prompt] passed only when they are non-empty, and the
    text returned has no white space at either end. *)
Theorem transcribe_returns (e : WhisperEngine) (audio_f32 : list sample)
    (sample_rate_hz : Z) (language prompt : option (list N)) (text : list N) :
  whisper_transcribe mlx_installed mlx_transcribe e audio_f32 sample_rate_hz
    language prompt = Returned text ->
  mlx_installed = true /\ sample_rate_hz = 16000
  /\ stripped is_space text
  /\ exists model raw,
       _model_name e = Some model /\ model <> []
       /\ mlx_transcribe audio_f32 model
            (if bool_decide (language = Some []) then None else language)
            (if bool_decide (prompt = Some []) then None else prompt)
          = Returned raw
       /\ text = strip (default [] raw).
Proof.
  unfold whisper_transcribe.
  destruct mlx_installed; [|done]. cbn [negb].
  destruct (sample_rate_hz =? 16000) eqn:Hsr; [|done]. cbn [negb].
  apply Z.eqb_eq in Hsr.
  destruct (py_or (_model_name e) None) as [model|] eqn:Hm; [|done].
  apply py_or_none in Hm as [Hm Hne].
  assert (Hkw : forall a : option (list N),
             py_or a None = if bool_decide (a = Some []) then None else a).
  { intros [[|c l]|]; reflexivity. }
  rewrite !Hkw.
  destruct (mlx_transcribe _ _ _ _) as [raw|msg] eqn:Hcall; [|done].
  intros [= <-]. split; [done|]. split; [done|].
  split; [apply strip_by_stripped|].
  exists model, raw. by destruct raw.
Qed.

(** X14. [ensure_loaded] fails only when the library is missing and the
    model is not already loaded, with the installation hint as message.
    When it succeeds, exactly the requested model is loaded afterwards,
    an engine that had it loaded is returned unchanged, and loading it
    again changes nothing. *)
Theorem ensure_loaded_spec (e : WhisperEngine) (model : list N) :
  match ensure_loaded mlx_installed e model with
  | Returned e' =>
      (forall m, is_loaded e' m = true <-> m = model)
      /\ (is_loaded e model = true -> e' = e)
      /\ (is_loaded e model = false -> mlx_installed = true)
      /\ ensure_loaded mlx_installed e' model = Returned e'
  | Raised msg =>
      msg = mlx_missing /\ mlx_installed = false /\ is_loaded e model = false
  end.
Proof.
  unfold ensure_loaded.
  destruct (is_loaded e model) eqn:Hl.
  - rewrite Hl. repeat split; try done.
    + intros Hm. unfold is_loaded in *. destruct (_model e); [|done].
      apply bool_decide_eq_true in Hl, Hm. congruence.
    + by intros ->.
  - destruct mlx_installed; cbn [negb]; [|done].
    unfold is_loaded. cbn. rewrite bool_decide_eq_true_2 by done.
    repeat split; try done.
    + intros Hm%bool_decide_eq_true. congruence.
    + intros ->. by apply bool_decide_eq_true.
Qed.

End EngineProps.

Lemma transcribe_returns_witness :
  let e := mkWhisperEngine (Some (u "m")) (Some (u "m")) in
  let lib := fun (_ : list Z) (_ : list N) (_ _ : option (list N)) =>
               Returned (Some (u " hi ")) in
  whisper_transcribe true lib e [] 16000 (Some (u "zh")) None
  = Returned (u "hi")
  /\ stripped is_space (u "hi").
Proof.
  intros e lib.
  assert (H : whisper_transcribe true lib e [] 16000 (Some (u "zh")) None
              = Returned (u "hi")) by (vm_compute; reflexivity).
  split; [exact H|].
  exact (proj1 (proj2 (proj2 (transcribe_returns true lib e [] 16000
                                (Some (u "zh")) None (u "hi") H)))).
Defined.

(** ** The handler on every method *)

Lemma normalize_language_nonempty (language : option (list N)) (mixed : bool)
    (l : list N) :
  _normalize_language language mixed = Some l ->
  mixed = false /\ l <> [] /\ (l = u "zh" \/ l = u "en" \/ language = Some l).
Proof.
  unfold _normalize_language.
  destruct mixed; [done|].
  destruct language as [[|c lang]|]; cbn [nonempty negb].
  - intros [= <-]. split; [done|]. split; [done|by left].
  - repeat match goal with
           | |- context [if ?c then _ else _] => destruct c
           end; intros [= <-]; (split; [done|]); (split; [done|]); auto.
  - intros [= <-]. split; [done|]. split; [done|by left].
Qed.

Section ServerProps.

Context {sample : Type}.
Variable is_speech : list sample -> bool.
Variable mlx_installed : bool.
Variable mlx_transcribe :
  list sample -> list N -> option (list N) -> option (list N)
  -> outcome (option (list N)).
Variable py_int : list N -> outcome Z.
Variable decode_audio : list N -> outcome (list sample).
Variable uuid_req : list N.
Variable uuid_session : list N.
Variable env_model_path : option (list N).
Variable now_str : list N.

Local Abbreviation serve :=
  (handle_request is_speech mlx_installed mlx_transcribe py_int decode_audio
     uuid_req uuid_session env_model_path now_str).
Local Abbreviation start_body :=
  (stream_start_body mlx_installed py_int uuid_session env_model_path).

(** The session id [stream_start] registers. *)
Lemma start_session_id (params : gmap (list N) JVal) :
  match py_or (_get_str params (u "session_id") None) (Some uuid_session) with
  | Some sid => sid
  | None => uuid_session
  end
  = match _get_str params (u "session_id") None with
    | Some sid => if nonempty sid then sid else uuid_session
    | None => uuid_session
    end.
Proof.
  unfold py_or. destruct (_get_str _ _ _) as [[|c sid]|]; reflexivity.
Qed.

(** What [stream_start] does to the service. *)
Lemma stream_start_body_cases (svc : @Service sample)
    (params : gmap (list N) JVal) :
  let r := start_body svc params in
  let sid :=
    match _get_str params (u "session_id") None with
    | Some sid => if nonempty sid then sid else uuid_session
    | None => uuid_session
    end in
  (engine r.1 = engine svc
   \/ (mlx_installed = true
       /\ exists model, model <> []
          /\ engine r.1 = mkWhisperEngine (Some model) (Some model)))
  /\ match r.2 with
     | Raised _ => sessions r.1 = sessions svc
     | Returned (sid', model) =>
         sid' = sid /\ model <> [] /\ is_loaded (engine r.1) model = true
         /\ exists sess,
              sessions r.1 = <[sid := sess]> (sessions svc)
              /\ utterance_cleared sess /\ segments_text sess = []
              /\ frame_ms sess = 30
              /\ language sess <> Some []
              /\ (exists p, prompt sess = Some p /\ p <> [])
     end.
Proof.
  intros r sid. subst r. unfold stream_start_body.
  rewrite start_session_id. fold sid.
  destruct (int_param py_int params (u "sample_rate_hz") _) as [sr|msg];
    [|split; [by left|done]].
  set (language := _normalize_language _ _).
  destruct (py_or (py_or _ _) None) as [model|] eqn:Hmodel;
    [|split; [by left|done]].
  apply py_or_none in Hmodel as [_ Hne].
  assert (Hload :
    match (if is_loaded (engine svc) model then Returned (engine svc)
           else ensure_loaded mlx_installed (engine svc) model) with
    | Returned eng =>
        is_loaded eng model = true
        /\ (eng = engine svc
            \/ (mlx_installed = true
                /\ eng = mkWhisperEngine (Some model) (Some model)))
    | Raised _ => True
    end).
  { destruct (is_loaded (engine svc) model) eqn:Hl; [split; [done|by left]|].
    unfold ensure_loaded. rewrite Hl.
    destruct mlx_installed; cbn [negb]; [|done].
    split; [|by right]. unfold is_loaded. cbn.
    by apply bool_decide_eq_true. }
  destruct (if is_loaded (engine svc) model then _ else _) as [eng|e];
    [|split; [by left|done]].
  destruct Hload as [Hl Heng].
  assert (Heng' : eng = engine svc
                  \/ (mlx_installed = true
                      /\ exists model, model <> []
                         /\ eng = mkWhisperEngine (Some model) (Some model))).
  { destruct Heng as [?|[? ?]]; [by left|right]. split; [done|].
    by exists model. }
  repeat (destruct (int_param py_int params _ _) as [?|?];
          [|split; [exact Heng'|done]]).
  cbn [fst snd engine sessions]. split; [exact Heng'|].
  split; [done|]. split; [done|]. split; [done|].
  eexists. split; [reflexivity|].
  split; [by repeat split|]. split; [done|]. split; [done|].
  cbn [language prompt new_session]. split.
  - subst language. intros Hlang.
    by apply normalize_language_nonempty in Hlang as (_ & ? & _).
  - unfold py_or. destruct (_get_str params (u "prompt") None) as [[|c p]|].
    + unfold _default_prompt_for. destruct (bool_decide _); by eexists.
    + by eexists.
    + unfold _default_prompt_for. destruct (bool_decide _); by eexists.
Qed.

(** The two outcomes of [stream_push] for the registry: rejected before
    the session is touched, or run on the registered session. *)
Lemma handle_stream_push_cases
    (transcribe : list sample -> Z -> option (list N) -> option (list N)
                  -> outcome (list N))
    (sessions : gmap (list N) (@StreamSession sample))
    (session_id : option (list N)) (format : list N)
    (audio : @AudioParam sample) :
  let h := handle_stream_push is_speech transcribe sessions session_id format
             audio in
  (sessions_after h = sessions /\ engine_calls h = []
   /\ exists msg, response h = err msg)
  \/ (exists sid s audio_f32,
        session_id = Some sid /\ sid <> [] /\ sessions !! sid = Some s
        /\ format = u "pcm_s16le_b64" /\ audio = audio_pcm audio_f32
        /\ let r := session_push is_speech transcribe sid s audio_f32 in
           sessions_after h = <[sid := r.1.1]> sessions
           /\ response h = r.1.2 /\ engine_calls h = r.2).
Proof.
  unfold handle_stream_push.
  destruct session_id as [sid|]; [|left; by eauto].
  destruct (nonempty sid) eqn:Hne; [|left; by eauto].
  apply nonempty_iff in Hne.
  destruct (sessions !! sid) as [s|] eqn:Hs; [|left; by eauto].
  unfold str_eqb. destruct (bool_decide (format = _)) eqn:Hf; cbn [negb];
    [|left; by eauto].
  apply bool_decide_eq_true in Hf.
  destruct audio as [|msg|audio_f32]; [left; by eauto|left; by eauto|].
  right. exists sid, s, audio_f32.
  destruct (session_push is_speech transcribe sid s audio_f32) as [[s' resp] calls].
  by repeat split.
Qed.

(** The two outcomes of [stream_finalize] for the registry. *)
Lemma handle_stream_finalize_cases
    (transcribe : list sample -> Z -> option (list N) -> option (list N)
                  -> outcome (list N))
    (sessions : gmap (list N) (@StreamSession sample))
    (session_id : option (list N)) :
  let h := handle_stream_finalize transcribe sessions session_id in
  (h = mkHandled sessions (err (u "Unknown session_id")) []
   /\ forall sid, session_id = Some sid -> sid <> [] -> sessions !! sid = None)
  \/ (exists sid s,
        session_id = Some sid /\ sid <> [] /\ sessions !! sid = Some s
        /\ sessions_after h = delete sid sessions
        /\ forall call, call ∈ engine_calls h ->
             call = engine_call s (buffer_f32 s)
             /\ ((exists msg, run_engine transcribe call = Raised msg
                              /\ response h = err msg)
                 \/ exists text f, run_engine transcribe call = Returned text
                                   /\ response h = ok_finalize f)).
Proof.
  unfold handle_stream_finalize.
  destruct session_id as [sid|]; [|left; by split].
  destruct (nonempty sid) eqn:Hne.
  2: { left. split; [done|]. intros ? [= <-] Hs. by destruct sid. }
  apply nonempty_iff in Hne.
  destruct (sessions !! sid) as [s|] eqn:Hs.
  2: { left. split; [done|]. by intros ? [= <-] _. }
  right. exists sid, s. split; [done|]. split; [done|]. split; [done|].
  destruct (0 <? length (buffer_f32 s))%nat.
  - destruct (run_engine transcribe (engine_call s (buffer_f32 s)))
      as [text|msg] eqn:Hrun; cbn [sessions_after engine_calls response];
      (split; [done|]); intros call ->%list_elem_of_singleton;
      (split; [done|]); rewrite Hrun.
    + right. exists text. destruct (finalize_text text) as [[t a] c].
      by eexists.
    + left. by eexists.
  - destruct (nonempty (segments_text s));
      cbn [sessions_after engine_calls]; (split; [done|]);
      intros call Hin; by apply elem_of_nil in Hin.
Qed.

(** [Service.handle] method by method. *)
Lemma serve_inv (svc : @Service sample) (req : JsonRequest) :
  let r := serve svc req in
  let id := if py_truthy (req_id req) then req_id req else JStr uuid_req in
  let transcribe :=
    whisper_transcribe mlx_installed mlx_transcribe (engine svc) in
  (req_method req <> JStr (u "stream_start")
   /\ req_method req <> JStr (u "stream_push")
   /\ req_method req <> JStr (u "stream_finalize")
   /\ service_after r = svc /\ recognizer_calls r = []
   /\ reply_id (reply r) = id)
  \/ (req_method req = JStr (u "stream_start")
      /\ service_after r = (start_body svc (req_params req)).1
      /\ recognizer_calls r = []
      /\ reply r
         = match (start_body svc (req_params req)).2 with
           | Returned (sid, model) => reply_ok id (res_start sid model)
           | Raised msg => reply_err id msg
           end)
  \/ (req_method req = JStr (u "stream_push")
      /\ let h :=
           handle_stream_push is_speech transcribe (sessions svc)
             (named_session req)
             (default [] (_get_str (req_params req) (u "format") (Some [])))
             (audio_param decode_audio (req_params req)) in
         service_after r = mkService (engine svc) (sessions_after h)
         /\ recognizer_calls r = engine_calls h
         /\ reply r = to_reply id (response h))
  \/ (req_method req = JStr (u "stream_finalize")
      /\ let h :=
           handle_stream_finalize transcribe (sessions svc)
             (named_session req) in
         service_after r = mkService (engine svc) (sessions_after h)
         /\ recognizer_calls r = engine_calls h
         /\ reply r = to_reply id (response h)).
Proof.
  intros r id transcribe. subst r. unfold handle_request. fold id.
  assert (Hother : forall m : JVal,
             (forall s, m = JStr s ->
                s = u "ping" \/ s = u "capabilities"
                \/ (s <> u "stream_start" /\ s <> u "stream_push"
                    /\ s <> u "stream_finalize")) ->
             m <> JStr (u "stream_start") /\ m <> JStr (u "stream_push")
             /\ m <> JStr (u "stream_finalize")).
  { intros m Hm.
    repeat split; intros ->;
      (destruct (Hm _ eq_refl) as [H|[H|(H1 & H2 & H3)]];
       [vm_compute in H; discriminate H|vm_compute in H; discriminate H
       |done]). }
  destruct (req_method req) as [|b|nz t|m|tr t] eqn:Hmeth;
    try (left; destruct (Hother (req_method req)) as (? & ? & ?);
         [rewrite Hmeth; intros ? [= ]|rewrite <- Hmeth; by repeat split]).
  unfold str_eqb.
  destruct (bool_decide (m = u "ping")) eqn:H1.
  { apply bool_decide_eq_true in H1. left.
    destruct (Hother (JStr m)) as (? & ? & ?); [intros ? [= <-]; by left|].
    by repeat split. }
  destruct (bool_decide (m = u "capabilities")) eqn:H2.
  { apply bool_decide_eq_true in H2. left.
    destruct (Hother (JStr m)) as (? & ? & ?);
      [intros ? [= <-]; right; by left|].
    by repeat split. }
  destruct (bool_decide (m = u "stream_start")) eqn:H3.
  { apply bool_decide_eq_true in H3. subst m. right. left.
    split; [done|].
    destruct (start_body svc (req_params req)) as [svc' [[sid model]|msg]];
      by repeat split. }
  destruct (bool_decide (m = u "stream_push")) eqn:H4.
  { apply bool_decide_eq_true in H4. subst m. right. right. left.
    split; [done|]. cbv zeta. unfold named_session.
    by destruct (_get_str (req_params req) (u "format") (Some [])). }
  destruct (bool_decide (m = u "stream_finalize")) eqn:H5.
  { apply bool_decide_eq_true in H5. subst m. right. right. right.
    by split. }
  left. apply bool_decide_eq_false in H3, H4, H5.
  repeat split; try done; congruence.
Qed.

(** X15. A request leaves every session alone except the one it names (for
    [stream_start], the one it names or the generated id): the registry
    entry of any other session id is the same before and after. *)
Theorem request_footprint (svc : @Service sample) (req : JsonRequest)
    (other : list N) :
  named_session req <> Some other -> other <> uuid_session ->
  sessions (service_after (serve svc req)) !! other = sessions svc !! other.
Proof.
  intros Hnamed Huuid.
  destruct (serve_inv svc req)
    as [(_ & _ & _ & -> & _)|[(_ & -> & _)|[(_ & Hr)|(_ & Hr)]]].
  - done.
  - pose proof (stream_start_body_cases svc (req_params req)) as [_ Hcase].
    cbv zeta in Hcase.
    destruct (start_body svc (req_params req)) as [svc' [[sid model]|msg]];
      cbn [fst snd] in *; [|by rewrite Hcase].
    destruct Hcase as (Hsid & _ & _ & sess & -> & _).
    apply lookup_insert_ne. fold (named_session req).
    destruct (named_session req) as [sid0|]; [|done].
    destruct (nonempty sid0); congruence.
  - cbv zeta in Hr. destruct Hr as (-> & _). cbn [sessions].
    destruct (handle_stream_push_cases
                (whisper_transcribe mlx_installed mlx_transcribe (engine svc))
                (sessions svc) (named_session req)
                (default [] (_get_str (req_params req) (u "format") (Some [])))
                (audio_param decode_audio (req_params req)))
      as [(-> & _)|(sid & s & a & Hsid & _ & _ & _ & _ & -> & _)]; [done|].
    apply lookup_insert_ne. congruence.
  - cbv zeta in Hr. destruct Hr as (-> & _). cbn [sessions].
    destruct (handle_stream_finalize_cases
                (whisper_transcribe mlx_installed mlx_transcribe (engine svc))
                (sessions svc) (named_session req))
      as [(-> & _)|(sid & s & Hsid & _ & _ & -> & _)]; [done|].
    apply lookup_delete_ne. congruence.
Qed.

(** X16. Only [stream_start] loads a model or registers a session.  Any
    other request keeps the engine and registers nothing new; unless it is
    [stream_finalize] it removes nothing either; and a request that is none
    of the three streaming methods (ping, capabilities, an unknown method)
    leaves the whole service unchanged without a call to the recognizer. *)
Theorem method_effects (svc : @Service sample) (req : JsonRequest) :
  req_method req <> JStr (u "stream_start") ->
  let r := serve svc req in
  engine (service_after r) = engine svc
  /\ (forall sid, is_Some (sessions (service_after r) !! sid) ->
                  is_Some (sessions svc !! sid))
  /\ (req_method req <> JStr (u "stream_finalize") ->
      forall sid, is_Some (sessions svc !! sid) ->
                  is_Some (sessions (service_after r) !! sid))
  /\ (req_method req <> JStr (u "stream_finalize") ->
      req_method req <> JStr (u "stream_push") ->
      service_after r = svc /\ recognizer_calls r = []).
Proof.
  intros Hstart r. subst r.
  destruct (serve_inv svc req)
    as [(_ & _ & _ & Hsvc & Hcalls & _)|[(Hm & _)|[(Hm & Hr)|(Hm & Hr)]]].
  - rewrite Hsvc. by repeat split.
  - done.
  - cbv zeta in Hr. destruct Hr as (-> & _). cbn [sessions engine].
    split; [done|].
    destruct (handle_stream_push_cases
                (whisper_transcribe mlx_installed mlx_transcribe (engine svc))
                (sessions svc) (named_session req)
                (default [] (_get_str (req_params req) (u "format") (Some [])))
                (audio_param decode_audio (req_params req)))
      as [(-> & _)|(sid & s & a & _ & _ & Hs & _ & _ & -> & _)].
    + by repeat split.
    + split; [|split; [|done]].
      * intros sid'. destruct (decide (sid' = sid)) as [->|Hne].
        -- by rewrite Hs.
        -- by rewrite lookup_insert_ne.
      * intros _ sid'. destruct (decide (sid' = sid)) as [->|Hne].
        -- by rewrite lookup_insert_eq.
        -- by rewrite lookup_insert_ne.
  - cbv zeta in Hr. destruct Hr as (-> & _). cbn [sessions engine].
    split; [done|]. split; [|by split].
    destruct (handle_stream_finalize_cases
                (whisper_transcribe mlx_installed mlx_transcribe (engine svc))
                (sessions svc) (named_session req))
      as [(-> & _)|(sid & s & _ & _ & _ & -> & _)]; [done|].
    intros sid'. destruct (decide (sid' = sid)) as [->|Hne].
    + rewrite lookup_delete_eq. by intros [? ?].
    + by rewrite lookup_delete_ne.
Qed.

(** X17. A [stream_start] never calls the recognizer.  When it succeeds it
    registers, under the given id (the generated one when none or an empty
    one is given), a fresh session with empty utterance state, frames of
    30 ms, a non-empty prompt and a language that is not the empty string,
    replacing a session of that id and keeping the others, and the model it
    reports is not empty and is loaded; when it fails the registry is
    unchanged. *)
Theorem stream_start_effect (svc : @Service sample) (req : JsonRequest) :
  req_method req = JStr (u "stream_start") ->
  let r := serve svc req in
  recognizer_calls r = []
  /\ match reply r with
     | reply_ok _ (res_start sid model) =>
         sid = match named_session req with
               | Some sid => if nonempty sid then sid else uuid_session
               | None => uuid_session
               end
         /\ model <> []
         /\ is_loaded (engine (service_after r)) model = true
         /\ exists sess,
              sessions (service_after r) = <[sid := sess]> (sessions svc)
              /\ utterance_cleared sess /\ segments_text sess = []
              /\ frame_ms sess = 30
              /\ language sess <> Some []
              /\ (exists p, prompt sess = Some p /\ p <> [])
     | reply_ok _ _ => False
     | reply_err _ _ => sessions (service_after r) = sessions svc
     end.
Proof.
  intros Hm r. subst r.
  destruct (serve_inv svc req)
    as [(Hno & _)|[(_ & -> & -> & ->)|[(Hm' & _)|(Hm' & _)]]];
    [done| |rewrite Hm in Hm'; vm_compute in Hm'; discriminate Hm'..].
  split; [done|].
  pose proof (stream_start_body_cases svc (req_params req)) as [_ Hcase].
  cbv zeta in Hcase.
  destruct (start_body svc (req_params req)) as [svc' [[sid model]|msg]];
    cbn [fst snd] in *; [|done].
  destruct Hcase as (Hsid & Hne & Hl & sess & Hs & Hrest).
  split; [exact Hsid|]. split; [exact Hne|]. split; [exact Hl|].
  exists sess. subst sid. by split.
Qed.

Local Abbreviation run :=
  (serve_all is_speech mlx_installed mlx_transcribe py_int decode_audio
     uuid_req uuid_session env_model_path now_str).

Lemma engine_ready_step (svc : @Service sample) (req : JsonRequest) :
  engine_ready mlx_installed svc ->
  engine_ready mlx_installed (service_after (serve svc req)).
Proof.
  intros (Hsame & Hname & Hreg).
  destruct (serve_inv svc req)
    as [(_ & _ & _ & -> & _)|[(_ & -> & _)|[(_ & Hr)|(_ & Hr)]]].
  - done.
  - pose proof (stream_start_body_cases svc (req_params req)) as [Heng Hcase].
    cbv zeta in Heng, Hcase.
    destruct (start_body svc (req_params req)) as [svc' res];
      cbn [fst snd] in *.
    destruct Heng as [Heng|(Hmlx & model & Hne & Heng)].
    + unfold engine_ready. rewrite Heng. split; [done|]. split; [done|].
      destruct res as [[sid model]|msg].
      * destruct Hcase as (_ & _ & Hl & _). intros _.
        unfold is_loaded in Hl. rewrite Heng in Hl.
        destruct (_model (engine svc)); [|done].
        apply bool_decide_eq_true in Hl. by rewrite Hl.
      * by rewrite Hcase.
    + unfold engine_ready. rewrite Heng. cbn. split; [done|].
      split; [by intros ? [= <-]|done].
  - cbv zeta in Hr. destruct Hr as (-> & _).
    unfold engine_ready. cbn [engine sessions].
    split; [done|]. split; [done|]. intros Hne. apply Hreg. intros Hempty.
    destruct (handle_stream_push_cases
                (whisper_transcribe mlx_installed mlx_transcribe (engine svc))
                (sessions svc) (named_session req)
                (default [] (_get_str (req_params req) (u "format") (Some [])))
                (audio_param decode_audio (req_params req)))
      as [(Hs & _)|(sid & s & a & _ & _ & Hs & _)].
    + by rewrite Hs in Hne.
    + by rewrite Hempty in Hs.
  - cbv zeta in Hr. destruct Hr as (-> & _).
    unfold engine_ready. cbn [engine sessions].
    split; [done|]. split; [done|]. intros Hne. apply Hreg. intros Hempty.
    destruct (handle_stream_finalize_cases
                (whisper_transcribe mlx_installed mlx_transcribe (engine svc))
                (sessions svc) (named_session req))
      as [(Hs & _)|(sid & s & _ & _ & Hs & _)].
    + rewrite Hs in Hne. by cbn in Hne.
    + by rewrite Hempty in Hs.
Qed.

Lemma engine_ready_run (reqs : list JsonRequest) (svc : @Service sample) :
  engine_ready mlx_installed svc -> engine_ready mlx_installed (run svc reqs).
Proof.
  revert svc. induction reqs as [|req reqs IH]; intros svc Hsvc; [done|].
  cbn [serve_all]. by apply IH, engine_ready_step.
Qed.

(** X18. In a service reached from [Service()] by any requests, a
    registered session implies that the library is installed and that a
    model with a non-empty name is loaded; transcription at 16000 Hz then
    never fails for lack of a model: it is the library's result for that
    model, stripped, or the library's own error. *)
Theorem registered_session_has_model (reqs : list JsonRequest) :
  let svc := run new_service reqs in
  sessions svc <> ∅ ->
  mlx_installed = true
  /\ exists model,
       model <> [] /\ is_loaded (engine svc) model = true
       /\ forall audio_f32 language prompt,
            whisper_transcribe mlx_installed mlx_transcribe (engine svc)
              audio_f32 16000 language prompt
            = match mlx_transcribe audio_f32 model (py_or language None)
                      (py_or prompt None) with
              | Returned raw => Returned (strip (default [] raw))
              | Raised msg => Raised msg
              end.
Proof.
  intros svc Hne.
  assert (Hinit : engine_ready mlx_installed (@new_service sample)).
  { unfold engine_ready. cbn. by repeat split. }
  destruct (engine_ready_run reqs _ Hinit) as (Hsame & Hname & Hreg).
  fold svc in Hsame, Hname, Hreg. specialize (Hreg Hne).
  destruct (_model_name (engine svc)) as [model|] eqn:Hm; [|done].
  destruct (Hname model eq_refl) as [Hmodel Hmlx].
  split; [exact Hmlx|]. exists model. split; [exact Hmodel|]. split.
  - unfold is_loaded. rewrite Hsame, Hm. by apply bool_decide_eq_true.
  - intros audio_f32 language prompt. unfold whisper_transcribe.
    rewrite Hmlx, Hm. cbn [negb Z.eqb Pos.eqb].
    replace (py_or (Some model) None) with (Some model)
      by (by destruct model).
    destruct (mlx_transcribe _ _ _ _) as [[raw|]|msg]; reflexivity.
Qed.

(** X19. A [stream_push] or [stream_finalize] that names no session, the
    empty id or an id that is not registered is answered with the error
    "Unknown session_id", whatever its other parameters; the service is
    unchanged and the recognizer is not called. *)
Theorem unknown_session_rejected (svc : @Service sample) (req : JsonRequest) :
  req_method req = JStr (u "stream_push")
  \/ req_method req = JStr (u "stream_finalize") ->
  (forall sid, named_session req = Some sid -> sid <> [] ->
               sessions svc !! sid = None) ->
  serve svc req
  = mkServed svc
      (reply_err (if py_truthy (req_id req) then req_id req else JStr uuid_req)
                 (u "Unknown session_id"))
      [].
Proof.
  intros Hm Hunknown.
  assert (Hpush : forall fmt audio,
            handle_stream_push is_speech
              (whisper_transcribe mlx_installed mlx_transcribe (engine svc))
              (sessions svc) (named_session req) fmt audio
            = mkHandled (sessions svc) (err (u "Unknown session_id")) []).
  { intros fmt audio. unfold handle_stream_push.
    destruct (named_session req) as [sid|]; [|done].
    destruct (nonempty sid) eqn:Hne; [|done].
    apply nonempty_iff in Hne. by rewrite (Hunknown sid eq_refl Hne). }
  assert (Hfin :
            handle_stream_finalize
              (whisper_transcribe mlx_installed mlx_transcribe (engine svc))
              (sessions svc) (named_session req)
            = mkHandled (sessions svc) (err (u "Unknown session_id")) []).
  { unfold handle_stream_finalize.
    destruct (named_session req) as [sid|]; [|done].
    destruct (nonempty sid) eqn:Hne; [|done].
    apply nonempty_iff in Hne. by rewrite (Hunknown sid eq_refl Hne). }
  destruct (serve_inv svc req)
    as [(_ & H1 & H2 & _)|[(H1 & _)|[(_ & Hr)|(_ & Hr)]]].
  - by destruct Hm.
  - destruct Hm as [Hm|Hm]; rewrite Hm in H1; vm_compute in H1;
      discriminate H1.
  - cbv zeta in Hr. rewrite Hpush in Hr. cbn in Hr.
    destruct Hr as (H1 & H2 & H3).
    destruct (serve svc req) as [svc' rep calls]. cbn in *.
    subst. by destruct svc.
  - cbv zeta in Hr. rewrite Hfin in Hr. cbn in Hr.
    destruct Hr as (H1 & H2 & H3).
    destruct (serve svc req) as [svc' rep calls]. cbn in *.
    subst. by destruct svc.
Qed.

Lemma transcribe_guard (e : WhisperEngine) (audio_f32 : list sample)
    (sample_rate_hz : Z) (language prompt : option (list N)) :
  sample_rate_hz <> 16000 ->
  whisper_transcribe mlx_installed mlx_transcribe e audio_f32 sample_rate_hz
    language prompt
  = Raised (if mlx_installed
            then u "Only 16000Hz supported right now (got "
                 ++ str_of_int sample_rate_hz ++ u ")"
            else mlx_missing).
Proof.
  intros Hsr. unfold whisper_transcribe.
  destruct mlx_installed; [|done]. cbn [negb].
  apply Z.eqb_neq in Hsr. by rewrite Hsr.
Qed.

(** X20. A session whose sample rate is not 16000 never yields text: a
    [stream_push] to it is answered either without text (kind none) or,
    whenever the recognizer is consulted, with an error, which is "Only
    16000Hz supported right now (got N)" when the library is installed. *)
Theorem sample_rate_guard (svc : @Service sample) (req : JsonRequest)
    (sid : list N) (s : @StreamSession sample) :
  req_method req = JStr (u "stream_push") ->
  named_session req = Some sid ->
  sessions svc !! sid = Some s ->
  sample_rate_hz s <> 16000 ->
  let r := serve svc req in
  (forall id p, reply r = reply_ok id (res_push p) ->
                push_kind p = kind_none /\ push_text p = []
                /\ push_actions p = [] /\ recognizer_calls r = [])
  /\ (recognizer_calls r <> [] ->
      exists id, reply r
                 = reply_err id
                     (if mlx_installed
                      then u "Only 16000Hz supported right now (got "
                           ++ str_of_int (sample_rate_hz s) ++ u ")"
                      else mlx_missing)).
Proof.
  intros Hm Hnamed Hs Hsr r. subst r.
  destruct (serve_inv svc req)
    as [(_ & H1 & _)|[(H1 & _)|[(_ & Hr)|(H1 & _)]]];
    [done|rewrite Hm in H1; vm_compute in H1; discriminate H1|
    |rewrite Hm in H1; vm_compute in H1; discriminate H1].
  cbv zeta in Hr. destruct Hr as (_ & -> & ->).
  set (transcribe :=
         whisper_transcribe mlx_installed mlx_transcribe (engine svc)).
  destruct (handle_stream_push_cases transcribe
              (sessions svc) (named_session req)
              (default [] (_get_str (req_params req) (u "format") (Some [])))
              (audio_param decode_audio (req_params req)))
    as [(_ & -> & msg & ->)|(sid' & s' & a & Hsid & _ & Hs' & _ & _ & Hh)].
  { split; [done|]. by intros []. }
  rewrite Hnamed in Hsid. injection Hsid as <-.
  rewrite Hs in Hs'. injection Hs' as <-.
  cbv zeta in Hh. destruct Hh as (_ & -> & ->).
  set (s1 := (push_audio is_speech s a).1).
  pose proof (push_audio_buffer is_speech s a) as (_ & Hcfg & _).
  fold s1 in Hcfg.
  assert (Hsr1 : sample_rate_hz s1 <> 16000).
  { unfold same_config in Hcfg. destruct Hcfg as (-> & _). exact Hsr. }
  assert (Hrate : sample_rate_hz s1 = sample_rate_hz s).
  { unfold same_config in Hcfg. by destruct Hcfg as (-> & _). }
  assert (Hraise : forall audio,
            run_engine transcribe (engine_call s1 audio)
            = Raised (if mlx_installed
                      then u "Only 16000Hz supported right now (got "
                           ++ str_of_int (sample_rate_hz s) ++ u ")"
                      else mlx_missing)).
  { intros audio. unfold run_engine, engine_call, transcribe. cbn.
    rewrite transcribe_guard by exact Hsr1. by rewrite Hrate. }
  destruct (session_push_inv is_speech transcribe sid s a)
    as [(Hc & _ & Hresp)|[(call & msg & Hc & Hrun & Hcall & _ & Hresp)
       |[(text & _ & Hrun & _)|(text & _ & Hrun & _)]]];
    try fold s1 in Hresp; try fold s1 in Hrun; try fold s1 in Hcall.
  - rewrite Hc. split; [|done].
    destruct Hresp as [[msg ->]| ->]; [done|].
    intros id p [= _ <-]. by repeat split.
  - rewrite Hc, Hresp. split; [done|]. intros _.
    destruct Hcall as [-> | ->]; rewrite Hraise in Hrun;
      injection Hrun as <-; by eexists.
  - by rewrite Hraise in Hrun.
  - by rewrite Hraise in Hrun.
Qed.

End ServerProps.

Lemma request_footprint_witness :
  let svc :=
    mkService new_engine
      (<[u "a" := default_session]> {[u "b" := default_session]}) in
  let req := request (u "1") (u "stream_finalize") [(u "session_id", u "a")] in
  named_session req <> Some (u "b") /\ u "b" <> u "session-0"
  /\ sessions (service_after (demo_serve svc req)) !! u "a" = None
  /\ sessions (service_after (demo_serve svc req)) !! u "b"
     = Some default_session.
Proof.
  intros svc req.
  assert (H1 : named_session req <> Some (u "b"))
    by (intros H; vm_compute in H; discriminate H).
  assert (H2 : u "b" <> u "session-0")
    by (intros H; vm_compute in H; discriminate H).
  split; [exact H1|]. split; [exact H2|].
  split; [vm_compute; reflexivity|].
  pose proof (request_footprint loud true (lib_const (u "你好")) int_digits
                decode_loud (u "req-0") (u "session-0") None (u "0.0")
                svc req (u "b") H1 H2) as H.
  fold demo_serve in H. etrans; [exact H|]. vm_compute. reflexivity.
Defined.

Lemma method_effects_witness :
  let svc := mkService new_engine {[u "a" := default_session]} in
  let req := request (u "1") (u "ping") [] in
  req_method req <> JStr (u "stream_start")
  /\ service_after (demo_serve svc req) = svc.
Proof.
  intros svc req.
  assert (H1 : req_method req <> JStr (u "stream_start"))
    by (intros H; vm_compute in H; discriminate H).
  split; [exact H1|].
  destruct (method_effects loud true (lib_const (u "你好")) int_digits
              decode_loud (u "req-0") (u "session-0") None (u "0.0")
              svc req H1) as (_ & _ & _ & H).
  apply H; intros H'; vm_compute in H'; discriminate H'.
Defined.

Lemma stream_start_effect_witness :
  let req := request (u "1") (u "stream_start") [(u "language", u " EN ")] in
  let r := demo_serve new_service req in
  reply r
  = reply_ok (JStr (u "1"))
      (res_start (u "session-0") (u "mlx-community/whisper-medium"))
  /\ is_loaded (engine (service_after r)) (u "mlx-community/whisper-medium")
     = true
  /\ exists sess,
       sessions (service_after r) = {[u "session-0" := sess]}
       /\ language sess <> Some [].
Proof.
  intros req r.
  assert (Hm : req_method req = JStr (u "stream_start")) by reflexivity.
  assert (Hr : reply r
               = reply_ok (JStr (u "1"))
                   (res_start (u "session-0")
                      (u "mlx-community/whisper-medium")))
    by (vm_compute; reflexivity).
  pose proof (stream_start_effect loud true (lib_const (u "你好")) int_digits
                decode_loud (u "req-0") (u "session-0") None (u "0.0")
                new_service req Hm) as [_ H].
  fold demo_serve in H. fold r in H. rewrite Hr in H.
  destruct H as (_ & _ & Hl & sess & Hs & _ & _ & _ & Hlang & _).
  split; [exact Hr|]. split; [exact Hl|].
  exists sess. split; [exact Hs|exact Hlang].
Defined.

Lemma registered_session_has_model_witness :
  let svc := demo_run new_service [request (u "1") (u "stream_start") []] in
  sessions svc <> ∅
  /\ whisper_transcribe true (lib_const (u "你好")) (engine svc) [] 16000
       None None
     = Returned (u "你好").
Proof.
  intros svc.
  assert (Hne : sessions svc <> ∅).
  { intros H.
    assert (H' : sessions svc !! u "session-0" = None)
      by (rewrite H; apply lookup_empty).
    vm_compute in H'. discriminate H'. }
  split; [exact Hne|].
  destruct (registered_session_has_model loud true (lib_const (u "你好"))
              int_digits decode_loud (u "req-0") (u "session-0") None
              (u "0.0") [request (u "1") (u "stream_start") []] Hne)
    as (_ & model & _ & _ & H).
  fold demo_run in H. fold svc in H. rewrite H. reflexivity.
Defined.

Lemma unknown_session_rejected_witness :
  let req := request (u "7") (u "stream_push")
               [(u "session_id", u "ghost"); (u "format", u "wav")] in
  demo_serve new_service req
  = mkServed new_service (reply_err (JStr (u "7")) (u "Unknown session_id")) [].
Proof.
  intros req.
  apply (unknown_session_rejected loud true (lib_const (u "你好")) int_digits
           decode_loud (u "req-0") (u "session-0") None (u "0.0")
           new_service req).
  - left. reflexivity.
  - intros sid _ _. apply lookup_empty.
Defined.

Lemma sample_rate_guard_witness :
  let s := new_session 8000 (Some (u "zh")) (_default_prompt_for (Some (u "zh")))
             500 20 300 450 in
  let svc := mkService (mkWhisperEngine (Some (u "m")) (Some (u "m")))
               {[u "a" := s]} in
  let req := request (u "2") (u "stream_push")
               [(u "session_id", u "a"); (u "format", u "pcm_s16le_b64");
                (u "audio_b64", u "AAAA")] in
  recognizer_calls (demo_serve svc req) <> []
  /\ exists id,
       reply (demo_serve svc req)
       = reply_err id (u "Only 16000Hz supported right now (got 8000)").
Proof.
  intros s svc req.
  assert (Hc : recognizer_calls (demo_serve svc req) <> [])
    by (vm_compute; discriminate).
  split; [exact Hc|].
  assert (H1 : req_method req = JStr (u "stream_push")) by reflexivity.
  assert (H2 : named_session req = Some (u "a"))
    by (vm_compute; reflexivity).
  assert (H3 : sessions svc !! u "a" = Some s) by apply lookup_singleton_eq.
  assert (H4 : sample_rate_hz s <> 16000) by (cbn; lia).
  destruct (sample_rate_guard loud true (lib_const (u "你好")) int_digits
              decode_loud (u "req-0") (u "session-0") None (u "0.0")
              svc req (u "a") s H1 H2 H3 H4) as [_ H].
  destruct (H Hc) as [id Hid]. exists id.
  etrans; [exact Hid|]. vm_compute. reflexivity.
Defined.

(** ** Request parameters *)

Lemma str_in_elem (s : list N) (l : list (list N)) :
  str_in s l = true <-> s ∈ l.
Proof.
  unfold str_in, str_eqb. rewrite existsb_exists. split.
  - intros (x & Hin & Hx). apply bool_decide_eq_true in Hx. subst x.
    by apply list_elem_of_In.
  - intros Hin. exists s. split; [by apply list_elem_of_In|].
    by apply bool_decide_eq_true.
Qed.

(** X21. [_normalize_language] returns [None] (automatic detection) exactly
    in mixed mode or for a non-empty language that reads "auto", "detect"
    or nothing once stripped and lowered; an absent or empty language gives
    "zh".  A language it returns is never the empty string: it is "zh",
    "en" or the given string as it was passed. *)
Theorem normalize_language_spec (language : option (list N)) (mixed : bool) :
  (_normalize_language language mixed = None
   <-> mixed = true
       \/ exists l, language = Some l /\ l <> []
                    /\ lower (strip l) ∈ [u "auto"; u "detect"; []])
  /\ (mixed = false -> language = None \/ language = Some [] ->
      _normalize_language language mixed = Some (u "zh"))
  /\ (forall l, _normalize_language language mixed = Some l ->
        l <> [] /\ (l = u "zh" \/ l = u "en" \/ language = Some l)).
Proof.
  split; [|split].
  - unfold _normalize_language. destruct mixed; [split; [by left|done]|].
    destruct language as [[|c lang]|]; cbn [nonempty negb].
    + split; [done|]. intros [?|(l & [= <-] & ? & _)]; done.
    + destruct (str_in _ [u "auto"; u "detect"; []]) eqn:Hauto.
      * split; [|done]. intros _. right. exists (c :: lang).
        split; [done|]. split; [done|]. by apply str_in_elem.
      * split.
        -- repeat match goal with
                  | |- context [if ?c then _ else _] => destruct c
                  end; done.
        -- intros [?|(l & [= <-] & _ & Hin)]; [done|].
           apply str_in_elem in Hin. congruence.
    + split; [done|]. intros [?|(l & ? & _)]; done.
  - intros -> [-> | ->]; reflexivity.
  - intros l Hl.
    by apply normalize_language_nonempty in Hl as (_ & ? & ?).
Qed.

(** ** PCM decoding *)

Lemma represents_b_spec (x : spec_float) (v : Z) :
  represents_b x v = true -> represents x v.
Proof.
  destruct x as [s|s| |s m e]; cbn; try done.
  - by intros ?%Z.eqb_eq.
  - intros [?%Z.leb_le ?%Z.eqb_eq]%andb_true_iff. done.
Qed.

Lemma int16_le_range (lo hi : byte) : -32768 <= int16_le lo hi < 32768.
Proof.
  unfold int16_le.
  pose proof (Byte.to_N_bounded lo). pose proof (Byte.to_N_bounded hi).
  destruct (_ <? 32768) eqn:Hlt; [apply Z.ltb_lt in Hlt|apply Z.ltb_ge in Hlt];
    lia.
Qed.

Lemma all_from_spec (k : nat) (f : Z -> bool) (base : Z) :
  all_from k f base = true ->
  forall v, base <= v < base + 2 ^ Z.of_nat k -> f v = true.
Proof.
  revert base. induction k as [|k IH]; intros base H v Hv.
  - cbn in *. by replace v with base by lia.
  - cbn [all_from] in H. apply andb_true_iff in H as [H1 H2].
    rewrite Nat2Z.inj_succ, Z.pow_succ_r in Hv by lia.
    destruct (Z.lt_ge_cases v (base + 2 ^ Z.of_nat k)).
    + apply (IH base); [done|lia].
    + apply (IH (base + 2 ^ Z.of_nat k)); [done|lia].
Qed.

Lemma sample_of_int16_exact (v : Z) :
  -32768 <= v < 32768 -> represents (sample_of_int16 v) v.
Proof.
  intros Hv. apply represents_b_spec.
  assert (Hall :
    all_from 16 (fun v => represents_b (sample_of_int16 v) v) (-32768) = true)
    by (vm_compute; reflexivity).
  apply (all_from_spec _ _ _ Hall). cbn. lia.
Qed.

Lemma int16_pairs_spec (n : nat) (pcm16 : list byte) :
  (length pcm16 <= n)%nat ->
  match int16_pairs pcm16 with
  | None => Nat.odd (length pcm16) = true
  | Some arr =>
      length pcm16 = (2 * length arr)%nat
      /\ forall i lo hi,
           pcm16 !! (2 * i)%nat = Some lo ->
           pcm16 !! (2 * i + 1)%nat = Some hi ->
           arr !! i = Some (int16_le lo hi)
  end.
Proof.
  revert pcm16. induction n as [|n IH]; intros pcm16 Hlen.
  - destruct pcm16; [|cbn in Hlen; lia]. cbn. split; [done|].
    intros i lo hi H. by rewrite lookup_nil in H.
  - destruct pcm16 as [|lo [|hi rest]]; cbn [int16_pairs].
    + split; [done|]. intros i lo hi H. by rewrite lookup_nil in H.
    + reflexivity.
    + specialize (IH rest). cbn in Hlen.
      destruct (int16_pairs rest) as [arr|]; cbn [fmap option_fmap option_map].
      * destruct IH as [Hl Hget]; [lia|]. split; [cbn; lia|].
        intros [|i] lo' hi'.
        -- cbn. by intros [= <-] [= <-].
        -- replace (2 * S i)%nat with (S (S (2 * i))) by lia.
           replace (S (S (2 * i)) + 1)%nat with (S (S (2 * i + 1))) by lia.
           cbn. apply Hget.
      * change (length (lo :: hi :: rest)) with (S (S (length rest))).
        rewrite Nat.odd_succ_succ. apply IH. lia.
Qed.

(** X22. [_pcm16_bytes_to_float32_mono] raises exactly for an odd number of
    bytes.  Otherwise it returns one sample per pair of bytes, and sample
    [i] is exactly [v / 32768] for the signed little-endian 16-bit integer
    [v] of bytes [2i] and [2i+1]: nothing is rounded, and the value lies in
    [-1, 1). *)
Theorem pcm_decode_exact (pcm16 : list byte) :
  match _pcm16_bytes_to_float32_mono pcm16 with
  | Raised msg =>
      Nat.odd (length pcm16) = true
      /\ msg = u "buffer size must be a multiple of element size"
  | Returned samples =>
      length pcm16 = (2 * length samples)%nat
      /\ forall i lo hi,
           pcm16 !! (2 * i)%nat = Some lo ->
           pcm16 !! (2 * i + 1)%nat = Some hi ->
           exists x, samples !! i = Some x
                     /\ represents x (int16_le lo hi)
                     /\ -32768 <= int16_le lo hi < 32768
  end.
Proof.
  unfold _pcm16_bytes_to_float32_mono.
  pose proof (int16_pairs_spec (length pcm16) pcm16 (le_n _)) as H.
  destruct (int16_pairs pcm16) as [arr|]; [|by split].
  destruct H as [Hl Hget]. split; [by rewrite length_map|].
  intros i lo hi H1 H2. exists (sample_of_int16 (int16_le lo hi)).
  split; [|split].
  - change (map sample_of_int16 arr) with (sample_of_int16 <$> arr).
    by rewrite list_lookup_fmap, (Hget i lo hi H1 H2).
  - apply sample_of_int16_exact, int16_le_range.
  - apply int16_le_range.
Qed.

(** ** Requests in sequence *)

Section ServerSequences.

Context {sample : Type}.
Variable is_speech : list sample -> bool.
Variable mlx_installed : bool.
Variable mlx_transcribe :
  list sample -> list N -> option (list N) -> option (list N)
  -> outcome (option (list N)).
Variable py_int : list N -> outcome Z.
Variable decode_audio : list N -> outcome (list sample).
Variable uuid_req : list N.
Variable uuid_session : list N.
Variable env_model_path : option (list N).
Variable now_str : list N.

Local Abbreviation serve :=
  (handle_request is_speech mlx_installed mlx_transcribe py_int decode_audio
     uuid_req uuid_session env_model_path now_str).

(** X23. Every response carries the id of its request, whatever the method
    and whether it succeeds; a request without an id, or with a falsy one
    (null, false, 0, the empty string), is answered under a generated
    id. *)
Theorem reply_echoes_id (svc : @Service sample) (req : JsonRequest) :
  reply_id (reply (serve svc req))
  = match req_id req with
    | JNull | JBool false | JNum false _ | JStr [] | JOther false _ =>
        JStr uuid_req
    | id => id
    end.
Proof.
  assert (Hid : (if py_truthy (req_id req) then req_id req else JStr uuid_req)
                = match req_id req with
                  | JNull | JBool false | JNum false _ | JStr []
                  | JOther false _ => JStr uuid_req
                  | id => id
                  end).
  { by destruct (req_id req) as [|[]|[] ?|[|? ?]|[] ?]. }
  rewrite <- Hid.
  destruct (serve_inv is_speech mlx_installed mlx_transcribe py_int
              decode_audio uuid_req uuid_session env_model_path now_str
              svc req)
    as [(_ & _ & _ & _ & _ & H)|[(_ & _ & _ & ->)|[(_ & Hr)|(_ & Hr)]]].
  - exact H.
  - by destruct (stream_start_body _ _ _ _ _ _).2 as [[? ?]|?].
  - cbv zeta in Hr. destruct Hr as (_ & _ & ->).
    by destruct (response _).
  - cbv zeta in Hr. destruct Hr as (_ & _ & ->).
    by destruct (response _).
Qed.

(** X24. Starting a session and finalizing it at once, with no audio
    pushed, succeeds with an empty text and no action, never calls the
    recognizer, and leaves the registry as it was before the start without
    that session id. *)
Theorem start_then_finalize (svc : @Service sample) (req1 req2 : JsonRequest)
    (id1 : JVal) (sid model : list N) :
  req_method req1 = JStr (u "stream_start") ->
  reply (serve svc req1) = reply_ok id1 (res_start sid model) ->
  req_method req2 = JStr (u "stream_finalize") ->
  named_session req2 = Some sid -> sid <> [] ->
  let r := serve (service_after (serve svc req1)) req2 in
  (exists id2,
     reply r = reply_ok id2 (res_finalize (mkFinalizeResult sid [] [])))
  /\ recognizer_calls r = []
  /\ sessions (service_after r) = delete sid (sessions svc).
Proof.
  intros Hm1 Hr1 Hm2 Hn2 Hne r. subst r.
  destruct (serve_inv is_speech mlx_installed mlx_transcribe py_int
              decode_audio uuid_req uuid_session env_model_path now_str
              svc req1)
    as [(H & _)|[(_ & Hsvc1 & _ & Hrep1)|[(H & _)|(H & _)]]];
    [done| |rewrite Hm1 in H; vm_compute in H; discriminate H..].
  pose proof (stream_start_body_cases mlx_installed py_int uuid_session
                env_model_path svc (req_params req1)) as [_ Hcase].
  cbv zeta in Hcase. rewrite Hr1 in Hrep1.
  destruct (stream_start_body _ _ _ _ _ _) as [svc1 [[sid' model']|msg]];
    cbn [fst snd] in *; [|done].
  injection Hrep1 as _ <- <-.
  destruct Hcase as (Hsid & _ & _ & sess & Hs1 & Hclear & Hseg & _).
  rewrite Hsvc1.
  destruct (serve_inv is_speech mlx_installed mlx_transcribe py_int
              decode_audio uuid_req uuid_session env_model_path now_str
              svc1 req2)
    as [(_ & _ & H & _)|[(H & _)|[(H & _)|(_ & Hr)]]];
    [done|rewrite Hm2 in H; vm_compute in H; discriminate H..|].
  cbv zeta in Hr. destruct Hr as (-> & -> & ->).
  rewrite Hn2. unfold handle_stream_finalize.
  apply nonempty_iff in Hne. rewrite Hne.
  rewrite Hs1, <- Hsid, lookup_insert_eq.
  destruct Hclear as (Hbuf & _). rewrite Hbuf, Hseg.
  cbn. split; [by eexists|]. split; [done|].
  apply delete_insert_eq.
Qed.

End ServerSequences.

Lemma start_then_finalize_witness :
  let req1 := request (u "1") (u "stream_start") [(u "session_id", u "a")] in
  let req2 := request (u "2") (u "stream_finalize") [(u "session_id", u "a")] in
  let r := demo_serve (service_after (demo_serve new_service req1)) req2 in
  reply (demo_serve new_service req1)
  = reply_ok (JStr (u "1")) (res_start (u "a") (u "mlx-community/whisper-medium"))
  /\ recognizer_calls r = []
  /\ sessions (service_after r) = delete (u "a") ∅.
Proof.
  intros req1 req2 r.
  assert (H1 : reply (demo_serve new_service req1)
               = reply_ok (JStr (u "1"))
                   (res_start (u "a") (u "mlx-community/whisper-medium")))
    by (vm_compute; reflexivity).
  assert (H2 : named_session req2 = Some (u "a")) by (vm_compute; reflexivity).
  assert (H3 : u "a" <> []) by (vm_compute; discriminate).
  destruct (start_then_finalize loud true (lib_const (u "你好")) int_digits
              decode_loud (u "req-0") (u "session-0") None (u "0.0")
              new_service req1 req2 _ _ _ eq_refl H1 eq_refl H2 H3)
    as (_ & Hc & Hs).
  split; [exact H1|]. split; [exact Hc|exact Hs].
Defined.
